(** * Neuro-fuzzy classifier: rule induction, repair, competitive training
      and evaluation ([neurofis/nfs.py], class [NFS]).

    Shallow embedding.  Conventions:

    - numpy floats are idealised as rationals [Q]; comparisons are the
      boolean tests of [QArith] and no rounding is modelled;
    - [Point] and [MF] objects live in an object store ([heap]); an [MF]
      holds three references to [Point] objects, a rule is a tuple of
      references to [MF] objects.  Re-binding an attribute ([mf.low = p])
      rewrites the reference, so every tuple holding that [MF] sees it;
    - a Python [dict] is an association list in insertion order, its keys
      compared as Python compares them (tuples of objects: by identity of
      the components, i.e. by reference);
    - Python exceptions are the [Raise] results of a small error monad;
    - [sklearn.utils.shuffle], [sklearn.metrics], [MF.fuzzyfy] and
      [MF.move] are not part of [nfs.py]: they are section variables. *)

From Stdlib Require Import QArith Qminmax Lqa ZArith Lia List.
From stdpp Require Import base option list sorting gmap.

Local Open Scope Q_scope.

(** ** Exceptions *)

Inductive exn : Set := ValueError | IndexError | AttributeError.

Inductive result (A : Type) : Type :=
| Ok (a : A)
| Raise (e : exn).
Arguments Ok {A} a.
Arguments Raise {A} e.

#[export] Instance result_ret : MRet result := fun A a => Ok a.
#[export] Instance result_bind : MBind result := fun A B f m =>
  match m with
  | Ok a => f a
  | Raise e => Raise e
  end.

(** [seq[i]] on a tuple, a list or a one-dimensional array. *)
Definition getitem {A : Type} (l : list A) (i : nat) : result A :=
  match l !! i with
  | Some a => Ok a
  | None => Raise IndexError
  end.

(** ** Dictionaries in insertion order *)

Section Dict.
Context {K V : Type} `{EqDecision K}.

Definition dict : Type := list (K * V).

Fixpoint dict_get (d : dict) (k : K) : option V :=
  match d with
  | [] => None
  | (k', v) :: d' => if decide (k' = k) then Some v else dict_get d' k
  end.

(** [d[k] = v]: an existing key keeps its position, a new key goes last. *)
Fixpoint dict_set (d : dict) (k : K) (v : V) : dict :=
  match d with
  | [] => [(k, v)]
  | (k', v') :: d' =>
      if decide (k' = k) then (k', v) :: d' else (k', v') :: dict_set d' k v
  end.

Definition keys (d : dict) : list K := map fst d.
Definition values (d : dict) : list V := map snd d.
End Dict.
Arguments dict : clear implicits.

(** ** Object store: [Point] and [MF] objects *)

Record MF : Set := mkMF { low : nat; mid : nat; high : nat }.

Record heap : Type := mkHeap { points : list Q; mfs : list MF }.

Definition empty_heap : heap := mkHeap [] [].

(** A reference held by a live object always designates an object of the
    store: the defaults below are never reached from a state built by
    [train]. *)
Definition Point_x (h : heap) (p : nat) : Q := default 0 (points h !! p).
Definition mf_at (h : heap) (m : nat) : MF := default (mkMF 0 0 0) (mfs h !! m).

Definition low_x (h : heap) (m : nat) : Q := Point_x h (low (mf_at h m)).
Definition mid_x (h : heap) (m : nat) : Q := Point_x h (mid (mf_at h m)).
Definition high_x (h : heap) (m : nat) : Q := Point_x h (high (mf_at h m)).

(** [Point(v)]: a fresh object, returned by reference. *)
Definition new_Point (h : heap) (v : Q) : heap * nat :=
  (mkHeap (points h ++ [v]) (mfs h), length (points h)).

(** Modelled from the spec: the constructor of [neurofis.mf.MF] is not in
    [nfs.py]; its three positional arguments are stored as the attributes
    [low], [mid] and [high], in that order. *)
Definition new_MF (h : heap) (l m hi : nat) : heap * nat :=
  (mkHeap (points h) (mfs h ++ [mkMF l m hi]), length (mfs h)).

(** [mf.low = p] and [mf.high = p]. *)
Definition set_low (h : heap) (m p : nat) : heap :=
  let f := mf_at h m in
  mkHeap (points h) (<[m := mkMF p (mid f) (high f)]> (mfs h)).

Definition set_high (h : heap) (m p : nat) : heap :=
  let f := mf_at h m in
  mkHeap (points h) (<[m := mkMF (low f) (mid f) p]> (mfs h)).

(** ** Two-dimensional arrays *)

Record ndarray : Type := mkArray { shape1 : nat; rows : list (list Q) }.

Definition shape0 (data : ndarray) : nat := length (rows data).

(** Every row of an array has [shape1] entries. *)
Definition rectangular (data : ndarray) : Prop :=
  Forall (fun r => length r = shape1 data) (rows data).

(** [data[:, feat_index]] *)
Definition column (data : ndarray) (feat_index : nat) : list Q :=
  map (fun r => default 0 (r !! feat_index)) (rows data).

(** [np.min] and [np.max] of a one-dimensional array; both raise on an
    empty one. *)
Definition np_min (a : list Q) : result Q :=
  match a with
  | [] => Raise ValueError
  | v :: a' => Ok (fold_left Qmin a' v)
  end.

Definition np_max (a : list Q) : result Q :=
  match a with
  | [] => Raise ValueError
  | v :: a' => Ok (fold_left Qmax a' v)
  end.

(** ** Partition construction ([train], lines 45-56) *)

(** [min_obs + n * (max_obs - min_obs) / 7] *)
Definition break_point (min_obs max_obs : Q) (n : nat) : Q :=
  min_obs + inject_Z (Z.of_nat n) * (max_obs - min_obs) / 7.

(** [for n in range(0, 7): points.append(Point(...))] *)
Fixpoint new_points (h : heap) (min_obs max_obs : Q) (ns : list nat)
  : heap * list nat :=
  match ns with
  | [] => (h, [])
  | n :: ns' =>
      let '(h1, p) := new_Point h (break_point min_obs max_obs n) in
      let '(h2, ps) := new_points h1 min_obs max_obs ns' in
      (h2, p :: ps)
  end.

(** [for n in range(0, 5): splits.append(MF(points[n], points[n+1], points[n+2]))] *)
Fixpoint new_splits (h : heap) (pts : list nat) (ns : list nat)
  : heap * list nat :=
  match ns with
  | [] => (h, [])
  | n :: ns' =>
      let '(h1, m) :=
        new_MF h (default O (pts !! n)) (default O (pts !! (n + 1)%nat))
               (default O (pts !! (n + 2)%nat)) in
      let '(h2, ms) := new_splits h1 pts ns' in
      (h2, m :: ms)
  end.

(** The body of the loop over features: the break points and the fuzzy
    sets of one column. *)
Definition build_feature (h : heap) (data : ndarray) (feat_index : nat)
  : result (heap * list nat) :=
  min_obs ← np_min (column data feat_index);
  max_obs ← np_max (column data feat_index);
  let '(h1, pts) := new_points h min_obs max_obs (seq 0 7) in
  mret (new_splits h1 pts (seq 0 5)).

(** [for feat_index in range(0, np.shape(data)[1]): ... mfs.append(splits)] *)
Fixpoint build_features (h : heap) (data : ndarray) (feats : list nat)
  : result (heap * list (list nat)) :=
  match feats with
  | [] => mret (h, [])
  | feat_index :: feats' =>
      '(h1, splits) ← build_feature h data feat_index;
      '(h2, rest) ← build_features h1 data feats';
      mret (h2, splits :: rest)
  end.

Definition build_fuzzy_sets (data : ndarray) : result (heap * list (list nat)) :=
  build_features empty_heap data (seq 0 (shape1 data)).

(** ** Rule candidates and their consequents ([train], lines 58-87) *)

(** [itertools.product] of the lists of [mfs]: the last component varies
    fastest, and the product of no list at all is the single empty tuple. *)
Fixpoint product {A : Type} (ls : list (list A)) : list (list A) :=
  match ls with
  | [] => [[]]
  | l :: ls' => flat_map (fun a => map (cons a) (product ls')) l
  end.

Definition Qltb (a b : Q) : bool := negb (Qle_bool b a).

(** [intersection[feature].low.x <= data[observ, feature] <= intersection[feature].high.x] *)
Definition in_range (h : heap) (intersection : list nat) (row : list Q)
    (feature : nat) : result bool :=
  m ← getitem intersection feature;
  v ← getitem row feature;
  mret (Qle_bool (low_x h m) v && Qle_bool v (high_x h m)).

(** The loop over features that computes [found]; it stops at the first
    feature out of range. *)
Fixpoint found_loop (h : heap) (intersection : list nat) (row : list Q)
    (features : list nat) : result bool :=
  match features with
  | [] => mret true
  | feature :: features' =>
      b ← in_range h intersection row feature;
      if (b : bool) then found_loop h intersection row features' else mret false
  end.

(** [if t not in classes: classes[t] = 0] then [classes[t] += 1] *)
Definition count_class (classes : dict Z Z) (t : Z) : dict Z Z :=
  let classes1 :=
    match dict_get classes t with
    | None => dict_set classes t 0%Z
    | Some _ => classes
    end in
  dict_set classes1 t (default 0%Z (dict_get classes1 t) + 1)%Z.

(** The loop over observations that fills [classes] for one grid cell. *)
Fixpoint count_loop (h : heap) (data : ndarray) (target : list Z)
    (intersection : list nat) (observs : list nat) (classes : dict Z Z)
  : result (dict Z Z) :=
  match observs with
  | [] => mret classes
  | observ :: observs' =>
      row ← getitem (rows data) observ;
      found ← found_loop h intersection row (seq 0 (length row));
      if (found : bool) then
        t ← getitem target observ;
        count_loop h data target intersection observs' (count_class classes t)
      else count_loop h data target intersection observs' classes
  end.

(** Python orders tuples lexicographically. *)
Definition pair_ltb (a b : Z * Z) : bool :=
  ((a.1 <? b.1) || ((a.1 =? b.1) && (a.2 <? b.2)))%Z.

(** [max(iterable)]: the first of the greatest items; raises on an empty
    iterable. *)
Definition py_max (l : list (Z * Z)) : result (Z * Z) :=
  match l with
  | [] => Raise ValueError
  | a :: l' => Ok (fold_left (fun best b => if pair_ltb best b then b else best) l' a)
  end.

(** Ruleset: [self._rules], from tuples of fuzzy sets to classes. *)
Definition ruleset : Type := dict (list nat) Z.

(** The body of the loop over grid cells. *)
Definition consequent (h : heap) (data : ndarray) (target : list Z)
    (min_observations_per_rule : Z) (rules : ruleset) (intersection : list nat)
  : result ruleset :=
  classes ← count_loop h data target intersection (seq 0 (shape0 data)) [];
  match classes with
  | [] => mret rules
  | _ =>
      '(nb_of_observations, rule_class) ← py_max (zip (values classes) (keys classes));
      if (min_observations_per_rule <=? nb_of_observations)%Z
      then mret (dict_set rules intersection rule_class)
      else mret rules
  end.

Fixpoint consequents (h : heap) (data : ndarray) (target : list Z)
    (min_observations_per_rule : Z) (rules : ruleset)
    (intersections : list (list nat)) : result ruleset :=
  match intersections with
  | [] => mret rules
  | intersection :: intersections' =>
      rules1 ← consequent h data target min_observations_per_rule rules intersection;
      consequents h data target min_observations_per_rule rules1 intersections'
  end.

(** ** Repair ([repair], lines 116-136) *)

(** [dist], which starts at [float('+infinity')]. *)
Inductive distance : Type := Infinity | Finite (d : Q).

Definition lt_dist (d : Q) (dist : distance) : bool :=
  match dist with
  | Infinity => true
  | Finite d' => Qltb d d'
  end.

Definition dist_nonzero (dist : distance) : bool :=
  match dist with
  | Infinity => true
  | Finite d => negb (Qeq_bool d 0)
  end.

(** The loop over [other_rule]: it leaves in [neighbour] the fuzzy set
    [rule[feature]] itself as soon as some rule has its [mid] to the right
    of [rule[feature].high]. *)
Fixpoint nearest (h : heap) (rule : list nat) (feature : nat)
    (others : list (list nat)) (neighbour : option nat) (dist : distance)
  : result (option nat * distance) :=
  match others with
  | [] => mret (neighbour, dist)
  | other_rule :: others' =>
      m ← getitem rule feature;
      o ← getitem other_rule feature;
      if Qltb (high_x h m) (mid_x h o) && lt_dist (mid_x h o - high_x h m) dist
      then nearest h rule feature others' (Some m) (Finite (mid_x h o - high_x h m))
      else nearest h rule feature others' neighbour dist
  end.

(** The body of the loop over [rule]. *)
Definition repair_rule (h : heap) (rules : ruleset) (feature : nat)
    (rule : list nat) : result heap :=
  '(neighbour, dist) ← nearest h rule feature (keys rules) None Infinity;
  match neighbour with
  | Some n =>
      if dist_nonzero dist then
        m ← getitem rule feature;
        let h1 := set_low h n (mid (mf_at h m)) in
        mret (set_high h1 m (mid (mf_at h1 n)))
      else mret h
  | None => mret h
  end.

Fixpoint repair_rules (h : heap) (rules : ruleset) (feature : nat)
    (todo : list (list nat)) : result heap :=
  match todo with
  | [] => mret h
  | rule :: todo' =>
      h1 ← repair_rule h rules feature rule;
      repair_rules h1 rules feature todo'
  end.

Fixpoint repair_features (h : heap) (rules : ruleset) (features : list nat)
  : result heap :=
  match features with
  | [] => mret h
  | feature :: features' =>
      h1 ← repair_rules h rules feature (keys rules);
      repair_features h1 rules features'
  end.

Definition repair (h : heap) (rules : ruleset) (nb_of_features : nat)
  : result heap :=
  repair_features h rules (seq 0 nb_of_features).

(** ** The classifier object *)

Record NFS : Type := mkNFS {
  _nb_of_features : nat;
  _max_rules : Z;
  _min_observations_per_rule : Z;
  _rules : option ruleset        (* [None] until [train] is called *)
}.

(** [__init__] *)
Definition init (max_rules min_observations_per_rule : Z) : NFS :=
  mkNFS 0 max_rules min_observations_per_rule None.

(** The functions of [sklearn.metrics] that [test] calls on
    [(target, predictions)]: each returns what [test] prints, or raises.
    [precision_score] and [recall_score] stand for the calls with
    [average='micro']. *)
Record Metrics : Type := mkMetrics {
  confusion_matrix : list Z -> list Z -> result (list (list Z));
  accuracy_score : list Z -> list Z -> result Q;
  precision_score : list Z -> list Z -> result Q;
  recall_score : list Z -> list Z -> result Q
}.

Section Learning.

(** [MF.fuzzyfy] and [MF.move] belong to [neurofis.mf], which [nfs.py]
    only imports.  [fuzzyfy h m v] is the degree that the fuzzy set [m]
    gives to the value [v] in the store [h]; [move h m v rate same] is
    the store after [m.move(v, rate, same)]. *)
Variable fuzzyfy : heap -> nat -> Q -> Q.
Variable move : heap -> nat -> Q -> Q -> bool -> heap.

(** [sklearn.utils.shuffle(data, target)], which raises on arrays of
    inconsistent lengths. *)
Variable shuffle : ndarray -> list Z -> result (ndarray * list Z).

(** The four functions of [sklearn.metrics] that [test] calls. *)
Variable metrics : Metrics.

(** [for feat in range(0, len(mfs)): act += mfs[feat].fuzzyfy(data[obs, feat]) / len(mfs)];
    [rest] are the fuzzy sets [mfs[feat:]] still to visit. *)
Fixpoint activate (h : heap) (len_mfs : nat) (row : list Q) (feat : nat)
    (rest : list nat) (act : Q) : result Q :=
  match rest with
  | [] => mret act
  | m :: rest' =>
      v ← getitem row feat;
      activate h len_mfs row (S feat) rest'
               (act + fuzzyfy h m v / inject_Z (Z.of_nat len_mfs))
  end.

Definition activation (h : heap) (mfs : list nat) (row : list Q) : result Q :=
  activate h (length mfs) row 0 mfs 0.

(** *** Competitive training ([train], lines 92-112) *)

(** The scan of [self._rules.items()] with [act > max_act]. *)
Fixpoint most_activated (h : heap) (row : list Q) (items : ruleset)
    (max_rule : option (list nat * Z)) (max_act : Q)
  : result (option (list nat * Z)) :=
  match items with
  | [] => mret max_rule
  | (mfs, target_class) :: items' =>
      act ← activation h mfs row;
      if Qltb max_act act
      then most_activated h row items' (Some (mfs, target_class)) act
      else most_activated h row items' max_rule max_act
  end.

(** [for feat in range(0, len(max_rule[0])):
       max_rule[0][feat].move(data[obs, feat], learning_rate, max_rule[1] == target[obs])] *)
Fixpoint adjust (h : heap) (max_class : Z) (row : list Q) (target : list Z)
    (obs : nat) (learning_rate : Q) (feat : nat) (rest : list nat)
  : result heap :=
  match rest with
  | [] => mret h
  | m :: rest' =>
      v ← getitem row feat;
      t ← getitem target obs;
      adjust (move h m v learning_rate (max_class =? t)%Z) max_class row
             target obs learning_rate (S feat) rest'
  end.

(** One observation of one pass. *)
Definition train_observation (h : heap) (rules : ruleset) (data : ndarray)
    (target : list Z) (learning_rate : Q) (obs : nat) : result heap :=
  row ← getitem (rows data) obs;
  max_rule ← most_activated h row rules None 0;
  match max_rule with
  | None => mret h
  | Some (mfs, max_class) =>
      adjust h max_class row target obs learning_rate 0 mfs
  end.

Fixpoint train_pass (h : heap) (rules : ruleset) (data : ndarray)
    (target : list Z) (learning_rate : Q) (observs : list nat) : result heap :=
  match observs with
  | [] => mret h
  | obs :: observs' =>
      h1 ← train_observation h rules data target learning_rate obs;
      train_pass h1 rules data target learning_rate observs'
  end.

(** [for i in range(0, nb_iter): for obs in range(0, np.shape(data)[0]): ...] *)
Fixpoint train_passes (h : heap) (rules : ruleset) (data : ndarray)
    (target : list Z) (learning_rate : Q) (passes : list nat) : result heap :=
  match passes with
  | [] => mret h
  | _ :: passes' =>
      h1 ← train_pass h rules data target learning_rate (seq 0 (shape0 data));
      train_passes h1 rules data target learning_rate passes'
  end.

Definition training (h : heap) (rules : ruleset) (data : ndarray)
    (target : list Z) (nb_iter : Z) (learning_rate : Q) : result heap :=
  train_passes h rules data target learning_rate (seq 0 (Z.to_nat nb_iter)).

(** *** [train] *)

(** [train] up to and including the call of [repair] (lines 34-89): the
    shuffled arrays, the store and the rules. *)
Definition induce (min_observations_per_rule : Z) (data : ndarray)
    (target : list Z) : result (ndarray * list Z * heap * ruleset) :=
  '(data, target) ← shuffle data target;
  '(h, mfs) ← build_fuzzy_sets data;
  let intersections := product mfs in
  rules ← consequents h data target min_observations_per_rule []
                      intersections;
  h1 ← repair h rules (shape1 data);
  mret (data, target, h1, rules).

(** The classifier once [train] has returned. *)
Definition trained (self : NFS) (data : ndarray) (rules : ruleset) : NFS :=
  mkNFS (shape1 data) (_max_rules self) (_min_observations_per_rule self)
        (Some rules).

Definition train (self : NFS) (data : ndarray) (target : list Z)
    (nb_iter : Z) (learning_rate : Q) : result (heap * NFS) :=
  '(data1, target1, h, rules) ←
    induce (_min_observations_per_rule self) data target;
  h1 ← training h rules data1 target1 nb_iter learning_rate;
  mret (h1, trained self data rules).

(** *** Evaluation ([test], lines 138-164) *)

(** The scan of [self._rules.items()] with [act >= max_act]. *)
Fixpoint max_class_loop (h : heap) (row : list Q) (items : ruleset)
    (max_act : Q) (max_class : Z) : result Z :=
  match items with
  | [] => mret max_class
  | (mfs, target_class) :: items' =>
      act ← activation h mfs row;
      if Qle_bool max_act act
      then max_class_loop h row items' act target_class
      else max_class_loop h row items' max_act max_class
  end.

(** The prediction for one observation: [max_act = 0], [max_class = -1],
    then the scan. *)
Definition predict (h : heap) (rules : ruleset) (row : list Q) : result Z :=
  max_class_loop h row rules 0 (-1)%Z.

Fixpoint predictions (h : heap) (rules : ruleset) (data : ndarray)
    (observs : list nat) : result (list Z) :=
  match observs with
  | [] => mret []
  | obs :: observs' =>
      row ← getitem (rows data) obs;
      max_class ← predict h rules row;
      rest ← predictions h rules data observs';
      mret (max_class :: rest)
  end.

(** The loop over the observations (lines 145-159), which builds
    [predictions]; [self._rules] is read only when there is an
    observation. *)
Definition test_loop (h : heap) (self : NFS) (data : ndarray)
  : result (list Z) :=
  match _rules self with
  | None =>
      match rows data with
      | [] => mret []
      | _ => Raise AttributeError
      end
  | Some rules => predictions h rules data (seq 0 (shape0 data))
  end.

(** The four scores that [test] prints (lines 161-164), computed in this
    order from [target] and [predictions]. *)
Definition print_scores (target predicted : list Z) : result unit :=
  _ ← confusion_matrix metrics target predicted;
  _ ← accuracy_score metrics target predicted;
  _ ← precision_score metrics target predicted;
  _ ← recall_score metrics target predicted;
  mret tt.

(** [test] prints the scores and returns nothing; the result here is the
    list [predictions] that it has built, once the scores are printed. *)
Definition test (h : heap) (self : NFS) (data : ndarray) (target : list Z)
  : result (list Z) :=
  predicted ← test_loop h self data;
  _ ← print_scores target predicted;
  mret predicted.

End Learning.

(** ** Instances on which the model can be run *)

(** Modelled from the spec: [MF.fuzzyfy] is not in [nfs.py]; the glossary
    describes a triangular function of the vertices [low], [mid], [high]
    with degrees in [0, 1]: 0 outside [low, high], 1 at [mid], linear in
    between. *)
Definition tri_fuzzyfy (h : heap) (m : nat) (v : Q) : Q :=
  let l := low_x h m in
  let c := mid_x h m in
  let r := high_x h m in
  if Qltb v l || Qltb r v then 0
  else if Qeq_bool v c then 1
  else if Qltb v c then (v - l) / (c - l)
  else (r - v) / (r - c).

(** Modelled from the spec: [MF.move] is not in [nfs.py]; it moves the
    vertices of the fuzzy set toward the value when the classes agree and
    away from it otherwise, scaled by the learning rate. *)
Definition shift_point (h : heap) (p : nat) (v rate : Q) : heap :=
  mkHeap (<[p := Point_x h p + rate * (v - Point_x h p)]> (points h)) (mfs h).

Definition shift_move (h : heap) (m : nat) (v rate : Q) (same : bool) : heap :=
  let d := if same then rate else - rate in
  let f := mf_at h m in
  shift_point (shift_point (shift_point h (low f) v d) (mid f) v d) (high f) v d.

(** A shuffle that checks the lengths and returns the identity
    permutation. *)
Definition checked_shuffle (data : ndarray) (target : list Z)
  : result (ndarray * list Z) :=
  if decide (shape0 data = length target) then Ok (data, target)
  else Raise ValueError.

(** Scores that check the arrays as [sklearn.metrics] does, rejecting
    arrays of inconsistent lengths and empty arrays: the confusion matrix
    over the sorted labels, and the fraction of the predictions that
    equal their target (which the accuracy and the micro-averaged
    precision and recall all are). *)
Definition check_arrays {A : Type} (target predicted : list Z) (score : A)
  : result A :=
  if decide (length target = length predicted /\ target <> []) then Ok score
  else Raise ValueError.

Definition labels (target predicted : list Z) : list Z :=
  remove_dups (merge_sort Z.le (target ++ predicted)).

Definition count_pairs (target predicted : list Z) (t p : Z) : Z :=
  Z.of_nat (length (filter (fun tp => tp = (t, p)) (zip target predicted))).

Definition checked_confusion_matrix (target predicted : list Z)
  : result (list (list Z)) :=
  let ls := labels target predicted in
  check_arrays target predicted
    (map (fun t => map (count_pairs target predicted t) ls) ls).

Definition checked_accuracy (target predicted : list Z) : result Q :=
  check_arrays target predicted
    (inject_Z (Z.of_nat (length (filter (fun tp => tp.1 = tp.2)
                                        (zip target predicted))))
     / inject_Z (Z.of_nat (length target))).

Definition checked_metrics : Metrics :=
  mkMetrics checked_confusion_matrix checked_accuracy checked_accuracy
            checked_accuracy.

(** A column with the values 0, 3.5 and 7 and the classes 0, 1, 1. *)
Definition gap_data : ndarray := mkArray 1 [[0]; [7 # 2]; [7]].
Definition gap_target : list Z := [0; 1; 1]%Z.

(** ** Notions used to state the properties *)

(** Both vertices [low] and [high] of the fuzzy set [m] re-bound to its
    [mid] vertex. *)
Definition collapse (h : heap) (m : nat) : heap :=
  let c := mid (mf_at h m) in
  mkHeap (points h) (<[m := mkMF c c c]> (mfs h)).

(** [other_rule[feature].mid.x] lies to the right of [m.high.x]. *)
Definition to_the_right (h : heap) (feature m : nat) (other_rule : list nat)
  : bool :=
  match other_rule !! feature with
  | Some o => Qltb (high_x h m) (mid_x h o)
  | None => false
  end.

Definition has_right (h : heap) (rules : ruleset) (feature m : nat) : bool :=
  existsb (to_the_right h feature m) (keys rules).

Definition merge (h : heap) (rules : ruleset) (feature m : nat) : heap :=
  if has_right h rules feature m then collapse h m else h.


(** The scan for the neighbour: its result is [rule[feature]] itself, at a
    positive distance, or nothing. *)
Definition scanned (m : nat) (neighbour : option nat) (dist : distance) : Prop :=
  match neighbour with
  | None => dist = Infinity
  | Some n => n = m /\ exists d, dist = Finite d /\ 0 < d
  end.

(** The fuzzy sets that one call of [repair] visits, feature by feature and
    rule by rule, and the merges it applies to them. *)
Definition visits (rules : ruleset) (features : list nat) : list (nat * nat) :=
  flat_map (fun feature =>
              map (fun rule => (feature, default O (rule !! feature)))
                  (keys rules))
           features.

Definition run_merges (h : heap) (rules : ruleset) (vs : list (nat * nat)) : heap :=
  fold_left (fun h1 v => merge h1 rules v.1 v.2) vs h.

(** The unweighted mean of the degrees that the fuzzy sets of a rule give
    to the values of an observation. *)
Definition Qsum (l : list Q) : Q := fold_right Qplus 0 l.

Definition mean_degree (fuzzyfy : heap -> nat -> Q -> Q) (h : heap)
    (mfs : list nat) (row : list Q) : Q :=
  Qsum (zip_with (fuzzyfy h) mfs row) / inject_Z (Z.of_nat (length mfs)).

(** The activation of the rule of [item] on [row] is [a'] and stands in the
    relation [R] to [a]. *)
Definition activation_is (fuzzyfy : heap -> nat -> Q -> Q) (h : heap)
    (row : list Q) (R : Q -> Q -> Prop) (a : Q) (item : list nat * Z) : Prop :=
  exists a', activation fuzzyfy h item.1 row = Ok a' /\ R a' a.

(** The store after the five fuzzy sets of a column with the values 0..7
    have been built, with the break points 0, 1, ..., 6. *)
Definition unit_heap : heap :=
  mkHeap [0; 1; 2; 3; 4; 5; 6]
         [mkMF 0 1 2; mkMF 1 2 3; mkMF 2 3 4; mkMF 3 4 5; mkMF 4 5 6].

(** The observation [row] falls inside the grid cell [cell]: on every
    feature its value lies in the closed interval [low.x, high.x] of the
    fuzzy set of the cell. *)
Definition falls_inside (h : heap) (cell : list nat) (row : list Q) : Prop :=
  forall feature m v,
    cell !! feature = Some m -> row !! feature = Some v ->
    low_x h m <= v /\ v <= high_x h m.

Definition inside (h : heap) (cell : list nat) (row : list Q) : bool :=
  forallb (fun mv => Qle_bool (low_x h mv.1) mv.2 && Qle_bool mv.2 (high_x h mv.1))
          (zip cell row).

(** The number of observations of class [k] among the labelled
    observations [obs] that fall inside the cell. *)
Fixpoint count_in (h : heap) (cell : list nat) (k : Z)
    (obs : list (list Q * Z)) : Z :=
  match obs with
  | [] => 0
  | (row, t) :: obs' =>
      (if inside h cell row && (t =? k) then 1 else 0)
      + count_in h cell k obs'
  end%Z.

Definition cell_count (h : heap) (data : ndarray) (target : list Z)
    (cell : list nat) (k : Z) : Z :=
  count_in h cell k (zip (rows data) target).

(** The dictionary [classes] after the labelled observations [obs]. *)
Definition tally (h : heap) (cell : list nat) (obs : list (list Q * Z))
    (classes : dict Z Z) : dict Z Z :=
  fold_left (fun cl rt => if inside h cell rt.1 then count_class cl rt.2 else cl)
            obs classes.

(** The class that the loop over grid cells gives to a cell, if it keeps
    the cell. *)
Definition label (h : heap) (data : ndarray) (target : list Z)
    (min_observations_per_rule : Z) (cell : list nat) : option Z :=
  match tally h cell (zip (rows data) target) [] with
  | [] => None
  | classes =>
      match py_max (zip (values classes) (keys classes)) with
      | Ok (nb_of_observations, rule_class) =>
          if (min_observations_per_rule <=? nb_of_observations)%Z
          then Some rule_class else None
      | Raise _ => None
      end
  end.

(** The first class, in the order of [classes], among those of greatest
    count. *)
Definition first_enumerated_max (classes : dict Z Z) : option Z :=
  match classes with
  | [] => None
  | kn :: rest =>
      Some (fold_left (fun best kn' => if (best.2 <? kn'.2)%Z then kn' else best)
                      rest kn).1
  end.

(** The tie-break as the specification words it. *)
Definition ties_go_to_first_enumerated (h : heap) (data : ndarray)
    (target : list Z) (min_observations_per_rule : Z)
    (cells : list (list nat)) : Prop :=
  forall rules cell c classes,
    consequents h data target min_observations_per_rule [] cells = Ok rules ->
    dict_get rules cell = Some c ->
    count_loop h data target cell (seq 0 (shape0 data)) [] = Ok classes ->
    first_enumerated_max classes = Some c.

(** Two observations of different classes in the same cell. *)
Definition tie_data : ndarray := mkArray 1 [[0]; [0]; [7]].
Definition tie_target : list Z := [0; 1; 1]%Z.

(** What [train] relies on from [sklearn.utils.shuffle]: arrays of
    inconsistent lengths are rejected, and otherwise the observations come
    back permuted together with their classes. *)
Definition shuffle_contract
    (shuffle : ndarray -> list Z -> result (ndarray * list Z)) : Prop :=
  forall data target,
    if decide (shape0 data = length target) then
      exists data1 target1,
        shuffle data target = Ok (data1, target1) /\
        shape1 data1 = shape1 data /\
        length (rows data1) = length target1 /\
        Permutation (zip (rows data1) target1) (zip (rows data) target)
    else shuffle data target = Raise ValueError.

(** The rejection of ill-shaped inputs as the specification words it. *)
Definition rejects_bad_shapes
    (fuzzyfy : heap -> nat -> Q -> Q)
    (move : heap -> nat -> Q -> Q -> bool -> heap)
    (shuffle : ndarray -> list Z -> result (ndarray * list Z)) : Prop :=
  forall self data target nb_iter learning_rate,
    shape0 data <> length target \/ shape1 data = 0%nat ->
    exists e,
      train fuzzyfy move shuffle self data target nb_iter learning_rate
      = Raise e.

(** The prediction of [test] as the specification words it: with a rule
    and degrees of membership that are not negative, every prediction is
    the class of a rule and none is -1. *)
Definition never_the_sentinel (fuzzyfy : heap -> nat -> Q -> Q)
    (metrics : Metrics) : Prop :=
  forall h self rules data target predicted,
    _rules self = Some rules ->
    rules <> [] ->
    (forall m v, 0 <= fuzzyfy h m v) ->
    test fuzzyfy metrics h self data target = Ok predicted ->
    Forall (fun c => c ∈ values rules /\ c <> (-1)%Z) predicted.


(** ** Further notions *)

(** The fuzzy set [m] is used by a rule on a feature on which some rule has
    its [mid] to the right of [m.high]. *)
Definition needs_merge (h : heap) (rules : ruleset) (nb_of_features m : nat)
  : Prop :=
  exists feature rule other o,
    (feature < nb_of_features)%nat /\
    rule ∈ keys rules /\ rule !! feature = Some m /\
    other ∈ keys rules /\ other !! feature = Some o /\
    high_x h m < mid_x h o.

Definition merged_by (h : heap) (rules : ruleset) (vs : list (nat * nat))
    (m : nat) : bool :=
  existsb (fun v => Nat.eqb v.2 m && has_right h rules v.1 m) vs.

(** The fuzzy set [m] collapsed on its [mid] vertex. *)
Definition collapsed_mf (h : heap) (m : nat) : MF :=
  mkMF (mid (mf_at h m)) (mid (mf_at h m)) (mid (mf_at h m)).

(** The invariant [low.x <= mid.x <= high.x] of a fuzzy set. *)
Definition ordered (h : heap) (m : nat) : Prop :=
  low_x h m <= mid_x h m /\ mid_x h m <= high_x h m.

(** ** [inspect] (lines 166-178) *)

(** [for feat_index in range(0, self._nb_of_features):
       lvs[feat_index].add(mfs[feat_index])] *)
Fixpoint add_fuzzy_sets (lvs : list (gset nat)) (mfs : list nat)
    (feats : list nat) : result (list (gset nat)) :=
  match feats with
  | [] => mret lvs
  | feat_index :: feats' =>
      m ← getitem mfs feat_index;
      add_fuzzy_sets (alter (fun s => {[m]} ∪ s) feat_index lvs) mfs feats'
  end.

(** [for mfs in self._rules.keys(): ...] *)
Fixpoint collect_fuzzy_sets (lvs : list (gset nat)) (nb_of_features : nat)
    (todo : list (list nat)) : result (list (gset nat)) :=
  match todo with
  | [] => mret lvs
  | mfs :: todo' =>
      lvs1 ← add_fuzzy_sets lvs mfs (seq 0 nb_of_features);
      collect_fuzzy_sets lvs1 nb_of_features todo'
  end.

(** [inspect] builds [lvs], one set of fuzzy sets per feature, and then
    returns nothing (what follows in the source is an empty list and a
    string); the result here is [lvs]. *)
Definition inspect (self : NFS) : result (list (gset nat)) :=
  let lvs := replicate (_nb_of_features self) (∅ : gset nat) in
  match _rules self with
  | None => Raise AttributeError
  | Some rules => collect_fuzzy_sets lvs (_nb_of_features self) (keys rules)
  end.

(** * Properties *)

(** ** Partition construction *)

(** C2.  On the column with the values 0 and 7 the seven break points are
    0, 1, ..., 6 and the five fuzzy sets are built on the vertices
    [points[n]], [points[n+1]], [points[n+2]], but the last break point is
    6 and not the maximum 7: the divisor is 7 where six intervals separate
    seven points, so the greatest observed value lies to the right of every
    fuzzy set. *)
Theorem break_points_stop_below_max :
  exists h splits,
    build_fuzzy_sets (mkArray 1 [[0]; [7]]) = Ok (h, [splits]) /\
    np_min (column (mkArray 1 [[0]; [7]]) 0) = Ok 0 /\
    np_max (column (mkArray 1 [[0]; [7]]) 0) = Ok 7 /\
    Forall2 Qeq (points h) [0; 1; 2; 3; 4; 5; 6] /\
    mfs h = [mkMF 0 1 2; mkMF 1 2 3; mkMF 2 3 4; mkMF 3 4 5; mkMF 4 5 6] /\
    splits = [0; 1; 2; 3; 4]%nat /\
    Forall (fun m => high_x h m < 7) splits /\
    Forall (fun m => in_range h [m] [7] 0 = Ok false) splits.
Proof.
  eexists _, _. split; [vm_compute; reflexivity |].
  repeat split; repeat constructor.
Qed.

(** ** Repair *)

(** C1.  On the rules induced from the column 0, 3.5, 7 (the fuzzy sets 0,
    2 and 3 survive), the fuzzy set 0 has its nearest right-hand neighbour
    in the fuzzy set 2, at the gap 1.  The merge of [repair] does not touch
    the neighbour: it binds the [low] and the [high] of the fuzzy set 0
    itself to its own [mid] vertex, because the scan stores
    [rule[feature]] in [neighbour] where it should store
    [other_rule[feature]]. *)
Theorem repair_merges_with_itself :
  exists h splits rules h1 h',
    build_fuzzy_sets gap_data = Ok (h, [splits]) /\
    consequents h gap_data gap_target 1 [] (product [splits]) = Ok rules /\
    rules = [([0%nat], 0%Z); ([2%nat], 1%Z); ([3%nat], 1%Z)] /\
    mfs h = [mkMF 0 1 2; mkMF 1 2 3; mkMF 2 3 4; mkMF 3 4 5; mkMF 4 5 6] /\
    high_x h 0 < mid_x h 2 /\ mid_x h 2 < mid_x h 3 /\
    0 < mid_x h 2 - high_x h 0 /\
    repair_rule h rules 0 [0%nat] = Ok h1 /\
    mf_at h1 0 = mkMF 1 1 1 /\ mf_at h1 2 = mkMF 2 3 4 /\
    repair h rules 1 = Ok h' /\
    mf_at h' 0 = mkMF 1 1 1 /\ mf_at h' 2 = mkMF 2 3 4 /\
    Nat.eqb (low (mf_at h' 2)) (mid (mf_at h' 0)) = false /\
    Nat.eqb (high (mf_at h' 0)) (mid (mf_at h' 2)) = false.
Proof.
  eexists _, _, _, _, _.
  split; [vm_compute; reflexivity |].
  split; [vm_compute; reflexivity |].
  split; [reflexivity |].
  split; [reflexivity |].
  split; [reflexivity |].
  split; [reflexivity |].
  split; [reflexivity |].
  split; [vm_compute; reflexivity |].
  split; [reflexivity |].
  split; [reflexivity |].
  split; [vm_compute; reflexivity |].
  repeat split.
Qed.

(** *** The merge of [repair] is a collapse of [rule[feature]] *)

Lemma Qltb_lt (a b : Q) : Qltb a b = true <-> a < b.
Proof.
  unfold Qltb. rewrite negb_true_iff, <- not_true_iff_false, Qle_bool_iff.
  split; [apply Qnot_le_lt | apply Qlt_not_le].
Qed.

Lemma Qltb_ge (a b : Q) : Qltb a b = false <-> b <= a.
Proof. unfold Qltb. rewrite negb_false_iff. apply Qle_bool_iff. Qed.

Lemma getitem_Some {A : Type} (l : list A) (i : nat) (a : A) :
  l !! i = Some a -> getitem l i = Ok a.
Proof. intros H. unfold getitem. now rewrite H. Qed.

Lemma getitem_Ok {A : Type} (l : list A) (i : nat) (a : A) :
  getitem l i = Ok a -> l !! i = Some a.
Proof. unfold getitem. destruct (l !! i); congruence. Qed.

Lemma mf_at_insert_eq (h : heap) (m : nat) (f : MF) :
  (m < length (mfs h))%nat ->
  mf_at (mkHeap (points h) (<[m := f]> (mfs h))) m = f.
Proof.
  intros Hm. unfold mf_at. simpl. now rewrite list_lookup_insert_eq.
Qed.

Lemma mf_at_insert_ne (h : heap) (m m' : nat) (f : MF) :
  m <> m' -> mf_at (mkHeap (points h) (<[m := f]> (mfs h))) m' = mf_at h m'.
Proof.
  intros Hm. unfold mf_at. simpl. now rewrite list_lookup_insert_ne.
Qed.

Lemma merge_self (h : heap) (m : nat) :
  let h1 := set_low h m (mid (mf_at h m)) in
  set_high h1 m (mid (mf_at h1 m)) = collapse h m.
Proof.
  cbv zeta. unfold set_high, set_low, collapse.
  destruct (le_lt_dec (length (mfs h)) m) as [Hge | Hlt].
  - assert (E : forall f, <[m := f]> (mfs h) = mfs h)
      by (intros f; now apply list_insert_ge).
    now rewrite !E.
  - rewrite mf_at_insert_eq by assumption. simpl.
    now rewrite list_insert_insert_eq.
Qed.

Lemma collapse_points (h : heap) (m : nat) : points (collapse h m) = points h.
Proof. reflexivity. Qed.

Lemma collapse_mf_at_ne (h : heap) (m m' : nat) :
  m <> m' -> mf_at (collapse h m) m' = mf_at h m'.
Proof. intros Hm. unfold collapse. now apply mf_at_insert_ne. Qed.

Lemma collapse_mid (h : heap) (m m' : nat) :
  mid (mf_at (collapse h m) m') = mid (mf_at h m').
Proof.
  destruct (decide (m = m')) as [<- | Hne];
    [| now rewrite collapse_mf_at_ne].
  unfold collapse.
  destruct (le_lt_dec (length (mfs h)) m) as [Hge | Hlt].
  - rewrite list_insert_ge by assumption. now destruct h.
  - now rewrite mf_at_insert_eq.
Qed.

Lemma collapse_mid_x (h : heap) (m m' : nat) :
  mid_x (collapse h m) m' = mid_x h m'.
Proof. unfold mid_x, Point_x. now rewrite collapse_mid, collapse_points. Qed.

Lemma collapse_high_x_ne (h : heap) (m m' : nat) :
  m <> m' -> high_x (collapse h m) m' = high_x h m'.
Proof.
  intros Hm. unfold high_x, Point_x.
  now rewrite collapse_mf_at_ne, collapse_points.
Qed.

Lemma collapse_idem (h : heap) (m : nat) : collapse (collapse h m) m = collapse h m.
Proof.
  unfold collapse at 1. rewrite collapse_mid. unfold collapse. simpl.
  now rewrite list_insert_insert_eq.
Qed.

Lemma collapse_settled (h : heap) (m m' : nat) :
  collapse h m' = h -> collapse (collapse h m) m' = collapse h m.
Proof.
  intros Hs. destruct (decide (m = m')) as [<- | Hne];
    [apply collapse_idem |].
  unfold collapse at 1. rewrite collapse_mid. unfold collapse in *. simpl.
  rewrite list_insert_insert_ne by congruence.
  destruct h as [ps ms]. simpl in *. injection Hs as Hs. now rewrite Hs.
Qed.

Lemma has_right_collapse_ne (h : heap) (rules : ruleset) (feature m m' : nat) :
  m <> m' ->
  has_right (collapse h m) rules feature m' = has_right h rules feature m'.
Proof.
  intros Hm. unfold has_right.
  induction (keys rules) as [| other others IH]; simpl; [reflexivity |].
  rewrite IH. f_equal.
  unfold to_the_right. destruct (other !! feature); [| reflexivity].
  now rewrite collapse_mid_x, collapse_high_x_ne.
Qed.

Lemma nearest_scan (h : heap) (rule : list nat) (feature m : nat)
    (others : list (list nat)) :
  rule !! feature = Some m ->
  Forall (fun o => is_Some (o !! feature)) others ->
  forall neighbour dist,
    scanned m neighbour dist ->
    exists neighbour' dist',
      nearest h rule feature others neighbour dist = Ok (neighbour', dist') /\
      scanned m neighbour' dist' /\
      (is_Some neighbour' <->
         is_Some neighbour \/ existsb (to_the_right h feature m) others = true).
Proof.
  intros Hm Hall. induction Hall as [| o others [om Ho] _ IH];
    intros neighbour dist Hsc; simpl.
  - eexists _, _. split; [reflexivity |]. split; [assumption |]. intuition congruence.
  - rewrite (getitem_Some _ _ _ Hm), (getitem_Some _ _ _ Ho). simpl.
    assert (Hr : to_the_right h feature m o = Qltb (high_x h m) (mid_x h om))
      by (unfold to_the_right; now rewrite Ho).
    rewrite Hr. clear Hr.
    destruct (Qltb (high_x h m) (mid_x h om)) eqn:Hlt; simpl.
    + destruct (lt_dist (mid_x h om - high_x h m) dist) eqn:Hd.
      * destruct (IH (Some m) (Finite (mid_x h om - high_x h m)))
          as (n' & d' & Hn & Hsc' & Hiff).
        { split; [reflexivity |]. eexists. split; [reflexivity |].
          apply Qltb_lt in Hlt. lra. }
        exists n', d'. split; [assumption |]. split; [assumption |].
        split; [auto |]. intros _. apply Hiff. left. eauto.
      * destruct (IH neighbour dist Hsc) as (n' & d' & Hn & Hsc' & Hiff).
        exists n', d'. split; [assumption |]. split; [assumption |].
        assert (Hsome : is_Some neighbour).
        { destruct neighbour; [eauto |]. simpl in Hsc. subst dist. discriminate Hd. }
        split; [auto |]. intros _. apply Hiff. now left.
    + destruct (IH neighbour dist Hsc) as (n' & d' & Hn & Hsc' & Hiff).
      exists n', d'. split; [assumption |]. split; [assumption |]. exact Hiff.
Qed.

Lemma repair_rule_merge (h : heap) (rules : ruleset) (feature m : nat)
    (rule : list nat) :
  rule !! feature = Some m ->
  Forall (fun o => is_Some (o !! feature)) (keys rules) ->
  repair_rule h rules feature rule = Ok (merge h rules feature m).
Proof.
  intros Hm Hall. unfold repair_rule, merge, has_right.
  destruct (nearest_scan h rule feature m (keys rules) Hm Hall None Infinity)
    as (n' & d' & Hn & Hsc & Hiff); [reflexivity |].
  rewrite Hn. simpl.
  destruct n' as [n |]; simpl in Hsc.
  - destruct Hsc as [-> (d & -> & Hd)]. simpl.
    assert (Hz : Qeq_bool d 0 = false).
    { apply not_true_iff_false. rewrite Qeq_bool_iff. lra. }
    rewrite Hz. simpl. rewrite (getitem_Some _ _ _ Hm). simpl.
    rewrite merge_self.
    destruct (existsb (to_the_right h feature m) (keys rules)) eqn:He;
      [reflexivity |].
    destruct Hiff as [Hiff _]. destruct Hiff as [[? Hx] | Hx]; eauto; discriminate Hx.
  - destruct (existsb (to_the_right h feature m) (keys rules)) eqn:He;
      [| reflexivity].
    destruct Hiff as [_ Hiff]. destruct Hiff as [? Hx]; [now right | discriminate Hx].
Qed.

Lemma merge_again (h : heap) (rules : ruleset) (feature m : nat) :
  merge (merge h rules feature m) rules feature m = merge h rules feature m.
Proof.
  unfold merge. destruct (has_right h rules feature m) eqn:E.
  - destruct (has_right (collapse h m) rules feature m);
      [apply collapse_idem | reflexivity].
  - now rewrite E.
Qed.

Lemma merge_keeps_fixed (h : heap) (rules : ruleset) (feature m feature' m' : nat) :
  merge h rules feature' m' = h ->
  merge (merge h rules feature m) rules feature' m' = merge h rules feature m.
Proof.
  intros Hs. unfold merge in *.
  destruct (has_right h rules feature m) eqn:E; [| exact Hs].
  destruct (decide (m = m')) as [<- | Hne].
  - destruct (has_right (collapse h m) rules feature' m);
      [apply collapse_idem | reflexivity].
  - rewrite has_right_collapse_ne by assumption.
    destruct (has_right h rules feature' m');
      [now apply collapse_settled | reflexivity].
Qed.

Lemma run_merges_fixed (rules : ruleset) (vs : list (nat * nat)) (h : heap) :
  Forall (fun v => merge h rules v.1 v.2 = h) vs -> run_merges h rules vs = h.
Proof.
  unfold run_merges. induction 1 as [| v vs Hv _ IH]; simpl; [reflexivity |].
  now rewrite Hv.
Qed.

Lemma run_merges_settles (rules : ruleset) (vs : list (nat * nat)) :
  forall (h : heap) (seen : list (nat * nat)),
    Forall (fun v => merge h rules v.1 v.2 = h) seen ->
    Forall (fun v => merge (run_merges h rules vs) rules v.1 v.2
                     = run_merges h rules vs) (seen ++ vs).
Proof.
  induction vs as [| v vs IH]; intros h seen Hseen.
  - now rewrite app_nil_r.
  - change (run_merges h rules (v :: vs))
      with (run_merges (merge h rules v.1 v.2) rules vs).
    replace (seen ++ v :: vs) with ((seen ++ [v]) ++ vs)
      by now rewrite <- app_assoc.
    apply IH. apply Forall_app. split.
    + eapply Forall_impl; [exact Hseen |]. intros w Hw.
      now apply merge_keeps_fixed.
    + constructor; [apply merge_again | constructor].
Qed.

Lemma run_merges_idempotent (rules : ruleset) (vs : list (nat * nat)) (h : heap) :
  run_merges (run_merges h rules vs) rules vs = run_merges h rules vs.
Proof.
  apply run_merges_fixed.
  apply (run_merges_settles rules vs h []). constructor.
Qed.

Lemma run_merges_app (rules : ruleset) (vs ws : list (nat * nat)) (h : heap) :
  run_merges h rules (vs ++ ws) = run_merges (run_merges h rules vs) rules ws.
Proof. unfold run_merges. apply fold_left_app. Qed.

Lemma repair_rules_run (h : heap) (rules : ruleset) (feature : nat)
    (todo : list (list nat)) :
  Forall (fun o => is_Some (o !! feature)) (keys rules) ->
  Forall (fun o => is_Some (o !! feature)) todo ->
  repair_rules h rules feature todo
  = Ok (run_merges h rules
          (map (fun rule => (feature, default O (rule !! feature))) todo)).
Proof.
  intros Hkeys Htodo. revert h.
  induction Htodo as [| rule todo [m Hm] _ IH]; intros h; simpl;
    [reflexivity |].
  rewrite (repair_rule_merge h rules feature m rule Hm Hkeys). simpl.
  rewrite IH, Hm. reflexivity.
Qed.

Lemma repair_features_run (rules : ruleset) (features : list nat) :
  Forall (fun feature => Forall (fun o => is_Some (o !! feature)) (keys rules))
         features ->
  forall h, repair_features h rules features
            = Ok (run_merges h rules (visits rules features)).
Proof.
  induction 1 as [| feature features Hf _ IH]; intros h; simpl;
    [reflexivity |].
  rewrite (repair_rules_run h rules feature (keys rules) Hf Hf). simpl.
  rewrite IH. unfold visits. simpl. now rewrite run_merges_app.
Qed.

Lemma nearest_Ok_inv (h : heap) (rule : list nat) (feature : nat)
    (others : list (list nat)) :
  forall neighbour dist r,
    nearest h rule feature others neighbour dist = Ok r ->
    Forall (fun o => is_Some (o !! feature)) others /\
    (others <> [] -> is_Some (rule !! feature)).
Proof.
  induction others as [| o others IH]; intros neighbour dist r Hr.
  - split; [constructor | congruence].
  - simpl in Hr.
    destruct (rule !! feature) as [m |] eqn:Hm;
      [rewrite (getitem_Some _ _ _ Hm) in Hr
      | unfold getitem in Hr; rewrite Hm in Hr; discriminate Hr].
    destruct (o !! feature) as [om |] eqn:Ho;
      [rewrite (getitem_Some _ _ _ Ho) in Hr
      | unfold getitem in Hr; rewrite Ho in Hr; discriminate Hr].
    simpl in Hr.
    destruct (Qltb (high_x h m) (mid_x h om)
              && lt_dist (mid_x h om - high_x h m) dist);
      apply IH in Hr; destruct Hr as [Hall _]; split; eauto.
Qed.

Lemma repair_rule_Ok_inv (h h1 : heap) (rules : ruleset) (feature : nat)
    (rule : list nat) :
  repair_rule h rules feature rule = Ok h1 ->
  Forall (fun o => is_Some (o !! feature)) (keys rules).
Proof.
  unfold repair_rule. intros Hr.
  destruct (nearest h rule feature (keys rules) None Infinity) as [r |] eqn:Hn;
    [| discriminate Hr].
  now apply nearest_Ok_inv in Hn.
Qed.

Lemma repair_rules_Ok_inv (h h1 : heap) (rules : ruleset) (feature : nat)
    (todo : list (list nat)) :
  todo <> [] ->
  repair_rules h rules feature todo = Ok h1 ->
  Forall (fun o => is_Some (o !! feature)) (keys rules).
Proof.
  destruct todo as [| rule todo]; [congruence |]. intros _ Hr. simpl in Hr.
  destruct (repair_rule h rules feature rule) as [h2 |] eqn:H2;
    [| discriminate Hr].
  now apply repair_rule_Ok_inv in H2.
Qed.

Lemma repair_features_Ok_inv (rules : ruleset) (features : list nat) :
  keys rules <> [] ->
  forall h h1,
    repair_features h rules features = Ok h1 ->
    Forall (fun feature => Forall (fun o => is_Some (o !! feature)) (keys rules))
           features.
Proof.
  intros Hne. induction features as [| feature features IH]; intros h h1 Hr;
    [constructor |].
  simpl in Hr.
  destruct (repair_rules h rules feature (keys rules)) as [h2 |] eqn:H2;
    [| discriminate Hr].
  simpl in Hr. constructor; [| now apply (IH h2 h1)].
  now apply repair_rules_Ok_inv in H2.
Qed.

Lemma repair_features_no_rule (rules : ruleset) (features : list nat) (h : heap) :
  keys rules = [] -> repair_features h rules features = Ok h.
Proof.
  intros Hk. induction features as [| feature features IH]; simpl;
    [reflexivity |].
  rewrite Hk. simpl. exact IH.
Qed.

Lemma long_rules_indexable (rules : ruleset) (nb_of_features : nat) :
  Forall (fun rule => (nb_of_features <= length rule)%nat) (keys rules) ->
  Forall (fun feature => Forall (fun o => is_Some (o !! feature)) (keys rules))
         (seq 0 nb_of_features).
Proof.
  intros Hlen. apply Forall_forall. intros feature Hin.
  apply elem_of_seq in Hin.
  eapply Forall_impl; [exact Hlen |]. intros rule Hrule.
  apply lookup_lt_is_Some. simpl in *. lia.
Qed.

(** C8.  [repair] is idempotent.  It returns on every rule set whose
    tuples have an entry for each of the [nb_of_features] features, and
    whenever a call returns the store [h1], a second call on [h1] returns
    [h1] again: the rules (keys and classes) are not touched by [repair],
    and every vertex reference of every fuzzy set is the same after the
    second call as after the first. *)
Theorem repair_idempotent (h : heap) (rules : ruleset) (nb_of_features : nat) :
  (Forall (fun rule => (nb_of_features <= length rule)%nat) (keys rules) ->
   exists h1, repair h rules nb_of_features = Ok h1) /\
  (forall h1, repair h rules nb_of_features = Ok h1 ->
              repair h1 rules nb_of_features = Ok h1).
Proof.
  unfold repair. split.
  - intros Hlen. eexists.
    apply repair_features_run. now apply long_rules_indexable.
  - intros h1 Hr.
    destruct (keys rules) as [| rule todo] eqn:Hk.
    + rewrite repair_features_no_rule in Hr by assumption.
      injection Hr as <-. now apply repair_features_no_rule.
    + assert (Hall := Hr). apply repair_features_Ok_inv in Hall;
        [| rewrite Hk; discriminate].
      rewrite repair_features_run in Hr by assumption. injection Hr as <-.
      rewrite repair_features_run by assumption.
      now rewrite run_merges_idempotent.
Qed.

Lemma repair_idempotent_witness :
  Forall (fun rule => (1 <= length rule)%nat)
         (keys [([0%nat], 0%Z); ([2%nat], 1%Z); ([3%nat], 1%Z)]) /\
  exists h1,
    repair (mkHeap [0; 1; 2; 3; 4; 5; 6]
                   [mkMF 0 1 2; mkMF 1 2 3; mkMF 2 3 4; mkMF 3 4 5; mkMF 4 5 6])
           [([0%nat], 0%Z); ([2%nat], 1%Z); ([3%nat], 1%Z)] 1 = Ok h1 /\
    repair h1 [([0%nat], 0%Z); ([2%nat], 1%Z); ([3%nat], 1%Z)] 1 = Ok h1.
Proof.
  assert (Hlen : Forall (fun rule => (1 <= length rule)%nat)
            (keys [([0%nat], 0%Z); ([2%nat], 1%Z); ([3%nat], 1%Z)]))
    by (repeat constructor).
  split; [exact Hlen |].
  destruct (repair_idempotent
              (mkHeap [0; 1; 2; 3; 4; 5; 6]
                 [mkMF 0 1 2; mkMF 1 2 3; mkMF 2 3 4; mkMF 3 4 5; mkMF 4 5 6])
              [([0%nat], 0%Z); ([2%nat], 1%Z); ([3%nat], 1%Z)] 1)
    as [Hex Hid].
  destruct (Hex Hlen) as [h1 H1].
  exists h1. split; [exact H1 | exact (Hid h1 H1)].
Defined.

(** ** Activation *)

Section Activation.

Variable fuzzyfy : heap -> nat -> Q -> Q.

Lemma activate_sum (h : heap) (len_mfs : nat) (row : list Q) (rest : list nat) :
  forall (feat : nat) (act : Q),
    (feat + length rest <= length row)%nat ->
    exists a,
      activate fuzzyfy h len_mfs row feat rest act = Ok a /\
      a == act + Qsum (zip_with (fuzzyfy h) rest (drop feat row))
                 / inject_Z (Z.of_nat len_mfs).
Proof.
  induction rest as [| m rest IH]; intros feat act Hlen; simpl.
  - exists act. split; [reflexivity |]. unfold Qdiv, Qsum. simpl.
    generalize (/ inject_Z (Z.of_nat len_mfs)). intros q. ring.
  - simpl in Hlen.
    destruct (lookup_lt_is_Some_2 row feat) as [v Hv]; [lia |].
    rewrite (getitem_Some _ _ _ Hv). simpl.
    destruct (IH (S feat) (act + fuzzyfy h m v / inject_Z (Z.of_nat len_mfs)))
      as (a & Ha & Hsum); [lia |].
    exists a. split; [exact Ha |].
    rewrite (drop_S _ _ _ Hv). simpl. rewrite Hsum. unfold Qdiv.
    generalize (/ inject_Z (Z.of_nat len_mfs)). intros q. ring.
Qed.

Lemma activation_mean (h : heap) (mfs : list nat) (row : list Q) :
  (length mfs <= length row)%nat ->
  exists a, activation fuzzyfy h mfs row = Ok a /\
            a == mean_degree fuzzyfy h mfs row.
Proof.
  intros Hlen. unfold activation, mean_degree.
  destruct (activate_sum h (length mfs) row mfs 0 0) as (a & Ha & Hsum);
    [simpl; lia |].
  exists a. split; [exact Ha |]. rewrite Hsum. rewrite drop_0. unfold Qdiv.
  generalize (/ inject_Z (Z.of_nat (length mfs))). intros q. ring.
Qed.

Lemma activate_nonneg (h : heap) (len_mfs : nat) (row : list Q) (rest : list nat) :
  (forall m v, 0 <= fuzzyfy h m v) ->
  forall (feat : nat) (act a : Q),
    0 <= act ->
    activate fuzzyfy h len_mfs row feat rest act = Ok a -> 0 <= a.
Proof.
  intros Hpos. induction rest as [| m rest IH]; intros feat act a Hact Ha;
    simpl in Ha.
  - injection Ha as <-. exact Hact.
  - destruct (getitem row feat) as [v |]; [| discriminate Ha]. simpl in Ha.
    apply IH in Ha; [exact Ha |].
    assert (Hd : 0 <= fuzzyfy h m v / inject_Z (Z.of_nat len_mfs)).
    { unfold Qdiv. apply Qmult_le_0_compat; [apply Hpos |].
      apply Qinv_le_0_compat. change 0 with (inject_Z 0).
      rewrite <- Zle_Qle. lia. }
    lra.
Qed.

Lemma activation_nonneg (h : heap) (mfs : list nat) (row : list Q) (a : Q) :
  (forall m v, 0 <= fuzzyfy h m v) ->
  activation fuzzyfy h mfs row = Ok a -> 0 <= a.
Proof.
  intros Hpos. unfold activation. apply activate_nonneg; [exact Hpos | lra].
Qed.

(** ** Evaluation *)

Lemma max_class_loop_below (h : heap) (row : list Q) (after : ruleset)
    (a : Q) (c : Z) :
  Forall (activation_is fuzzyfy h row Qlt a) after ->
  max_class_loop fuzzyfy h row after a c = Ok c.
Proof.
  induction 1 as [| [mfs' c'] after (a' & Ha' & Hlt) _ IH]; simpl;
    [reflexivity |].
  simpl in Ha'. rewrite Ha'. simpl.
  assert (Hb : Qle_bool a a' = false).
  { apply not_true_iff_false. rewrite Qle_bool_iff. lra. }
  now rewrite Hb.
Qed.

Lemma max_class_loop_last_max (h : heap) (row : list Q)
    (before after : ruleset) (mfs : list nat) (c : Z) (a : Q) :
  activation fuzzyfy h mfs row = Ok a ->
  Forall (activation_is fuzzyfy h row Qle a) before ->
  Forall (activation_is fuzzyfy h row Qlt a) after ->
  forall max_act max_class,
    max_act <= a ->
    max_class_loop fuzzyfy h row (before ++ (mfs, c) :: after) max_act max_class
    = Ok c.
Proof.
  intros Ha Hbefore Hafter.
  induction Hbefore as [| [mfs' c'] before (a' & Ha' & Hle) _ IH];
    intros max_act max_class Hmax; simpl.
  - rewrite Ha. simpl.
    assert (Hb : Qle_bool max_act a = true) by now apply Qle_bool_iff.
    rewrite Hb. now apply max_class_loop_below.
  - simpl in Ha'. rewrite Ha'. simpl.
    destruct (Qle_bool max_act a'); now apply IH.
Qed.

Lemma max_class_loop_member (h : heap) (row : list Q) (items : ruleset) :
  Forall (fun item => (length item.1 <= length row)%nat) items ->
  forall max_act max_class,
  exists c,
    max_class_loop fuzzyfy h row items max_act max_class = Ok c /\
    (c = max_class \/ c ∈ values items).
Proof.
  induction 1 as [| [mfs' c'] items Hlen _ IH]; intros max_act max_class;
    simpl.
  - exists max_class. split; [reflexivity | now left].
  - destruct (activation_mean h mfs' row Hlen) as (a' & Ha' & _).
    rewrite Ha'. simpl.
    destruct (Qle_bool max_act a').
    + destruct (IH a' c') as (c & Hc & Hin). exists c. split; [exact Hc |].
      right. destruct Hin as [-> | Hin]; [left | now right].
    + destruct (IH max_act max_class) as (c & Hc & Hin).
      exists c. split; [exact Hc |].
      destruct Hin as [-> | Hin]; [now left | right; now right].
Qed.

End Activation.

Section Evaluation.

Variable fuzzyfy : heap -> nat -> Q -> Q.
Variable move : heap -> nat -> Q -> Q -> bool -> heap.
Variable metrics : Metrics.

Lemma test_of_loop (h : heap) (self : NFS) (data : ndarray)
    (target predicted : list Z) :
  test_loop fuzzyfy h self data = Ok predicted ->
  test fuzzyfy metrics h self data target
  = (_ ← print_scores metrics target predicted; mret predicted).
Proof. intros Hloop. unfold test. now rewrite Hloop. Qed.

Lemma test_Ok_loop (h : heap) (self : NFS) (data : ndarray)
    (target predicted : list Z) :
  test fuzzyfy metrics h self data target = Ok predicted ->
  test_loop fuzzyfy h self data = Ok predicted.
Proof.
  unfold test. intros Htest.
  destruct (test_loop fuzzyfy h self data) as [l |]; [| discriminate Htest].
  simpl in Htest.
  destruct (print_scores metrics target l); [| discriminate Htest].
  simpl in Htest. now injection Htest as <-.
Qed.

Lemma test_loop_Raise (h : heap) (self : NFS) (data : ndarray)
    (target : list Z) (e : exn) :
  test_loop fuzzyfy h self data = Raise e ->
  test fuzzyfy metrics h self data target = Raise e.
Proof. intros Hloop. unfold test. now rewrite Hloop. Qed.

Lemma predictions_lookup (h : heap) (rules : ruleset) (data : ndarray) (n : nat) :
  forall (start : nat) (l : list Z),
    predictions fuzzyfy h rules data (seq start n) = Ok l ->
    forall i row,
      (i < n)%nat -> rows data !! (start + i)%nat = Some row ->
      exists c, predict fuzzyfy h rules row = Ok c /\ l !! i = Some c.
Proof.
  induction n as [| n IH]; intros start l Hl i row Hi Hrow; [lia |].
  simpl in Hl.
  destruct (getitem (rows data) start) as [row0 |] eqn:H0;
    [| discriminate Hl].
  simpl in Hl.
  destruct (predict fuzzyfy h rules row0) as [c0 |] eqn:Hc0;
    [| discriminate Hl].
  simpl in Hl.
  destruct (predictions fuzzyfy h rules data (seq (S start) n)) as [rest |] eqn:Hrest;
    [| discriminate Hl].
  simpl in Hl. injection Hl as <-.
  destruct i as [| i].
  - rewrite Nat.add_0_r in Hrow. apply getitem_Ok in H0.
    assert (row0 = row) as -> by congruence.
    exists c0. split; [exact Hc0 | reflexivity].
  - apply (IH (S start) rest Hrest i row); [lia |].
    now replace (S start + i)%nat with (start + S i)%nat by lia.
Qed.

(** C4.  [test] predicts each observation by the scan with [>=]: on an
    empty rule set the prediction is the sentinel -1; otherwise a rule
    whose activation is at least the activation of every rule before it
    and greater than the activation of every rule after it (the last of
    the rules of maximal activation) gives its class, the degrees of
    membership and hence the activations being nonnegative. *)
Theorem test_last_maximal_rule_wins (h : heap) (row : list Q) :
  predict fuzzyfy h [] row = Ok (-1)%Z /\
  (forall (before after : ruleset) (mfs : list nat) (c : Z) (a : Q),
      activation fuzzyfy h mfs row = Ok a ->
      0 <= a ->
      Forall (activation_is fuzzyfy h row Qle a) before ->
      Forall (activation_is fuzzyfy h row Qlt a) after ->
      predict fuzzyfy h (before ++ (mfs, c) :: after) row = Ok c) /\
  (forall (self : NFS) (rules : ruleset) (data : ndarray) (l : list Z) (obs : nat),
      _rules self = Some rules ->
      rows data !! obs = Some row ->
      test_loop fuzzyfy h self data = Ok l ->
      exists c, predict fuzzyfy h rules row = Ok c /\ l !! obs = Some c) /\
  (forall (self : NFS) (rules : ruleset) (data : ndarray) (target l : list Z)
          (obs : nat),
      _rules self = Some rules ->
      rows data !! obs = Some row ->
      test fuzzyfy metrics h self data target = Ok l ->
      exists c, predict fuzzyfy h rules row = Ok c /\ l !! obs = Some c).
Proof.
  assert (Hloop : forall (self : NFS) (rules : ruleset) (data : ndarray)
                         (l : list Z) (obs : nat),
             _rules self = Some rules ->
             rows data !! obs = Some row ->
             test_loop fuzzyfy h self data = Ok l ->
             exists c, predict fuzzyfy h rules row = Ok c /\ l !! obs = Some c).
  { intros self rules data l obs Hrules Hrow Hl. unfold test_loop in Hl.
    rewrite Hrules in Hl.
    apply (predictions_lookup h rules data (shape0 data) 0 l Hl obs row);
      [| exact Hrow].
    now apply lookup_lt_Some in Hrow. }
  split; [reflexivity |]. split; [| split].
  - intros before after mfs c a Ha Hpos Hbefore Hafter. unfold predict.
    now apply (max_class_loop_last_max fuzzyfy h row before after mfs c a).
  - exact Hloop.
  - intros self rules data target l obs Hrules Hrow Hl.
    apply test_Ok_loop in Hl. now apply (Hloop self rules data l obs).
Qed.

Lemma predict_rule_class (h : heap) (rules : ruleset) (row : list Q) :
  rules <> [] ->
  (forall m v, 0 <= fuzzyfy h m v) ->
  Forall (fun item => (length item.1 <= length row)%nat) rules ->
  exists c,
    predict fuzzyfy h rules row = Ok c /\
    c ∈ values rules /\
    ((forall c', c' ∈ values rules -> c' <> (-1)%Z) -> c <> (-1)%Z) /\
    (Forall (activation_is fuzzyfy h row Qeq 0) rules ->
     last (values rules) = Some c).
Proof.
  intros Hne Hpos Hlen.
  assert (Hin : exists c, predict fuzzyfy h rules row = Ok c /\ c ∈ values rules).
  { destruct rules as [| [mfs1 c1] rest]; [congruence |].
    apply Forall_cons in Hlen. destruct Hlen as [Hlen1 Hrest].
    unfold predict. simpl.
    destruct (activation_mean fuzzyfy h mfs1 row Hlen1) as (a1 & Ha1 & _).
    rewrite Ha1. simpl.
    assert (Hb : Qle_bool 0 a1 = true).
    { apply Qle_bool_iff. now apply (activation_nonneg fuzzyfy h mfs1 row). }
    rewrite Hb.
    destruct (max_class_loop_member fuzzyfy h row rest Hrest a1 c1)
      as (c & Hc & Hin).
    exists c. split; [exact Hc |].
    destruct Hin as [-> | Hin]; [left | now right]. }
  destruct Hin as (c & Hc & Hin). exists c.
  split; [exact Hc |]. split; [exact Hin |]. split; [auto |].
  intros Hzero.
  destruct (exists_last Hne) as (before & [mfs c'] & ->).
  apply Forall_app in Hzero. destruct Hzero as [Hbefore Hlast].
  apply Forall_cons in Hlast. destruct Hlast as [(a & Ha & Ha0) _].
  simpl in Ha.
  assert (Hc' : predict fuzzyfy h (before ++ [(mfs, c')]) row = Ok c').
  { unfold predict.
    apply (max_class_loop_last_max fuzzyfy h row before [] mfs c' a Ha);
      [| constructor | lra].
    eapply Forall_impl; [exact Hbefore |].
    intros item (a' & Ha' & Hz). exists a'. split; [exact Ha' | lra]. }
  rewrite Hc in Hc'. injection Hc' as ->.
  unfold values. rewrite map_app. simpl. apply last_snoc.
Qed.

Lemma predictions_classes (h : heap) (rules : ruleset) (data : ndarray) (n : nat) :
  rules <> [] ->
  (forall m v, 0 <= fuzzyfy h m v) ->
  Forall (fun row => Forall (fun item : list nat * Z =>
                               (length item.1 <= length row)%nat) rules)
         (rows data) ->
  forall start,
    (start + n <= shape0 data)%nat ->
    exists l,
      predictions fuzzyfy h rules data (seq start n) = Ok l /\
      length l = n /\
      Forall (fun c => c ∈ values rules) l /\
      (forall i row,
          (i < n)%nat ->
          rows data !! (start + i)%nat = Some row ->
          Forall (activation_is fuzzyfy h row Qeq 0) rules ->
          l !! i = last (values rules)).
Proof.
  intros Hne Hpos Hrows. induction n as [| n IH]; intros start Hn; simpl.
  - exists []. repeat split; [constructor | intros; lia].
  - destruct (lookup_lt_is_Some_2 (rows data) start) as [row Hrow];
      [unfold shape0 in Hn; lia |].
    rewrite (getitem_Some _ _ _ Hrow). simpl.
    pose proof (proj1 (Forall_lookup _ _) Hrows start row Hrow) as Hlen.
    destruct (predict_rule_class h rules row Hne Hpos Hlen)
      as (c & Hc & Hin & _ & Hzero).
    rewrite Hc. simpl.
    destruct (IH (S start)) as (l & Hl & Hlength & Hall & Hlast); [lia |].
    rewrite Hl. simpl. exists (c :: l). split; [reflexivity |].
    split; [simpl; lia |]. split; [now constructor |].
    intros [| i] row' Hi Hrow' Hzero'.
    + rewrite Nat.add_0_r in Hrow'.
      assert (row' = row) as -> by congruence.
      simpl. symmetry. now apply Hzero.
    + simpl. apply (Hlast i row'); [lia | | exact Hzero'].
      now replace (S start + i)%nat with (start + S i)%nat by lia.
Qed.

Lemma most_activated_none (h : heap) (row : list Q) (items : ruleset) :
  Forall (activation_is fuzzyfy h row Qeq 0) items ->
  most_activated fuzzyfy h row items None 0 = Ok None.
Proof.
  induction 1 as [| [mfs' c'] items (a' & Ha' & Hz) _ IH]; simpl;
    [reflexivity |].
  simpl in Ha'. rewrite Ha'. simpl.
  assert (Hb : Qltb 0 a' = false) by (apply Qltb_ge; lra).
  now rewrite Hb.
Qed.

(** C10.  On a rule set that is not empty, with degrees of membership that
    are not negative and observations that have a value for every fuzzy
    set of every rule, the loop of [test] raises nothing and builds one
    prediction per observation, which [test] passes with [target] to the
    scores (it raises only if a score raises).  Each prediction is the
    class of a rule of the rule set, the initial -1 of [max_class] being
    always overwritten: a prediction is -1 only if a rule has the class
    -1.  When every activation is zero the prediction is the class of the
    last rule, since the scan accepts [act >= max_act] from
    [max_act = 0], whereas a training step selects no rule on such an
    observation and leaves the store as it is. *)
Theorem test_predicts_rule_classes (h : heap) (self : NFS) (rules : ruleset)
    (data : ndarray) (target : list Z) :
  _rules self = Some rules ->
  rules <> [] ->
  (forall m v, 0 <= fuzzyfy h m v) ->
  Forall (fun row => Forall (fun item : list nat * Z =>
                               (length item.1 <= length row)%nat) rules)
         (rows data) ->
  exists predicted,
    test_loop fuzzyfy h self data = Ok predicted /\
    test fuzzyfy metrics h self data target
    = (_ ← print_scores metrics target predicted; mret predicted) /\
    length predicted = shape0 data /\
    Forall (fun c => c ∈ values rules) predicted /\
    ((forall c', c' ∈ values rules -> c' <> (-1)%Z) ->
     Forall (fun c => c <> (-1)%Z) predicted) /\
    (forall obs row,
        rows data !! obs = Some row ->
        Forall (activation_is fuzzyfy h row Qeq 0) rules ->
        predicted !! obs = last (values rules) /\
        forall learning_rate,
          train_observation fuzzyfy move h rules data target learning_rate obs
          = Ok h).
Proof.
  intros Hrules Hne Hpos Hrows.
  destruct (predictions_classes h rules data (shape0 data) Hne Hpos Hrows 0)
    as (l & Hl & Hlength & Hall & Hlast); [lia |].
  assert (Hloop : test_loop fuzzyfy h self data = Ok l).
  { unfold test_loop. now rewrite Hrules. }
  exists l. split; [exact Hloop |].
  split; [now apply test_of_loop |].
  split; [exact Hlength |]. split; [exact Hall |]. split.
  - intros Hsent. eapply Forall_impl; [exact Hall |].
    intros c Hc. now apply Hsent.
  - intros obs row Hrow Hzero. split.
    + apply (Hlast obs row); [| exact Hrow | exact Hzero].
      now apply lookup_lt_Some in Hrow.
    + intros learning_rate. unfold train_observation.
      rewrite (getitem_Some _ _ _ Hrow). simpl.
      now rewrite (most_activated_none h row rules Hzero).
Qed.

End Evaluation.

Lemma print_scores_checked (target predicted : list Z) :
  print_scores checked_metrics target predicted
  = if decide (length target = length predicted /\ target <> [])
    then Ok tt else Raise ValueError.
Proof.
  unfold print_scores, checked_metrics, checked_confusion_matrix,
    checked_accuracy, check_arrays. simpl.
  destruct (decide (length target = length predicted /\ target <> []));
    reflexivity.
Qed.

Lemma tri_fuzzyfy_nonneg (h : heap) (m : nat) (v : Q) : 0 <= tri_fuzzyfy h m v.
Proof.
  unfold tri_fuzzyfy.
  destruct (Qltb v (low_x h m)) eqn:Hl; simpl; [lra |].
  destruct (Qltb (high_x h m) v) eqn:Hr; simpl; [lra |].
  destruct (Qeq_bool v (mid_x h m)) eqn:Hc; [lra |].
  apply Qltb_ge in Hl, Hr.
  assert (Hne : ~ v == mid_x h m).
  { intros He. apply Qeq_bool_iff in He. congruence. }
  destruct (Qltb v (mid_x h m)) eqn:Hlt.
  - apply Qltb_lt in Hlt. apply Qle_shift_div_l; lra.
  - apply Qltb_ge in Hlt. apply Qle_shift_div_l; [| lra].
    destruct (Qlt_le_dec (mid_x h m) v) as [Hgt | Hle]; [lra |].
    exfalso. apply Hne. now apply Qle_antisym.
Qed.

Lemma test_last_maximal_rule_wins_witness :
  predict tri_fuzzyfy unit_heap
          ([([0%nat], 0%Z)] ++ ([1%nat], 1%Z) :: [([4%nat], 2%Z)]) [3 # 2]
  = Ok 1%Z /\
  exists c, predict tri_fuzzyfy unit_heap [([0%nat], 0%Z); ([1%nat], 1%Z)] [3 # 2]
            = Ok c /\ [1%Z] !! 0%nat = Some c.
Proof.
  destruct (test_last_maximal_rule_wins tri_fuzzyfy checked_metrics
              unit_heap [3 # 2])
    as (_ & Hlast & _ & Htest).
  split.
  - eapply Hlast.
    + vm_compute. reflexivity.
    + discriminate.
    + repeat constructor. eexists. split; [vm_compute; reflexivity | discriminate].
    + repeat constructor. eexists. split; [vm_compute; reflexivity | reflexivity].
  - apply (Htest (mkNFS 1 10 5 (Some [([0%nat], 0%Z); ([1%nat], 1%Z)]))
                 [([0%nat], 0%Z); ([1%nat], 1%Z)] (mkArray 1 [[3 # 2]]) [1%Z]
                 [1%Z] 0%nat);
      [reflexivity | reflexivity | vm_compute; reflexivity].
Defined.

Lemma test_predicts_rule_classes_witness :
  exists predicted,
    test tri_fuzzyfy checked_metrics unit_heap
         (mkNFS 1 10 5 (Some [([0%nat], 0%Z); ([1%nat], 1%Z)]))
         (mkArray 1 [[3 # 2]; [6]]) [0%Z; 1%Z]
    = Ok predicted /\
    length predicted = 2%nat /\
    Forall (fun c => c ∈ values [([0%nat], 0%Z); ([1%nat], 1%Z)]) predicted /\
    Forall (fun c => c <> (-1)%Z) predicted /\
    predicted !! 1%nat = last (values [([0%nat], 0%Z); ([1%nat], 1%Z)]) /\
    train_observation tri_fuzzyfy shift_move unit_heap
                      [([0%nat], 0%Z); ([1%nat], 1%Z)]
                      (mkArray 1 [[3 # 2]; [6]]) [0%Z; 1%Z] (1 # 10) 1
    = Ok unit_heap.
Proof.
  assert (Hne : [([0%nat], 0%Z); ([1%nat], 1%Z)] <> ([] : ruleset))
    by discriminate.
  destruct (test_predicts_rule_classes tri_fuzzyfy shift_move checked_metrics
              unit_heap
              (mkNFS 1 10 5 (Some [([0%nat], 0%Z); ([1%nat], 1%Z)]))
              [([0%nat], 0%Z); ([1%nat], 1%Z)]
              (mkArray 1 [[3 # 2]; [6]]) [0%Z; 1%Z] eq_refl Hne
              (tri_fuzzyfy_nonneg unit_heap))
    as (l & Hloop & Htest & Hlength & Hall & Hsent & Hzero).
  { repeat constructor. }
  destruct (Hzero 1%nat [6]) as [Hlast Hskip]; [reflexivity | |].
  { repeat constructor;
      (eexists; split; [vm_compute; reflexivity | reflexivity]). }
  exists l. split; [| split; [exact Hlength |]].
  - rewrite Htest, print_scores_checked, decide_True; [reflexivity |].
    rewrite Hlength. split; [reflexivity | discriminate].
  - split; [exact Hall |]. split; [| split; [exact Hlast | apply Hskip]].
    apply Hsent. intros c' Hc'.
    apply list_elem_of_In in Hc'. simpl in Hc'.
    destruct Hc' as [<- | [<- | []]]; discriminate.
Defined.

(** C10 as worded fails: with the single rule of the fuzzy set 0 and the
    class -1, the observation 1 activates the rule fully and [test]
    predicts -1, although there is a rule and no degree is negative. *)
Lemma rule_of_class_minus_one_is_predicted :
  test tri_fuzzyfy checked_metrics unit_heap
       (mkNFS 1 10 5 (Some [([0%nat], (-1)%Z)])) (mkArray 1 [[1]]) [(-1)%Z]
  = Ok [(-1)%Z] /\
  ~ never_the_sentinel tri_fuzzyfy checked_metrics.
Proof.
  assert (Htest : test tri_fuzzyfy checked_metrics unit_heap
                       (mkNFS 1 10 5 (Some [([0%nat], (-1)%Z)]))
                       (mkArray 1 [[1]]) [(-1)%Z]
                  = Ok [(-1)%Z])
    by (vm_compute; reflexivity).
  split; [exact Htest |].
  intros Hclaim.
  assert (Hne : [([0%nat], (-1)%Z)] <> ([] : ruleset)) by discriminate.
  pose proof (Hclaim unit_heap (mkNFS 1 10 5 (Some [([0%nat], (-1)%Z)]))
                     [([0%nat], (-1)%Z)] (mkArray 1 [[1]]) [(-1)%Z] [(-1)%Z]
                     eq_refl Hne (tri_fuzzyfy_nonneg unit_heap) Htest) as Hall.
  apply Forall_cons in Hall. destruct Hall as [[_ Hsent] _].
  now apply Hsent.
Qed.

(** ** Competitive training *)

Section Training.

Variable fuzzyfy : heap -> nat -> Q -> Q.
Variable move : heap -> nat -> Q -> Q -> bool -> heap.
Variable shuffle : ndarray -> list Z -> result (ndarray * list Z).

Lemma most_activated_above (h : heap) (row : list Q) (after : ruleset)
    (max_rule : option (list nat * Z)) (a : Q) :
  Forall (activation_is fuzzyfy h row Qle a) after ->
  most_activated fuzzyfy h row after max_rule a = Ok max_rule.
Proof.
  induction 1 as [| [mfs' c'] after (a' & Ha' & Hle) _ IH]; simpl;
    [reflexivity |].
  simpl in Ha'. rewrite Ha'. simpl.
  assert (Hb : Qltb a a' = false) by now apply Qltb_ge.
  now rewrite Hb.
Qed.

Lemma most_activated_first_max (h : heap) (row : list Q)
    (before after : ruleset) (mfs : list nat) (c : Z) (a : Q) :
  activation fuzzyfy h mfs row = Ok a ->
  Forall (activation_is fuzzyfy h row Qlt a) before ->
  Forall (activation_is fuzzyfy h row Qle a) after ->
  forall max_rule max_act,
    max_act < a ->
    most_activated fuzzyfy h row (before ++ (mfs, c) :: after) max_rule max_act
    = Ok (Some (mfs, c)).
Proof.
  intros Ha Hbefore Hafter.
  induction Hbefore as [| [mfs' c'] before (a' & Ha' & Hlt) _ IH];
    intros max_rule max_act Hmax; simpl.
  - rewrite Ha. simpl.
    assert (Hb : Qltb max_act a = true) by now apply Qltb_lt.
    rewrite Hb. now apply most_activated_above.
  - simpl in Ha'. rewrite Ha'. simpl.
    destruct (Qltb max_act a'); now apply IH.
Qed.

(** C5.  In a training step the activation of a rule is the unweighted
    mean of the degrees of its fuzzy sets; the scan with [act > max_act]
    from [max_act = 0] selects a rule of positive activation that is
    greater than every activation before it and at least every
    activation after it (the first of the rules of maximal activation),
    and the fuzzy sets of that rule are the ones moved; when no rule has
    a positive activation no rule is selected and the store is left as
    it is. *)
Theorem training_first_maximal_rule_wins (h : heap) (data : ndarray)
    (target : list Z) (learning_rate : Q) (obs : nat) (row : list Q) :
  rows data !! obs = Some row ->
  (forall mfs,
      (length mfs <= length row)%nat ->
      exists a, activation fuzzyfy h mfs row = Ok a /\
                a == mean_degree fuzzyfy h mfs row) /\
  (forall (before after : ruleset) (mfs : list nat) (c : Z) (a : Q),
      activation fuzzyfy h mfs row = Ok a ->
      0 < a ->
      Forall (activation_is fuzzyfy h row Qlt a) before ->
      Forall (activation_is fuzzyfy h row Qle a) after ->
      most_activated fuzzyfy h row (before ++ (mfs, c) :: after) None 0
      = Ok (Some (mfs, c)) /\
      train_observation fuzzyfy move h (before ++ (mfs, c) :: after) data
                        target learning_rate obs
      = adjust move h c row target obs learning_rate 0 mfs) /\
  (forall rules : ruleset,
      Forall (activation_is fuzzyfy h row Qle 0) rules ->
      most_activated fuzzyfy h row rules None 0 = Ok None /\
      train_observation fuzzyfy move h rules data target learning_rate obs
      = Ok h).
Proof.
  intros Hrow. split; [intros mfs; apply activation_mean |]. split.
  - intros before after mfs c a Ha Hpos Hbefore Hafter.
    assert (Hsel : most_activated fuzzyfy h row (before ++ (mfs, c) :: after)
                     None 0 = Ok (Some (mfs, c)))
      by now apply (most_activated_first_max h row before after mfs c a).
    split; [exact Hsel |].
    unfold train_observation. rewrite (getitem_Some _ _ _ Hrow). simpl.
    now rewrite Hsel.
  - intros rules Hnone.
    assert (Hsel : most_activated fuzzyfy h row rules None 0 = Ok None)
      by now apply most_activated_above.
    split; [exact Hsel |].
    unfold train_observation. rewrite (getitem_Some _ _ _ Hrow). simpl.
    now rewrite Hsel.
Qed.

(** C7.  With [nb_iter = 0] the training loop returns the store it is
    given, and [train] returns the store and the rules that the repair
    left: the same keys with the same classes, every fuzzy set on the
    same vertices and every vertex at the same position. *)
Theorem no_pass_keeps_repaired_rules (self : NFS) (data : ndarray)
    (target : list Z) (learning_rate : Q) :
  (forall h rules data1 target1,
      training fuzzyfy move h rules data1 target1 0 learning_rate = Ok h) /\
  train fuzzyfy move shuffle self data target 0 learning_rate
  = ('(data1, target1, h, rules) ←
       induce shuffle (_min_observations_per_rule self) data target;
     mret (h, trained self data rules)).
Proof.
  split; [reflexivity |]. unfold train.
  destruct (induce shuffle (_min_observations_per_rule self) data target)
    as [[[[data1 target1] h] rules] | e]; reflexivity.
Qed.

End Training.

Lemma training_first_maximal_rule_wins_witness :
  rows (mkArray 1 [[3 # 2]; [6]]) !! 0%nat = Some [3 # 2] /\
  (exists a, activation tri_fuzzyfy unit_heap [0%nat; 1%nat] [3 # 2; 5 # 2] = Ok a /\
             a == mean_degree tri_fuzzyfy unit_heap [0%nat; 1%nat] [3 # 2; 5 # 2]) /\
  most_activated tri_fuzzyfy unit_heap [3 # 2]
    ([([4%nat], 2%Z)] ++ ([0%nat], 0%Z) :: [([1%nat], 1%Z)]) None 0
  = Ok (Some ([0%nat], 0%Z)) /\
  train_observation tri_fuzzyfy shift_move unit_heap
    [([0%nat], 0%Z); ([1%nat], 1%Z)] (mkArray 1 [[3 # 2]; [6]]) [0%Z; 1%Z]
    (1 # 10) 1
  = Ok unit_heap.
Proof.
  split; [reflexivity |]. split; [| split].
  - destruct (training_first_maximal_rule_wins tri_fuzzyfy shift_move unit_heap
                (mkArray 2 [[3 # 2; 5 # 2]]) [0%Z] (1 # 10) 0 [3 # 2; 5 # 2]
                eq_refl) as (Hmean & _ & _).
    apply Hmean. simpl. lia.
  - destruct (training_first_maximal_rule_wins tri_fuzzyfy shift_move unit_heap
                (mkArray 1 [[3 # 2]; [6]]) [0%Z; 1%Z] (1 # 10) 0 [3 # 2]
                eq_refl) as (_ & Hfirst & _).
    eapply Hfirst.
    + vm_compute. reflexivity.
    + reflexivity.
    + repeat constructor. eexists. split; [vm_compute; reflexivity | reflexivity].
    + repeat constructor. eexists. split; [vm_compute; reflexivity | discriminate].
  - destruct (training_first_maximal_rule_wins tri_fuzzyfy shift_move unit_heap
                (mkArray 1 [[3 # 2]; [6]]) [0%Z; 1%Z] (1 # 10) 1 [6]
                eq_refl) as (_ & _ & Hnone).
    apply Hnone.
    repeat constructor;
      (eexists; split; [vm_compute; reflexivity | discriminate]).
Defined.

(** ** Rule candidates *)

Lemma found_loop_inside (h : heap) (cell : list nat) (row : list Q) (n : nat) :
  forall i : nat,
    (i + n = length row)%nat -> (length row <= length cell)%nat ->
    found_loop h cell row (seq i n) = Ok (inside h (drop i cell) (drop i row)).
Proof.
  induction n as [| n IH]; intros i Hi Hlen; simpl.
  - rewrite (drop_ge row) by lia. unfold inside.
    now destruct (drop i cell).
  - destruct (lookup_lt_is_Some_2 row i) as [v Hv]; [lia |].
    destruct (lookup_lt_is_Some_2 cell i) as [m Hm]; [lia |].
    unfold in_range. rewrite (getitem_Some _ _ _ Hm), (getitem_Some _ _ _ Hv).
    simpl. rewrite (drop_S _ _ _ Hv), (drop_S _ _ _ Hm).
    unfold inside. simpl. fold (inside h (drop (S i) cell) (drop (S i) row)).
    destruct (Qle_bool (low_x h m) v && Qle_bool v (high_x h m));
      [apply IH; lia | reflexivity].
Qed.

Lemma count_loop_tally (h : heap) (data : ndarray) (target : list Z)
    (cell : list nat) (n : nat) :
  (shape0 data <= length target)%nat ->
  Forall (fun row => (length row <= length cell)%nat) (rows data) ->
  forall (i : nat) (classes : dict Z Z),
    (i + n <= shape0 data)%nat ->
    count_loop h data target cell (seq i n) classes
    = Ok (tally h cell (take n (drop i (zip (rows data) target))) classes).
Proof.
  intros Htarget Hrows. unfold shape0 in *.
  induction n as [| n IH]; intros i classes Hi; simpl; [reflexivity |].
  destruct (lookup_lt_is_Some_2 (rows data) i) as [row Hrow]; [lia |].
  destruct (lookup_lt_is_Some_2 target i) as [t Ht]; [lia |].
  assert (Hz : zip (rows data) target !! i = Some (row, t)).
  { rewrite lookup_zip_with, Hrow. simpl. now rewrite Ht. }
  rewrite (getitem_Some _ _ _ Hrow). simpl.
  rewrite (found_loop_inside h cell row (length row) 0); [| lia |].
  2:{ apply (proj1 (Forall_lookup _ _) Hrows i row Hrow). }
  simpl. rewrite !drop_0.
  rewrite (drop_S _ _ _ Hz). simpl.
  destruct (inside h cell row); simpl.
  - rewrite (getitem_Some _ _ _ Ht). simpl. apply IH. lia.
  - apply IH. lia.
Qed.

Section DictFacts.
Context {K V : Type} `{EqDecision K}.

Lemma dict_get_set (d : dict K V) (k k' : K) (v : V) :
  dict_get (dict_set d k v) k'
  = if decide (k = k') then Some v else dict_get d k'.
Proof.
  induction d as [| [k0 v0] d IH]; simpl.
  - destruct (decide (k = k')); reflexivity.
  - destruct (decide (k0 = k)) as [-> | Hne]; simpl.
    + destruct (decide (k = k')); reflexivity.
    + destruct (decide (k0 = k')) as [-> | Hne'].
      * destruct (decide (k = k')); [congruence | reflexivity].
      * exact IH.
Qed.

Lemma dict_set_not_nil (d : dict K V) (k : K) (v : V) : dict_set d k v <> [].
Proof.
  destruct d as [| [k0 v0] d]; simpl; [discriminate |].
  destruct (decide (k0 = k)); discriminate.
Qed.

Lemma keys_dict_set (d : dict K V) (k k' : K) (v : V) :
  k' ∈ keys (dict_set d k v) <-> k' = k \/ k' ∈ keys d.
Proof.
  unfold keys. induction d as [| [k0 v0] d IH]; simpl.
  - rewrite list_elem_of_singleton. split; [auto |].
    intros [-> | Hin]; [reflexivity | inversion Hin].
  - destruct (decide (k0 = k)) as [-> | Hne]; simpl.
    + rewrite !elem_of_cons. tauto.
    + rewrite !elem_of_cons, IH. tauto.
Qed.

Lemma dict_set_NoDup (d : dict K V) (k : K) (v : V) :
  NoDup (keys d) -> NoDup (keys (dict_set d k v)).
Proof.
  unfold keys. induction d as [| [k0 v0] d IH]; simpl; intros Hnd.
  - apply NoDup_singleton.
  - apply NoDup_cons in Hnd. destruct Hnd as [Hnotin Hnd].
    destruct (decide (k0 = k)) as [-> | Hne]; simpl.
    + now apply NoDup_cons.
    + apply NoDup_cons. split; [| now apply IH].
      intros Hin. apply keys_dict_set in Hin.
      destruct Hin as [-> | Hin]; [congruence | contradiction].
Qed.

Lemma dict_get_elem (d : dict K V) (k : K) (v : V) :
  dict_get d k = Some v -> (k, v) ∈ d.
Proof.
  induction d as [| [k0 v0] d IH]; simpl; [discriminate |].
  destruct (decide (k0 = k)) as [-> | Hne].
  - intros [= ->]. left.
  - intros Hget. right. now apply IH.
Qed.

Lemma elem_dict_get (d : dict K V) (k : K) (v : V) :
  NoDup (keys d) -> (k, v) ∈ d -> dict_get d k = Some v.
Proof.
  unfold keys. induction d as [| [k0 v0] d IH]; simpl; intros Hnd Hin;
    [inversion Hin |].
  apply NoDup_cons in Hnd. destruct Hnd as [Hnotin Hnd].
  apply elem_of_cons in Hin. destruct Hin as [[= -> ->] | Hin].
  - now rewrite decide_True.
  - destruct (decide (k0 = k)) as [-> | Hne]; [| now apply IH].
    exfalso. apply Hnotin. apply list_elem_of_fmap. now exists (k, v).
Qed.

Lemma dict_get_None_keys (d : dict K V) (k : K) :
  dict_get d k = None <-> k ∉ keys d.
Proof.
  unfold keys. induction d as [| [k0 v0] d IH]; simpl.
  - split; [intros _ Hin; inversion Hin | reflexivity].
  - rewrite not_elem_of_cons.
    destruct (decide (k0 = k)) as [-> | Hne].
    + split; [discriminate | intros [Hk _]; congruence].
    + rewrite IH. split; [intros Hk; split; [congruence | exact Hk] | tauto].
Qed.
End DictFacts.

Lemma count_class_get (classes : dict Z Z) (t k : Z) :
  dict_get (count_class classes t) k
  = if decide (t = k) then Some (default 0 (dict_get classes t) + 1)%Z
    else dict_get classes k.
Proof.
  unfold count_class. cbv zeta. rewrite dict_get_set.
  destruct (decide (t = k)) as [-> | Hne].
  - destruct (dict_get classes k) eqn:Hk; [now rewrite Hk |].
    rewrite dict_get_set. now rewrite decide_True.
  - destruct (dict_get classes t); [reflexivity |].
    rewrite dict_get_set. now rewrite decide_False.
Qed.

Lemma count_class_NoDup (classes : dict Z Z) (t : Z) :
  NoDup (keys classes) -> NoDup (keys (count_class classes t)).
Proof.
  intros Hnd. unfold count_class. apply dict_set_NoDup.
  destruct (dict_get classes t); [exact Hnd | now apply dict_set_NoDup].
Qed.

Lemma count_in_nonneg (h : heap) (cell : list nat) (k : Z)
    (obs : list (list Q * Z)) : (0 <= count_in h cell k obs)%Z.
Proof.
  induction obs as [| [row t] obs IH]; simpl; [lia |].
  destruct (inside h cell row && (t =? k)%Z); lia.
Qed.

Lemma count_in_positive (h : heap) (cell : list nat) (k : Z)
    (obs : list (list Q * Z)) :
  (1 <= count_in h cell k obs)%Z <->
  exists row, (row, k) ∈ obs /\ inside h cell row = true.
Proof.
  induction obs as [| [row t] obs IH]; simpl.
  - split; [lia | intros (row & Hin & _); inversion Hin].
  - pose proof (count_in_nonneg h cell k obs) as Hpos.
    destruct (inside h cell row) eqn:Hin; simpl.
    + destruct (Z.eqb_spec t k) as [-> | Hne].
      * split; [| lia]. intros _. exists row. split; [left | exact Hin].
      * rewrite Z.add_0_l, IH. split.
        -- intros (row' & Hel & Hi). exists row'. split; [now right | exact Hi].
        -- intros (row' & Hel & Hi). exists row'. split; [| exact Hi].
           apply elem_of_cons in Hel. destruct Hel as [[= -> ->] | Hel];
             [congruence | exact Hel].
    + rewrite Z.add_0_l, IH. split.
      * intros (row' & Hel & Hi). exists row'. split; [now right | exact Hi].
      * intros (row' & Hel & Hi). exists row'. split; [| exact Hi].
        apply elem_of_cons in Hel. destruct Hel as [[= -> ->] | Hel];
          [congruence | exact Hel].
Qed.

Lemma tally_get (h : heap) (cell : list nat) (k : Z) (obs : list (list Q * Z)) :
  forall classes : dict Z Z,
    dict_get (tally h cell obs classes) k
    = match dict_get classes k with
      | Some n => Some (n + count_in h cell k obs)%Z
      | None =>
          if (count_in h cell k obs =? 0)%Z then None
          else Some (count_in h cell k obs)
      end.
Proof.
  unfold tally.
  induction obs as [| [row t] obs IH]; intros classes; simpl.
  - destruct (dict_get classes k); [f_equal; lia | reflexivity].
  - pose proof (count_in_nonneg h cell k obs) as Hpos.
    rewrite IH. destruct (inside h cell row); simpl.
    + rewrite count_class_get.
      destruct (decide (t = k)) as [-> | Hne].
      * rewrite Z.eqb_refl.
        destruct (dict_get classes k) as [n |]; simpl.
        -- f_equal. lia.
        -- destruct (Z.eqb_spec (1 + count_in h cell k obs) 0); [lia |].
           f_equal.
      * destruct (Z.eqb_spec t k); [congruence |].
        destruct (dict_get classes k); reflexivity.
    + reflexivity.
Qed.

Lemma tally_NoDup (h : heap) (cell : list nat) (obs : list (list Q * Z)) :
  forall classes : dict Z Z,
    NoDup (keys classes) -> NoDup (keys (tally h cell obs classes)).
Proof.
  unfold tally. induction obs as [| [row t] obs IH]; intros classes Hnd; simpl;
    [exact Hnd |].
  apply IH. destruct (inside h cell row); [now apply count_class_NoDup | exact Hnd].
Qed.

Lemma tally_not_nil (h : heap) (cell : list nat) (obs : list (list Q * Z)) :
  forall classes : dict Z Z,
    classes <> [] -> tally h cell obs classes <> [].
Proof.
  unfold tally. induction obs as [| [row t] obs IH]; intros classes Hne; simpl;
    [exact Hne |].
  apply IH. destruct (inside h cell row); [| exact Hne].
  unfold count_class. apply dict_set_not_nil.
Qed.

Lemma tally_nil (h : heap) (cell : list nat) (obs : list (list Q * Z)) :
  tally h cell obs [] = [] <-> Forall (fun rt => inside h cell rt.1 = false) obs.
Proof.
  induction obs as [| [row t] obs IH]; simpl.
  - split; [constructor | reflexivity].
  - unfold tally. simpl. destruct (inside h cell row) eqn:Hin.
    + split.
      * intros Hnil. exfalso. revert Hnil. apply tally_not_nil.
        unfold count_class. apply dict_set_not_nil.
      * intros Hall. apply Forall_cons in Hall. simpl in Hall.
        destruct Hall as [Hf _]. congruence.
    + fold (tally h cell obs []). rewrite IH. split.
      * intros Hall. constructor; [exact Hin | exact Hall].
      * intros Hall. now apply Forall_cons in Hall.
Qed.

Lemma pair_ltb_false (p q : Z * Z) :
  pair_ltb p q = false <-> (q.1 < p.1 \/ (q.1 = p.1 /\ q.2 <= p.2))%Z.
Proof.
  unfold pair_ltb.
  destruct (Z.ltb_spec p.1 q.1), (Z.eqb_spec p.1 q.1), (Z.ltb_spec p.2 q.2);
    simpl; split; intros; try discriminate; try reflexivity; lia.
Qed.

Lemma pair_ltb_true (p q : Z * Z) :
  pair_ltb p q = true <-> (p.1 < q.1 \/ (p.1 = q.1 /\ p.2 < q.2))%Z.
Proof.
  unfold pair_ltb.
  destruct (Z.ltb_spec p.1 q.1), (Z.eqb_spec p.1 q.1), (Z.ltb_spec p.2 q.2);
    simpl; split; intros; try discriminate; try reflexivity; lia.
Qed.

Lemma py_max_fold (l : list (Z * Z)) :
  forall best,
    let r := fold_left (fun best b => if pair_ltb best b then b else best) l best in
    (r = best \/ r ∈ l) /\
    pair_ltb r best = false /\
    forall q, q ∈ l -> pair_ltb r q = false.
Proof.
  induction l as [| b l IH]; intros best; simpl.
  - split; [now left |]. split; [apply pair_ltb_false; lia |].
    intros q Hq. inversion Hq.
  - destruct (pair_ltb best b) eqn:Hb.
    + destruct (IH b) as (Hin & Hbest & Hall).
      split; [right; destruct Hin as [-> | Hin]; [left | now right] |].
      apply pair_ltb_true in Hb. apply pair_ltb_false in Hbest.
      split; [apply pair_ltb_false; lia |].
      intros q Hq. apply elem_of_cons in Hq.
      destruct Hq as [-> | Hq]; [apply pair_ltb_false; lia | now apply Hall].
    + destruct (IH best) as (Hin & Hbest & Hall).
      split; [destruct Hin as [-> | Hin]; [now left | right; now right] |].
      split; [exact Hbest |].
      apply pair_ltb_false in Hb, Hbest.
      intros q Hq. apply elem_of_cons in Hq.
      destruct Hq as [-> | Hq]; [apply pair_ltb_false; lia | now apply Hall].
Qed.

Lemma py_max_greatest (l : list (Z * Z)) :
  l <> [] ->
  exists p, py_max l = Ok p /\ p ∈ l /\ forall q, q ∈ l -> pair_ltb p q = false.
Proof.
  destruct l as [| a l]; [congruence |]. intros _. simpl.
  destruct (py_max_fold l a) as (Hin & Hbest & Hall).
  eexists. split; [reflexivity |].
  split; [destruct Hin as [-> | Hin]; [left | now right] |].
  intros q Hq. apply elem_of_cons in Hq.
  destruct Hq as [-> | Hq]; [exact Hbest | now apply Hall].
Qed.

Lemma elem_zip_values_keys (d : dict Z Z) (n c : Z) :
  (n, c) ∈ zip (values d) (keys d) <-> (c, n) ∈ d.
Proof.
  unfold values, keys. induction d as [| [k v] d IH]; simpl.
  - split; intros H; inversion H.
  - rewrite !elem_of_cons, IH. split; intros [[= -> ->] | H]; auto.
Qed.

(** What the loop over grid cells computes for one cell. *)
Lemma label_cases (h : heap) (data : ndarray) (target : list Z)
    (min_observations_per_rule : Z) (cell : list nat) :
  let cnt := cell_count h data target cell in
  let classes := tally h cell (zip (rows data) target) [] in
  (classes = [] /\
   label h data target min_observations_per_rule cell = None /\
   Forall (fun rt => inside h cell rt.1 = false) (zip (rows data) target)) \/
  (exists c,
      classes <> [] /\
      py_max (zip (values classes) (keys classes)) = Ok (cnt c, c) /\
      (1 <= cnt c)%Z /\
      (forall k, (cnt k < cnt c \/ (cnt k = cnt c /\ k <= c))%Z) /\
      label h data target min_observations_per_rule cell
      = if (min_observations_per_rule <=? cnt c)%Z then Some c else None).
Proof.
  intros cnt classes.
  assert (Hget : forall k, dict_get classes k
                           = if (cnt k =? 0)%Z then None else Some (cnt k)).
  { intros k. unfold classes. now rewrite tally_get. }
  assert (Hnd : NoDup (keys classes)).
  { apply tally_NoDup. constructor. }
  destruct classes as [| kn rest] eqn:Hcl.
  - left. split; [reflexivity |]. split.
    + unfold label. fold classes. now rewrite Hcl.
    + now apply tally_nil.
  - right. rewrite <- Hcl in *.
    assert (Hne : zip (values classes) (keys classes) <> []).
    { rewrite Hcl. destruct kn. discriminate. }
    destruct (py_max_greatest _ Hne) as ([nb c] & Hmax & Hin & Hall).
    apply (proj1 (elem_zip_values_keys classes nb c)) in Hin.
    apply (elem_dict_get _ _ _ Hnd) in Hin. rewrite Hget in Hin.
    pose proof (count_in_nonneg h cell c (zip (rows data) target)) as Hpos.
    fold (cell_count h data target cell c) in Hpos. fold cnt in Hpos.
    destruct (Z.eqb_spec (cnt c) 0) as [Hz | Hnz]; [discriminate Hin |].
    injection Hin as <-.
    exists c. split; [rewrite Hcl; discriminate |]. split; [exact Hmax |].
    split; [lia |]. split.
    + intros k.
      pose proof (count_in_nonneg h cell k (zip (rows data) target)) as Hk.
      fold (cell_count h data target cell k) in Hk. fold cnt in Hk.
      destruct (Z.eqb_spec (cnt k) 0) as [Hkz | Hknz]; [lia |].
      assert (Hkin : (cnt k, k) ∈ zip (values classes) (keys classes)).
      { apply elem_zip_values_keys. apply dict_get_elem. rewrite Hget.
        destruct (Z.eqb_spec (cnt k) 0); [lia | reflexivity]. }
      apply Hall in Hkin. apply pair_ltb_false in Hkin. simpl in Hkin. lia.
    + unfold label. fold classes. rewrite Hcl in Hmax |- *. now rewrite Hmax.
Qed.

Lemma inside_falls_inside (h : heap) (cell : list nat) :
  forall row, inside h cell row = true <-> falls_inside h cell row.
Proof.
  unfold inside, falls_inside.
  induction cell as [| m cell IH]; intros [| v row]; simpl;
    try (split; [intros _ feature m' v' Hm Hv; try discriminate Hm;
                 discriminate Hv | reflexivity]).
  rewrite !andb_true_iff, IH, !Qle_bool_iff. split.
  - intros [Hmv Hrest] [| feature] m' v' Hm Hv; simpl in *.
    + injection Hm as <-. injection Hv as <-. exact Hmv.
    + now apply (Hrest feature).
  - intros Hall. split; [now apply (Hall 0%nat) |].
    intros feature m' v' Hm Hv. now apply (Hall (S feature)).
Qed.

Lemma consequent_label (h : heap) (data : ndarray) (target : list Z)
    (min_observations_per_rule : Z) (rules : ruleset) (cell : list nat) :
  (shape0 data <= length target)%nat ->
  Forall (fun row => (length row <= length cell)%nat) (rows data) ->
  consequent h data target min_observations_per_rule rules cell
  = Ok (match label h data target min_observations_per_rule cell with
        | Some c => dict_set rules cell c
        | None => rules
        end).
Proof.
  intros Htarget Hrows. unfold consequent.
  rewrite (count_loop_tally h data target cell (shape0 data) Htarget Hrows 0 [])
    by lia.
  rewrite drop_0, take_ge by (rewrite length_zip_with; unfold shape0; lia).
  simpl.
  destruct (label_cases h data target min_observations_per_rule cell)
    as [(Hnil & Hlabel & _) | (c & Hne & Hmax & _ & _ & Hlabel)];
    rewrite Hlabel.
  - now rewrite Hnil.
  - destruct (tally h cell (zip (rows data) target) []) as [| kn rest] eqn:Hcl;
      [congruence |].
    rewrite Hmax. simpl.
    now destruct (min_observations_per_rule <=? cell_count h data target cell c)%Z.
Qed.

Lemma consequents_rules (h : heap) (data : ndarray) (target : list Z)
    (min_observations_per_rule : Z) (cells : list (list nat)) :
  (shape0 data <= length target)%nat ->
  Forall (fun cell => Forall (fun row => (length row <= length cell)%nat)
                             (rows data)) cells ->
  forall rules0 : ruleset,
  exists rules,
    consequents h data target min_observations_per_rule rules0 cells = Ok rules /\
    (forall cell,
        cell ∈ keys rules <->
        cell ∈ keys rules0 \/
        (cell ∈ cells /\
         is_Some (label h data target min_observations_per_rule cell))) /\
    (forall cell c,
        dict_get rules cell = Some c ->
        dict_get rules0 cell = Some c \/
        label h data target min_observations_per_rule cell = Some c).
Proof.
  intros Htarget Hcells.
  induction Hcells as [| cell0 cells Hcell0 _ IH]; intros rules0; simpl.
  - exists rules0. split; [reflexivity |]. split.
    + intros cell. split; [now left |].
      intros [Hin | [Hin _]]; [exact Hin | inversion Hin].
    + intros cell c Hget. now left.
  - rewrite (consequent_label h data target min_observations_per_rule rules0
               cell0 Htarget Hcell0). simpl.
    destruct (label h data target min_observations_per_rule cell0) as [c0 |]
      eqn:Hl0.
    + destruct (IH (dict_set rules0 cell0 c0)) as (rules & Hrules & Hkeys & Hget).
      exists rules. split; [exact Hrules |]. split.
      * intros cell. rewrite Hkeys, keys_dict_set, elem_of_cons. split.
        -- intros [[-> | Hin] | [Hin Hsome]]; [right | now left | right].
           ++ split; [now left | rewrite Hl0; eauto].
           ++ split; [now right | exact Hsome].
        -- intros [Hin | [[-> | Hin] Hsome]];
             [left; now right | left; now left | right; now split].
      * intros cell c Hc. apply Hget in Hc.
        destruct Hc as [Hc | Hc]; [| now right].
        rewrite dict_get_set in Hc.
        destruct (decide (cell0 = cell)) as [<- | Hne]; [| now left].
        right. congruence.
    + destruct (IH rules0) as (rules & Hrules & Hkeys & Hget).
      exists rules. split; [exact Hrules |]. split; [| exact Hget].
      intros cell. rewrite Hkeys, elem_of_cons. split.
      * intros [Hin | [Hin Hsome]]; [now left | right; split; [now right | exact Hsome]].
      * intros [Hin | [[-> | Hin] Hsome]];
          [now left | | right; now split].
        rewrite Hl0 in Hsome. destruct Hsome as [? Hx]. discriminate Hx.
Qed.

(** C6.  A grid cell becomes a rule exactly when some observation falls
    inside it and the count of its dominant class (a class whose count no
    other class exceeds) reaches [min_observations_per_rule]; the cells
    without an observation and the cells whose dominant count is below the
    threshold are dropped. *)
Theorem cell_kept_iff_supported (h : heap) (data : ndarray) (target : list Z)
    (min_observations_per_rule : Z) (cells : list (list nat)) :
  (shape0 data <= length target)%nat ->
  Forall (fun cell => Forall (fun row => (length row <= length cell)%nat)
                             (rows data)) cells ->
  exists rules,
    consequents h data target min_observations_per_rule [] cells = Ok rules /\
    forall cell,
      cell ∈ keys rules <->
      cell ∈ cells /\
      (exists obs row, rows data !! obs = Some row /\ falls_inside h cell row) /\
      (exists k,
          (forall k', cell_count h data target cell k'
                      <= cell_count h data target cell k)%Z /\
          (min_observations_per_rule <= cell_count h data target cell k)%Z).
Proof.
  intros Htarget Hcells.
  destruct (consequents_rules h data target min_observations_per_rule cells
              Htarget Hcells []) as (rules & Hrules & Hkeys & _).
  exists rules. split; [exact Hrules |].
  intros cell. rewrite Hkeys. split.
  - intros [Hin | [Hin [c Hc]]]; [inversion Hin |].
    split; [exact Hin |].
    destruct (label_cases h data target min_observations_per_rule cell)
      as [(_ & Hnone & _) | (c' & _ & _ & Hone & Hmax & Hlabel)];
      [congruence |].
    rewrite Hlabel in Hc.
    destruct (Z.leb_spec min_observations_per_rule
                         (cell_count h data target cell c')); [| discriminate Hc].
    split.
    + apply count_in_positive in Hone. destruct Hone as (row & Hel & Hinside).
      apply list_elem_of_lookup in Hel. destruct Hel as [obs Hobs].
      rewrite lookup_zip_with in Hobs.
      destruct (rows data !! obs) as [row' |] eqn:Hrow; [| discriminate Hobs].
      simpl in Hobs. destruct (target !! obs); [| discriminate Hobs].
      simpl in Hobs. injection Hobs as -> _.
      exists obs, row. split; [exact Hrow |]. now apply inside_falls_inside.
    + exists c'. split; [| assumption].
      intros k'. specialize (Hmax k'). lia.
  - intros (Hin & (obs & row & Hrow & Hfalls) & (k & _ & Hmin)).
    right. split; [exact Hin |].
    destruct (label_cases h data target min_observations_per_rule cell)
      as [(_ & _ & Hnone) | (c' & _ & _ & _ & Hmax & Hlabel)].
    + exfalso. apply inside_falls_inside in Hfalls.
      destruct (lookup_lt_is_Some_2 target obs) as [t Ht].
      { apply lookup_lt_Some in Hrow. unfold shape0 in Htarget. lia. }
      assert (Hz : zip (rows data) target !! obs = Some (row, t)).
      { rewrite lookup_zip_with, Hrow. simpl. now rewrite Ht. }
      apply (proj1 (Forall_lookup _ _) Hnone obs (row, t)) in Hz.
      simpl in Hz. congruence.
    + rewrite Hlabel. specialize (Hmax k).
      destruct (Z.leb_spec min_observations_per_rule
                           (cell_count h data target cell c')); [eauto | lia].
Qed.

(** C3, amended.  The class given to a kept cell is a class of greatest
    count in the cell, and among the classes of equal greatest count it is
    the greatest class label: the maximum of the pairs (count, class). *)
Theorem rule_class_is_greatest_pair (h : heap) (data : ndarray)
    (target : list Z) (min_observations_per_rule : Z)
    (cells : list (list nat)) :
  (shape0 data <= length target)%nat ->
  Forall (fun cell => Forall (fun row => (length row <= length cell)%nat)
                             (rows data)) cells ->
  exists rules,
    consequents h data target min_observations_per_rule [] cells = Ok rules /\
    forall cell c,
      dict_get rules cell = Some c ->
      (1 <= cell_count h data target cell c)%Z /\
      forall k,
        (cell_count h data target cell k < cell_count h data target cell c \/
         (cell_count h data target cell k = cell_count h data target cell c /\
          k <= c))%Z.
Proof.
  intros Htarget Hcells.
  destruct (consequents_rules h data target min_observations_per_rule cells
              Htarget Hcells []) as (rules & Hrules & _ & Hget).
  exists rules. split; [exact Hrules |].
  intros cell c Hc. apply Hget in Hc. destruct Hc as [Hc | Hc];
    [discriminate Hc |].
  destruct (label_cases h data target min_observations_per_rule cell)
    as [(_ & Hnone & _) | (c' & _ & _ & Hone & Hmax & Hlabel)];
    [congruence |].
  rewrite Hlabel in Hc.
  destruct (min_observations_per_rule <=? cell_count h data target cell c')%Z;
    [| discriminate Hc].
  injection Hc as <-. split; assumption.
Qed.

Lemma cell_kept_iff_supported_witness :
  exists rules,
    consequents unit_heap gap_data gap_target 1 []
                [[0%nat]; [1%nat]; [2%nat]; [3%nat]; [4%nat]] = Ok rules /\
    [2%nat] ∈ keys rules /\ ~ [1%nat] ∈ keys rules.
Proof.
  destruct (cell_kept_iff_supported unit_heap gap_data gap_target 1
              [[0%nat]; [1%nat]; [2%nat]; [3%nat]; [4%nat]])
    as (rules & Hrules & Hiff).
  - cbv. lia.
  - repeat constructor.
  - exists rules. split; [exact Hrules |]. split.
    + apply Hiff. split; [repeat constructor |]. split.
      * exists 1%nat, [7 # 2]. split; [reflexivity |].
        apply inside_falls_inside. reflexivity.
      * exists 1%Z. split; [| vm_compute; discriminate].
        intros k'. unfold cell_count. simpl.
        destruct k' as [| q | q]; try destruct (1 =? q)%positive; lia.
    + intros Hin. apply Hiff in Hin.
      destruct Hin as (_ & (obs & row & Hrow & Hfalls) & _).
      apply inside_falls_inside in Hfalls.
      destruct obs as [| [| [| obs]]]; simpl in Hrow;
        try discriminate Hrow; injection Hrow as <-; discriminate Hfalls.
Defined.

Lemma rule_class_is_greatest_pair_witness :
  exists rules,
    consequents unit_heap tie_data tie_target 1 [] [[0%nat]] = Ok rules /\
    dict_get rules [0%nat] = Some 1%Z /\
    (1 <= cell_count unit_heap tie_data tie_target [0%nat] 1)%Z /\
    (cell_count unit_heap tie_data tie_target [0%nat] 0
     = cell_count unit_heap tie_data tie_target [0%nat] 1 /\ 0 <= 1)%Z.
Proof.
  destruct (rule_class_is_greatest_pair unit_heap tie_data tie_target 1
              [[0%nat]])
    as (rules & Hrules & Hmax).
  - cbv. lia.
  - repeat constructor.
  - exists rules. split; [exact Hrules |].
    assert (Hget : dict_get rules [0%nat] = Some 1%Z).
    { vm_compute in Hrules. injection Hrules as <-. reflexivity. }
    split; [exact Hget |].
    destruct (Hmax [0%nat] 1%Z Hget) as [Hone Hall].
    split; [exact Hone |]. split; [reflexivity | lia].
Defined.

(** C3 as worded fails: in the cell of the fuzzy set 0 the classes 0 and 1
    have one observation each and the class 0 is enumerated first, yet the
    rule gets the class 1. *)
Lemma tie_goes_to_greater_label :
  exists h splits,
    build_fuzzy_sets tie_data = Ok (h, [splits]) /\
    ~ ties_go_to_first_enumerated h tie_data tie_target 1 (product [splits]).
Proof.
  eexists _, _. split; [vm_compute; reflexivity |].
  intros Hclaim.
  specialize (Hclaim [([0%nat], 1%Z)] [0%nat] 1%Z [(0, 1); (1, 1)]%Z).
  discriminate Hclaim; vm_compute; reflexivity.
Qed.

(** ** The rule candidates of [train] are well shaped *)

Lemma product_length {A : Type} (ls : list (list A)) :
  forall cell, cell ∈ product ls -> length cell = length ls.
Proof.
  induction ls as [| l ls IH]; intros cell Hin; simpl in *.
  - apply list_elem_of_singleton in Hin. now subst cell.
  - apply list_elem_of_In, in_flat_map in Hin.
    destruct Hin as (a & _ & Hin). apply in_map_iff in Hin.
    destruct Hin as (cell' & <- & Hin). simpl. f_equal.
    apply IH. now apply list_elem_of_In.
Qed.

Lemma build_features_length (data : ndarray) (feats : list nat) :
  forall h h1 mfs,
    build_features h data feats = Ok (h1, mfs) -> length mfs = length feats.
Proof.
  induction feats as [| feat feats IH]; intros h h1 mfs Hb; simpl in Hb.
  - injection Hb as _ <-. reflexivity.
  - destruct (build_feature h data feat) as [[h2 splits] |]; [| discriminate Hb].
    simpl in Hb.
    destruct (build_features h2 data feats) as [[h3 rest] |] eqn:Hrest;
      [| discriminate Hb].
    simpl in Hb. injection Hb as _ <-. simpl. f_equal. now apply (IH h2 h3).
Qed.

Lemma candidates_well_shaped (data : ndarray) (h : heap) (mfs : list (list nat)) :
  rectangular data ->
  build_fuzzy_sets data = Ok (h, mfs) ->
  Forall (fun cell => Forall (fun row => (length row <= length cell)%nat)
                             (rows data)) (product mfs).
Proof.
  intros Hrect Hb. unfold build_fuzzy_sets in Hb.
  apply build_features_length in Hb. rewrite length_seq in Hb.
  apply Forall_forall. intros cell Hcell.
  apply product_length in Hcell.
  eapply Forall_impl; [exact Hrect |]. intros row Hrow. simpl in Hrow. lia.
Qed.

Lemma induce_steps (shuffle : ndarray -> list Z -> result (ndarray * list Z))
    (min_observations_per_rule : Z) (data data1 : ndarray)
    (target target1 : list Z) (h1 : heap) (rules : ruleset) :
  induce shuffle min_observations_per_rule data target
  = Ok (data1, target1, h1, rules) ->
  exists h mfs,
    shuffle data target = Ok (data1, target1) /\
    build_fuzzy_sets data1 = Ok (h, mfs) /\
    consequents h data1 target1 min_observations_per_rule [] (product mfs)
    = Ok rules /\
    repair h rules (shape1 data1) = Ok h1.
Proof.
  unfold induce. intros Hi.
  destruct (shuffle data target) as [[d t] |]; [| discriminate Hi].
  simpl in Hi.
  destruct (build_fuzzy_sets d) as [[h mfs] |] eqn:Hb; [| discriminate Hi].
  simpl in Hi.
  destruct (consequents h d t min_observations_per_rule [] (product mfs))
    as [rules' |] eqn:Hc; [| discriminate Hi].
  simpl in Hi.
  destruct (repair h rules' (shape1 d)) as [h' |] eqn:Hr; [| discriminate Hi].
  simpl in Hi. injection Hi as -> -> -> ->.
  exists h, mfs. repeat split; first [assumption | reflexivity].
Qed.

(** ** Shapes of the inputs of [train] *)

Lemma checked_shuffle_contract : shuffle_contract checked_shuffle.
Proof.
  intros data target. unfold checked_shuffle.
  destruct (decide (shape0 data = length target)) as [Heq | Hne];
    [| reflexivity].
  exists data, target. repeat split; [exact Heq | reflexivity].
Qed.

Section Shapes.

Variable fuzzyfy : heap -> nat -> Q -> Q.
Variable move : heap -> nat -> Q -> Q -> bool -> heap.
Variable shuffle : ndarray -> list Z -> result (ndarray * list Z).

Lemma train_observation_no_feature (h : heap) (rules : ruleset)
    (data : ndarray) (target : list Z) (learning_rate : Q) (obs : nat) :
  (obs < shape0 data)%nat ->
  Forall (fun item => item.1 = []) rules ->
  train_observation fuzzyfy move h rules data target learning_rate obs = Ok h.
Proof.
  intros Hobs Hrules. unfold train_observation.
  destruct (lookup_lt_is_Some_2 (rows data) obs) as [row Hrow]; [exact Hobs |].
  rewrite (getitem_Some _ _ _ Hrow). simpl.
  rewrite (most_activated_above fuzzyfy h row rules None 0); [reflexivity |].
  eapply Forall_impl; [exact Hrules |].
  intros [mfs c] Hmfs. simpl in Hmfs. subst mfs.
  exists 0. split; [reflexivity | lra].
Qed.

Lemma train_pass_no_feature (h : heap) (rules : ruleset) (data : ndarray)
    (target : list Z) (learning_rate : Q) (n : nat) :
  Forall (fun item => item.1 = []) rules ->
  forall i : nat,
    (i + n <= shape0 data)%nat ->
    train_pass fuzzyfy move h rules data target learning_rate (seq i n) = Ok h.
Proof.
  intros Hrules. induction n as [| n IH]; intros i Hi; simpl; [reflexivity |].
  rewrite train_observation_no_feature by (assumption || lia). simpl.
  apply IH. lia.
Qed.

Lemma train_passes_no_feature (h : heap) (rules : ruleset) (data : ndarray)
    (target : list Z) (learning_rate : Q) (passes : list nat) :
  Forall (fun item => item.1 = []) rules ->
  train_passes fuzzyfy move h rules data target learning_rate passes = Ok h.
Proof.
  intros Hrules. induction passes as [| p passes IH]; simpl; [reflexivity |].
  rewrite (train_pass_no_feature h rules data target learning_rate
             (shape0 data) Hrules 0) by lia.
  simpl. exact IH.
Qed.

(** C9, amended.  [train] does not inspect the shapes of its inputs
    itself.  Observations and classes of different lengths are rejected,
    before any fuzzy set is built, by the call of the shuffle; a matrix
    without features is accepted: [train] returns normally, with no rule
    other than the empty tuple. *)
Theorem train_rejects_only_length_mismatch (self : NFS) (data : ndarray)
    (target : list Z) (nb_iter : Z) (learning_rate : Q) :
  shuffle_contract shuffle ->
  rectangular data ->
  (shape0 data <> length target ->
   train fuzzyfy move shuffle self data target nb_iter learning_rate
   = Raise ValueError) /\
  (shape0 data = length target ->
   shape1 data = 0%nat ->
   exists h rules,
     train fuzzyfy move shuffle self data target nb_iter learning_rate
     = Ok (h, trained self data rules) /\
     Forall (fun item => item.1 = []) rules).
Proof.
  intros Hshuffle Hrect. specialize (Hshuffle data target). split.
  - intros Hne. rewrite decide_False in Hshuffle by assumption.
    unfold train, induce. now rewrite Hshuffle.
  - intros Heq Hzero. rewrite decide_True in Hshuffle by assumption.
    destruct Hshuffle as (data1 & target1 & Hsh & Hshape & Hlen & Hperm).
    assert (Hrows : Forall (fun row => (length row <= 0)%nat) (rows data1)).
    { assert (Hfst : Permutation (rows data1) (rows data)).
      { rewrite <- (fst_zip (rows data1) target1) by lia.
        rewrite <- (fst_zip (rows data) target) by (unfold shape0 in Heq; lia).
        now apply fmap_Permutation. }
      rewrite Hfst. eapply Forall_impl; [exact Hrect |].
      intros row Hrow. simpl in Hrow. lia. }
    destruct (consequents_rules empty_heap data1 target1
                (_min_observations_per_rule self) [[]]) with (rules0 := @nil (list nat * Z))
      as (rules & Hrules & Hkeys & _).
    { unfold shape0. lia. }
    { constructor; [exact Hrows | constructor]. }
    assert (Hempty : Forall (fun item : list nat * Z => item.1 = []) rules).
    { apply Forall_forall. intros [mfs c] Hin.
      assert (Hk : mfs ∈ keys rules).
      { unfold keys. apply list_elem_of_fmap. now exists (mfs, c). }
      apply Hkeys in Hk. destruct Hk as [Hk | [Hk _]]; [inversion Hk |].
      apply list_elem_of_singleton in Hk. exact Hk. }
    exists empty_heap, rules. split; [| exact Hempty].
    unfold train, induce. rewrite Hsh. simpl.
    unfold build_fuzzy_sets. rewrite Hshape, Hzero. simpl.
    simpl in Hrules. rewrite Hrules. simpl. unfold training.
    now rewrite train_passes_no_feature.
Qed.

End Shapes.

Lemma train_rejects_only_length_mismatch_witness :
  train tri_fuzzyfy shift_move checked_shuffle (init 10 1)
        (mkArray 1 [[0]; [7]]) [0%Z] 3 (1 # 10)
  = Raise ValueError /\
  exists h rules,
    train tri_fuzzyfy shift_move checked_shuffle (init 10 1)
          (mkArray 0 [[]; []]) [0%Z; 1%Z] 3 (1 # 10)
    = Ok (h, trained (init 10 1) (mkArray 0 [[]; []]) rules) /\
    Forall (fun item : list nat * Z => item.1 = []) rules.
Proof.
  split.
  - apply (train_rejects_only_length_mismatch tri_fuzzyfy shift_move
             checked_shuffle (init 10 1) (mkArray 1 [[0]; [7]]) [0%Z] 3 (1 # 10)
             checked_shuffle_contract).
    + repeat constructor.
    + discriminate.
  - apply (train_rejects_only_length_mismatch tri_fuzzyfy shift_move
             checked_shuffle (init 10 1) (mkArray 0 [[]; []]) [0%Z; 1%Z] 3
             (1 # 10) checked_shuffle_contract).
    + repeat constructor.
    + reflexivity.
    + reflexivity.
Defined.

(** C9 as worded fails: a matrix with one observation and no feature is
    not rejected; [train] returns the rule of the empty tuple. *)
Lemma zero_features_accepted :
  shape1 (mkArray 0 [[]]) = 0%nat /\
  train tri_fuzzyfy shift_move checked_shuffle (init 10 1)
        (mkArray 0 [[]]) [0%Z] 0 (1 # 10)
  = Ok (empty_heap, mkNFS 0 10 1 (Some [([], 0%Z)])) /\
  ~ rejects_bad_shapes tri_fuzzyfy shift_move checked_shuffle.
Proof.
  split; [reflexivity |].
  assert (Htrain : train tri_fuzzyfy shift_move checked_shuffle (init 10 1)
                         (mkArray 0 [[]]) [0%Z] 0 (1 # 10)
                   = Ok (empty_heap, mkNFS 0 10 1 (Some [([], 0%Z)])))
    by (vm_compute; reflexivity).
  split; [exact Htrain |].
  intros Hclaim.
  destruct (Hclaim (init 10 1) (mkArray 0 [[]]) [0%Z] 0%Z (1 # 10)) as [e He];
    [now right |].
  rewrite Htrain in He. discriminate He.
Qed.

(** * Further properties *)

(** ** What [repair] does to the store *)

Lemma mf_at_collapse (h : heap) (m m' : nat) :
  mf_at (collapse h m) m'
  = if decide (m = m') then collapsed_mf h m else mf_at h m'.
Proof.
  destruct (decide (m = m')) as [<- | Hne]; [| now apply collapse_mf_at_ne].
  unfold collapse, collapsed_mf.
  destruct (le_lt_dec (length (mfs h)) m) as [Hge | Hlt].
  - rewrite list_insert_ge by assumption.
    unfold mf_at. simpl. now rewrite (lookup_ge_None_2 _ _ Hge).
  - now rewrite mf_at_insert_eq.
Qed.

Lemma has_right_same (h h' : heap) (rules : ruleset) (feature m : nat) :
  points h' = points h ->
  (forall o, mid (mf_at h' o) = mid (mf_at h o)) ->
  high (mf_at h' m) = high (mf_at h m) ->
  has_right h' rules feature m = has_right h rules feature m.
Proof.
  intros Hp Hmid Hhigh. unfold has_right.
  induction (keys rules) as [| other others IH]; simpl; [reflexivity |].
  rewrite IH. f_equal. unfold to_the_right.
  destruct (other !! feature) as [o |]; [| reflexivity].
  unfold high_x, mid_x, Point_x. now rewrite Hp, Hmid, Hhigh.
Qed.

Lemma merged_by_snoc (h : heap) (rules : ruleset) (seen : list (nat * nat))
    (v : nat * nat) (m : nat) :
  merged_by h rules (seen ++ [v]) m
  = merged_by h rules seen m || (Nat.eqb v.2 m && has_right h rules v.1 m).
Proof.
  unfold merged_by. rewrite existsb_app. simpl. now rewrite orb_false_r.
Qed.

Lemma run_merges_effect (h0 : heap) (rules : ruleset) (vs : list (nat * nat)) :
  forall (seen : list (nat * nat)) (h' : heap),
    points h' = points h0 ->
    (forall m, mf_at h' m
               = if merged_by h0 rules seen m then collapsed_mf h0 m
                 else mf_at h0 m) ->
    points (run_merges h' rules vs) = points h0 /\
    forall m, mf_at (run_merges h' rules vs) m
              = if merged_by h0 rules (seen ++ vs) m then collapsed_mf h0 m
                else mf_at h0 m.
Proof.
  induction vs as [| [f m0] vs IH]; intros seen h' Hp Hmf.
  - rewrite app_nil_r. now split.
  - change (run_merges h' rules ((f, m0) :: vs))
      with (run_merges (merge h' rules f m0) rules vs).
    replace (seen ++ (f, m0) :: vs) with ((seen ++ [(f, m0)]) ++ vs)
      by now rewrite <- app_assoc.
    assert (Hmid : forall o, mid (mf_at h' o) = mid (mf_at h0 o)).
    { intros o. rewrite Hmf. now destruct (merged_by h0 rules seen o). }
    apply IH.
    + unfold merge. now destruct (has_right h' rules f m0).
    + intros m. rewrite merged_by_snoc. simpl.
      unfold merge.
      destruct (merged_by h0 rules seen m0) eqn:Hseen.
      * assert (Hm0 : forall h2, (h2 = h' \/ h2 = collapse h' m0) ->
                                 mf_at h2 m = mf_at h' m).
        { intros h2 [-> | ->]; [reflexivity |].
          rewrite mf_at_collapse. destruct (decide (m0 = m)) as [<- | Hne];
            [| reflexivity].
          unfold collapsed_mf. rewrite Hmf, Hseen. reflexivity. }
        rewrite (Hm0 (if has_right h' rules f m0 then collapse h' m0 else h'))
          by (destruct (has_right h' rules f m0); auto).
        rewrite Hmf. destruct (Nat.eqb_spec m0 m) as [<- | Hne].
        -- rewrite Hseen. reflexivity.
        -- simpl. now rewrite orb_false_r.
      * rewrite (has_right_same h0 h' rules f m0 Hp Hmid)
          by (rewrite Hmf, Hseen; reflexivity).
        destruct (has_right h0 rules f m0) eqn:Hr.
        -- rewrite mf_at_collapse.
           destruct (decide (m0 = m)) as [<- | Hne].
           ++ rewrite Hseen, Nat.eqb_refl, Hr. simpl.
              unfold collapsed_mf. now rewrite Hmid.
           ++ destruct (Nat.eqb_spec m0 m); [congruence |].
              simpl. rewrite orb_false_r. apply Hmf.
        -- destruct (Nat.eqb_spec m0 m) as [<- | Hne].
           ++ rewrite Hr. simpl. rewrite orb_false_r. apply Hmf.
           ++ simpl. rewrite orb_false_r. apply Hmf.
Qed.

Lemma merged_by_needs_merge (h : heap) (rules : ruleset) (nb_of_features m : nat) :
  Forall (fun rule => (nb_of_features <= length rule)%nat) (keys rules) ->
  merged_by h rules (visits rules (seq 0 nb_of_features)) m = true
  <-> needs_merge h rules nb_of_features m.
Proof.
  intros Hlen. unfold merged_by, needs_merge, visits.
  rewrite existsb_exists. split.
  - intros ([f m'] & Hin & Hv). simpl in Hv.
    apply andb_true_iff in Hv. destruct Hv as [Hm Hr].
    apply Nat.eqb_eq in Hm. subst m'.
    apply in_flat_map in Hin. destruct Hin as (feature & Hf & Hin).
    apply in_map_iff in Hin. destruct Hin as (rule & Heq & Hrule).
    injection Heq as -> Hm. apply in_seq in Hf.
    unfold has_right in Hr. apply existsb_exists in Hr.
    destruct Hr as (other & Hother & Hr). unfold to_the_right in Hr.
    destruct (other !! f) as [o |] eqn:Ho; [| discriminate Hr].
    exists f, rule, other, o.
    assert (Hsome : is_Some (rule !! f)).
    { apply lookup_lt_is_Some.
      apply list_elem_of_In in Hrule.
      apply (proj1 (Forall_forall _ _) Hlen) in Hrule. simpl in *. lia. }
    destruct Hsome as [m' Hm']. rewrite Hm' in Hm. simpl in Hm. subst m'.
    repeat split; try (now apply list_elem_of_In); try assumption; try lia.
    now apply Qltb_lt.
  - intros (f & rule & other & o & Hf & Hrule & Hm & Hother & Ho & Hlt).
    exists (f, m). split.
    + apply in_flat_map. exists f. split; [apply in_seq; lia |].
      apply in_map_iff. exists rule. rewrite Hm. simpl.
      split; [reflexivity | now apply list_elem_of_In].
    + simpl. rewrite Nat.eqb_refl. simpl.
      unfold has_right. apply existsb_exists. exists other.
      split; [now apply list_elem_of_In |].
      unfold to_the_right. rewrite Ho. now apply Qltb_lt.
Qed.

(** X1.  [repair] moves no vertex and rebinds no [mid]: a fuzzy set that a
    rule uses on a feature where some rule has its [mid] to the right of
    the set's [high] ends with its three vertices bound to its own [mid]
    vertex, and every other fuzzy set is left as it was. *)
Theorem repair_effect (h : heap) (rules : ruleset) (nb_of_features : nat) :
  Forall (fun rule => (nb_of_features <= length rule)%nat) (keys rules) ->
  exists h1,
    repair h rules nb_of_features = Ok h1 /\
    points h1 = points h /\
    forall m,
      (needs_merge h rules nb_of_features m -> mf_at h1 m = collapsed_mf h m) /\
      (~ needs_merge h rules nb_of_features m -> mf_at h1 m = mf_at h m).
Proof.
  intros Hlen. eexists. split.
  { unfold repair. apply repair_features_run. now apply long_rules_indexable. }
  destruct (run_merges_effect h rules (visits rules (seq 0 nb_of_features)) [] h)
    as [Hp Hmf]; [reflexivity | reflexivity |].
  split; [exact Hp |]. intros m. rewrite Hmf. simpl.
  pose proof (merged_by_needs_merge h rules nb_of_features m Hlen) as Hiff.
  destruct (merged_by h rules (visits rules (seq 0 nb_of_features)) m).
  - split; [reflexivity |]. intros Hn. exfalso. apply Hn. now apply Hiff.
  - split; [| reflexivity]. intros Hn. apply Hiff in Hn. discriminate Hn.
Qed.

Lemma repair_effect_witness :
  exists h1,
    repair unit_heap [([0%nat], 0%Z); ([2%nat], 1%Z); ([3%nat], 1%Z)] 1 = Ok h1 /\
    points h1 = points unit_heap /\
    mf_at h1 0 = mkMF 1 1 1 /\ mf_at h1 3 = mkMF 3 4 5.
Proof.
  assert (Hlen : Forall (fun rule => (1 <= length rule)%nat)
            (keys [([0%nat], 0%Z); ([2%nat], 1%Z); ([3%nat], 1%Z)]))
    by (repeat constructor).
  destruct (repair_effect unit_heap
              [([0%nat], 0%Z); ([2%nat], 1%Z); ([3%nat], 1%Z)] 1 Hlen)
    as (h1 & Hr & Hp & Hmf).
  exists h1. split; [exact Hr |]. split; [exact Hp |]. split.
  - apply (proj1 (Hmf 0%nat)).
    apply (merged_by_needs_merge _ _ _ _ Hlen). vm_compute. reflexivity.
  - apply (proj2 (Hmf 3%nat)). intros Hn.
    apply (merged_by_needs_merge _ _ _ _ Hlen) in Hn. vm_compute in Hn.
    discriminate Hn.
Defined.

(** X2.  [repair] never widens a fuzzy set: the [mid] position of every
    fuzzy set is kept, and a fuzzy set with [low.x <= mid.x <= high.x]
    keeps that order, its [low.x] does not decrease and its [high.x] does
    not increase. *)
Theorem repair_never_widens (h : heap) (rules : ruleset) (nb_of_features : nat) :
  Forall (fun rule => (nb_of_features <= length rule)%nat) (keys rules) ->
  exists h1,
    repair h rules nb_of_features = Ok h1 /\
    forall m,
      mid_x h1 m = mid_x h m /\
      (ordered h m ->
       ordered h1 m /\ low_x h m <= low_x h1 m /\ high_x h1 m <= high_x h m).
Proof.
  intros Hlen. eexists. split.
  { unfold repair. apply repair_features_run. now apply long_rules_indexable. }
  destruct (run_merges_effect h rules (visits rules (seq 0 nb_of_features)) [] h)
    as [Hp Hmf]; [reflexivity | reflexivity |].
  intros m. unfold ordered, low_x, mid_x, high_x, Point_x.
  rewrite Hp, Hmf. simpl.
  destruct (merged_by h rules (visits rules (seq 0 nb_of_features)) m); simpl.
  - split; [reflexivity |]. intros [Hlow Hhigh]. repeat split; lra.
  - split; [reflexivity |]. intros [Hlow Hhigh]. repeat split; lra.
Qed.

Lemma repair_never_widens_witness :
  exists h1,
    repair unit_heap [([0%nat], 0%Z); ([2%nat], 1%Z); ([3%nat], 1%Z)] 1 = Ok h1 /\
    mid_x h1 0 = mid_x unit_heap 0 /\
    ordered h1 0 /\ low_x unit_heap 0 <= low_x h1 0 /\
    high_x h1 0 <= high_x unit_heap 0.
Proof.
  destruct (repair_never_widens unit_heap
              [([0%nat], 0%Z); ([2%nat], 1%Z); ([3%nat], 1%Z)] 1)
    as (h1 & Hr & Hall).
  - repeat constructor.
  - exists h1. split; [exact Hr |]. destruct (Hall 0%nat) as [Hmid Hord].
    split; [exact Hmid |]. apply Hord. split; discriminate.
Defined.

(** ** The fuzzy sets of one feature *)

Lemma lookup_app_plus {A : Type} (l k : list A) (i : nat) :
  (l ++ k) !! (length l + i)%nat = k !! i.
Proof.
  rewrite lookup_app_r by lia. f_equal. lia.
Qed.

Lemma build_feature_layout (h : heap) (data : ndarray) (feat_index : nat)
    (min_obs max_obs : Q) :
  np_min (column data feat_index) = Ok min_obs ->
  np_max (column data feat_index) = Ok max_obs ->
  build_feature h data feat_index
  = Ok (mkHeap (points h ++ map (break_point min_obs max_obs) (seq 0 7))
               (mfs h ++ map (fun n => mkMF (length (points h) + n)
                                            (length (points h) + (n + 1))
                                            (length (points h) + (n + 2)))
                             (seq 0 5)),
        map (fun i => (length (mfs h) + i)%nat) (seq 0 5)).
Proof.
  intros Hmin Hmax. unfold build_feature. rewrite Hmin, Hmax. simpl mbind.
  unfold mret, result_ret. rewrite !length_app. simpl.
  rewrite <- !app_assoc. simpl.
  repeat (f_equal; try lia).
Qed.

Lemma build_feature_Ok_inv (h h1 : heap) (data : ndarray) (feat_index : nat)
    (splits : list nat) :
  build_feature h data feat_index = Ok (h1, splits) ->
  exists min_obs max_obs,
    np_min (column data feat_index) = Ok min_obs /\
    np_max (column data feat_index) = Ok max_obs.
Proof.
  unfold build_feature. intros Hb.
  destruct (np_min (column data feat_index)) as [lo |]; [| discriminate Hb].
  destruct (np_max (column data feat_index)) as [hi |]; [| discriminate Hb].
  exists lo, hi. split; reflexivity.
Qed.

Lemma mf_at_app_new (ps : list Q) (ms ms' : list MF) (i : nat) :
  mf_at (mkHeap ps (ms ++ ms')) (length ms + i)
  = default (mkMF 0 0 0) (ms' !! i).
Proof. unfold mf_at. simpl. now rewrite lookup_app_plus. Qed.

Lemma Point_x_app_new (ps ps' : list Q) (ms : list MF) (i : nat) :
  Point_x (mkHeap (ps ++ ps') ms) (length ps + i) = default 0 (ps' !! i).
Proof. unfold Point_x. simpl. now rewrite lookup_app_plus. Qed.

(** X3.  The five fuzzy sets built for a feature stand on the seven break
    points [min + n * (max - min) / 7]: the set number [n] has its [low],
    [mid] and [high] at the break points [n], [n + 1] and [n + 2], and
    neighbouring sets share their vertex objects: the [high] of a set is
    the [mid] of the next one and its [mid] is the [low] of the next one.
    The objects that existed before are left as they were. *)
Theorem build_feature_vertices (h h1 : heap) (data : ndarray)
    (feat_index : nat) (splits : list nat) :
  build_feature h data feat_index = Ok (h1, splits) ->
  exists min_obs max_obs,
    np_min (column data feat_index) = Ok min_obs /\
    np_max (column data feat_index) = Ok max_obs /\
    length splits = 5%nat /\
    (forall n m,
        splits !! n = Some m ->
        low_x h1 m = break_point min_obs max_obs n /\
        mid_x h1 m = break_point min_obs max_obs (n + 1) /\
        high_x h1 m = break_point min_obs max_obs (n + 2) /\
        forall m', splits !! S n = Some m' ->
                   high (mf_at h1 m) = mid (mf_at h1 m') /\
                   mid (mf_at h1 m) = low (mf_at h1 m')) /\
    (forall p, (p < length (points h))%nat -> Point_x h1 p = Point_x h p) /\
    (forall m, (m < length (mfs h))%nat -> mf_at h1 m = mf_at h m).
Proof.
  intros Hb.
  destruct (build_feature_Ok_inv h h1 data feat_index splits Hb)
    as (lo & hi & Hmin & Hmax).
  exists lo, hi. split; [exact Hmin |]. split; [exact Hmax |].
  rewrite (build_feature_layout h data feat_index lo hi Hmin Hmax) in Hb.
  injection Hb as <- <-. split; [reflexivity |]. split; [| split].
  - intros n m Hn.
    destruct n as [| [| [| [| [| n]]]]]; simpl in Hn; try discriminate Hn;
      injection Hn as <-;
      unfold low_x, mid_x, high_x; rewrite !mf_at_app_new; simpl;
      rewrite !Point_x_app_new; simpl;
      (split; [reflexivity |]); (split; [reflexivity |]);
      (split; [reflexivity |]);
      intros m' Hm'; simpl in Hm'; try discriminate Hm';
      injection Hm' as <-; rewrite !mf_at_app_new; simpl; split; reflexivity.
  - intros p Hp. unfold Point_x. simpl. now rewrite lookup_app_l.
  - intros m Hm. unfold mf_at. simpl. now rewrite lookup_app_l.
Qed.

Lemma build_feature_vertices_witness :
  exists h1 splits,
    build_feature unit_heap (mkArray 1 [[2]; [9]]) 0 = Ok (h1, splits) /\
    length splits = 5%nat /\
    mf_at h1 5 = mkMF 7 8 9 /\ mf_at h1 6 = mkMF 8 9 10 /\
    low_x h1 6 = break_point 2 9 1 /\ mf_at h1 0 = mkMF 0 1 2.
Proof.
  destruct (build_feature unit_heap (mkArray 1 [[2]; [9]]) 0)
    as [[h1 splits] |] eqn:Hb; [| discriminate Hb].
  exists h1, splits. split; [reflexivity |].
  destruct (build_feature_vertices unit_heap h1 (mkArray 1 [[2]; [9]]) 0
              splits Hb)
    as (lo & hi & Hmin & Hmax & Hlen & Hvert & _ & Hold).
  vm_compute in Hmin. vm_compute in Hmax.
  injection Hmin as <-. injection Hmax as <-.
  vm_compute in Hb. injection Hb as <- <-.
  split; [exact Hlen |]. split; [reflexivity |]. split; [reflexivity |].
  split.
  - apply (Hvert 1%nat 6%nat). reflexivity.
  - rewrite Hold; [reflexivity | simpl; lia].
Defined.

Lemma fold_Qmin_le (l : list Q) :
  forall v, fold_left Qmin l v <= v /\ Forall (fun w => fold_left Qmin l v <= w) l.
Proof.
  induction l as [| w l IH]; intros v; simpl.
  - split; [lra | constructor].
  - destruct (IH (Qmin v w)) as [Hv Hall].
    pose proof (Q.le_min_l v w). pose proof (Q.le_min_r v w).
    split; [lra |]. constructor; [lra | exact Hall].
Qed.

Lemma fold_Qmax_ge (l : list Q) :
  forall v, v <= fold_left Qmax l v /\ Forall (fun w => w <= fold_left Qmax l v) l.
Proof.
  induction l as [| w l IH]; intros v; simpl.
  - split; [lra | constructor].
  - destruct (IH (Qmax v w)) as [Hv Hall].
    pose proof (Q.le_max_l v w). pose proof (Q.le_max_r v w).
    split; [lra |]. constructor; [lra | exact Hall].
Qed.

Lemma fold_Qmin_glb (c : Q) (l : list Q) :
  forall v, c <= v -> Forall (fun w => c <= w) l -> c <= fold_left Qmin l v.
Proof.
  induction l as [| w l IH]; intros v Hv Hall; simpl; [exact Hv |].
  apply Forall_cons in Hall. destruct Hall as [Hw Hall].
  apply IH; [now apply Q.min_glb | exact Hall].
Qed.

Lemma fold_Qmax_lub (c : Q) (l : list Q) :
  forall v, v <= c -> Forall (fun w => w <= c) l -> fold_left Qmax l v <= c.
Proof.
  induction l as [| w l IH]; intros v Hv Hall; simpl; [exact Hv |].
  apply Forall_cons in Hall. destruct Hall as [Hw Hall].
  apply IH; [now apply Q.max_lub | exact Hall].
Qed.

Lemma np_min_le (a : list Q) (lo : Q) :
  np_min a = Ok lo -> Forall (fun v => lo <= v) a.
Proof.
  destruct a as [| v a]; simpl; [discriminate |]. intros [= <-].
  destruct (fold_Qmin_le a v). now constructor.
Qed.

Lemma np_max_ge (a : list Q) (hi : Q) :
  np_max a = Ok hi -> Forall (fun v => v <= hi) a.
Proof.
  destruct a as [| v a]; simpl; [discriminate |]. intros [= <-].
  destruct (fold_Qmax_ge a v). now constructor.
Qed.

Lemma np_min_le_np_max (a : list Q) (lo hi : Q) :
  np_min a = Ok lo -> np_max a = Ok hi -> lo <= hi.
Proof.
  intros Hlo Hhi. destruct a as [| v a]; [discriminate Hlo |].
  apply np_min_le in Hlo. apply np_max_ge in Hhi.
  apply Forall_cons in Hlo, Hhi. destruct Hlo, Hhi. lra.
Qed.

Lemma break_point_constant (lo hi : Q) (n : nat) :
  lo == hi -> break_point lo hi n == lo.
Proof.
  intros Heq. unfold break_point. assert (Hz : hi - lo == 0) by lra.
  rewrite Hz. unfold Qdiv. rewrite Qmult_0_r, Qmult_0_l. lra.
Qed.

Lemma build_feature_positions (h h1 : heap) (data : ndarray) (feat_index : nat)
    (splits : list nat) (lo hi : Q) :
  build_feature h data feat_index = Ok (h1, splits) ->
  np_min (column data feat_index) = Ok lo ->
  np_max (column data feat_index) = Ok hi ->
  forall m, m ∈ splits ->
    exists n, (n < 5)%nat /\
      low_x h1 m = break_point lo hi n /\
      mid_x h1 m = break_point lo hi (n + 1) /\
      high_x h1 m = break_point lo hi (n + 2).
Proof.
  intros Hb Hmin Hmax m Hm.
  rewrite (build_feature_layout h data feat_index lo hi Hmin Hmax) in Hb.
  injection Hb as <- <-.
  apply list_elem_of_lookup in Hm. destruct Hm as [n Hn].
  exists n.
  destruct n as [| [| [| [| [| n]]]]]; simpl in Hn; try discriminate Hn;
    injection Hn as <-; (split; [lia |]);
    unfold low_x, mid_x, high_x; rewrite !mf_at_app_new; simpl;
    rewrite !Point_x_app_new; simpl; repeat split; reflexivity.
Qed.

(** X5.  A constant feature is tolerated: when every value of the column
    equals [c], the five fuzzy sets are built (nothing is divided by the
    width of the range) with all their vertices at [c]. *)
Theorem constant_feature_sets (h : heap) (data : ndarray) (feat_index : nat)
    (c : Q) :
  rows data <> [] ->
  Forall (fun v => v == c) (column data feat_index) ->
  exists h1 splits,
    build_feature h data feat_index = Ok (h1, splits) /\
    length splits = 5%nat /\
    forall m, m ∈ splits ->
      low_x h1 m == c /\ mid_x h1 m == c /\ high_x h1 m == c.
Proof.
  intros Hrows Hall.
  assert (Hne : column data feat_index <> []).
  { unfold column. destruct (rows data); [congruence | discriminate]. }
  destruct (column data feat_index) as [| v col] eqn:Hcol; [congruence |].
  assert (Hmin : np_min (column data feat_index) = Ok (fold_left Qmin col v))
    by now rewrite Hcol.
  assert (Hmax : np_max (column data feat_index) = Ok (fold_left Qmax col v))
    by now rewrite Hcol.
  set (lo := fold_left Qmin col v) in *. set (hi := fold_left Qmax col v) in *.
  pose proof (build_feature_layout h data feat_index lo hi Hmin Hmax) as Hb.
  eexists _, _. split; [exact Hb |]. split; [reflexivity |].
  assert (Hlo : lo == c /\ hi == c).
  { assert (H1 := np_min_le _ _ Hmin). assert (H2 := np_max_ge _ _ Hmax).
    assert (H3 := np_min_le_np_max _ _ _ Hmin Hmax).
    rewrite Hcol in H1, H2. apply Forall_cons in H1, H2, Hall.
    destruct H1 as [H1 _], H2 as [H2 _], Hall as [Hv Hall].
    assert (H4 : c <= lo).
    { apply fold_Qmin_glb; [lra |].
      eapply Forall_impl; [exact Hall |]. intros w Hw. simpl in Hw. lra. }
    assert (H5 : hi <= c).
    { apply fold_Qmax_lub; [lra |].
      eapply Forall_impl; [exact Hall |]. intros w Hw. simpl in Hw. lra. }
    split; lra. }
  destruct Hlo as [Hlo Hhi]. intros m Hm.
  destruct (build_feature_positions h _ data feat_index _ lo hi Hb Hmin Hmax m Hm)
    as (n & Hn & Hlow & Hmid & Hhigh).
  rewrite Hlow, Hmid, Hhigh.
  rewrite !break_point_constant by lra. repeat split; exact Hlo.
Qed.

Lemma constant_feature_sets_witness :
  exists h1 splits,
    build_feature empty_heap (mkArray 1 [[3]; [3]; [3]]) 0 = Ok (h1, splits) /\
    length splits = 5%nat /\
    forall m, m ∈ splits -> low_x h1 m == 3 /\ mid_x h1 m == 3 /\ high_x h1 m == 3.
Proof.
  apply (constant_feature_sets empty_heap (mkArray 1 [[3]; [3]; [3]]) 0 3).
  - discriminate.
  - repeat constructor.
Defined.

(** ** The grid of rule candidates *)

Lemma product_count {A : Type} (ls : list (list A)) :
  length (product ls) = fold_right (fun l acc => (length l * acc)%nat) 1%nat ls.
Proof.
  induction ls as [| l ls IH]; simpl; [reflexivity |].
  rewrite <- IH. clear IH.
  induction l as [| a l IHl]; simpl; [reflexivity |].
  rewrite length_app, length_map, IHl. reflexivity.
Qed.

Lemma build_features_splits (data : ndarray) (feats : list nat) :
  forall h h1 mfs,
    build_features h data feats = Ok (h1, mfs) ->
    Forall (fun splits => length splits = 5%nat) mfs.
Proof.
  induction feats as [| feat feats IH]; intros h h1 mfs Hb; simpl in Hb.
  - injection Hb as _ <-. constructor.
  - destruct (build_feature h data feat) as [[h2 splits] |] eqn:Hf;
      [| discriminate Hb].
    simpl in Hb.
    destruct (build_features h2 data feats) as [[h3 rest] |] eqn:Hrest;
      [| discriminate Hb].
    simpl in Hb. injection Hb as _ <-.
    constructor; [| now apply (IH h2 h3)].
    destruct (build_feature_Ok_inv _ _ _ _ _ Hf) as (lo & hi & Hmin & Hmax).
    rewrite (build_feature_layout h data feat lo hi Hmin Hmax) in Hf.
    now injection Hf as _ <-.
Qed.

(** X6.  The grid has one candidate per combination of the five fuzzy
    sets of each feature: [5 ^ n] candidates for [n] features, each a tuple
    of [n] fuzzy sets. *)
Theorem grid_size (data : ndarray) (h : heap) (mfs : list (list nat)) :
  build_fuzzy_sets data = Ok (h, mfs) ->
  length (product mfs) = (5 ^ shape1 data)%nat /\
  Forall (fun cell => length cell = shape1 data) (product mfs).
Proof.
  intros Hb. unfold build_fuzzy_sets in Hb.
  pose proof (build_features_length _ _ _ _ _ Hb) as Hlen.
  rewrite length_seq in Hlen.
  apply build_features_splits in Hb. split.
  - rewrite product_count, <- Hlen. clear Hlen.
    induction Hb as [| splits mfs Hs _ IH]; simpl; [reflexivity |].
    rewrite Hs, IH. lia.
  - apply Forall_forall. intros cell Hcell.
    apply product_length in Hcell. lia.
Qed.

Lemma grid_size_witness :
  exists h mfs,
    build_fuzzy_sets (mkArray 2 [[0; 1]; [7; 3]]) = Ok (h, mfs) /\
    length (product mfs) = 25%nat /\
    Forall (fun cell => length cell = 2%nat) (product mfs).
Proof.
  eexists _, _. split; [vm_compute; reflexivity |].
  eapply (grid_size (mkArray 2 [[0; 1]; [7; 3]])). vm_compute. reflexivity.
Defined.

Lemma consequent_cases (h : heap) (data : ndarray) (target : list Z)
    (min_observations_per_rule : Z) (rules r : ruleset) (cell : list nat) :
  consequent h data target min_observations_per_rule rules cell = Ok r ->
  r = rules \/ exists c, r = dict_set rules cell c.
Proof.
  unfold consequent. intros Hc.
  destruct (count_loop h data target cell (seq 0 (shape0 data)) [])
    as [classes |]; [| discriminate Hc].
  simpl in Hc. destruct classes as [| kn classes].
  - injection Hc as <-. now left.
  - destruct (py_max (zip (values (kn :: classes)) (keys (kn :: classes))))
      as [[nb c] |]; [| discriminate Hc].
    simpl in Hc.
    destruct (min_observations_per_rule <=? nb)%Z; injection Hc as <-;
      [right; now exists c | now left].
Qed.

Lemma consequents_keys (h : heap) (data : ndarray) (target : list Z)
    (min_observations_per_rule : Z) (cells : list (list nat)) :
  forall rules0 rules,
    consequents h data target min_observations_per_rule rules0 cells = Ok rules ->
    NoDup (keys rules0) ->
    NoDup (keys rules) /\
    forall cell, cell ∈ keys rules -> cell ∈ keys rules0 \/ cell ∈ cells.
Proof.
  induction cells as [| cell0 cells IH]; intros rules0 rules Hc Hnd;
    simpl in Hc.
  - injection Hc as <-. split; [exact Hnd | auto].
  - destruct (consequent h data target min_observations_per_rule rules0 cell0)
      as [rules1 |] eqn:H1; [| discriminate Hc].
    simpl in Hc. apply consequent_cases in H1.
    destruct H1 as [-> | [c ->]].
    + destruct (IH rules0 rules Hc Hnd) as [Hnd' Hsub].
      split; [exact Hnd' |]. intros cell Hin.
      destruct (Hsub cell Hin); [now left | right; now right].
    + destruct (IH _ rules Hc (dict_set_NoDup rules0 cell0 c Hnd))
        as [Hnd' Hsub].
      split; [exact Hnd' |]. intros cell Hin.
      destruct (Hsub cell Hin) as [Hk | Hk]; [| right; now right].
      apply keys_dict_set in Hk.
      destruct Hk as [-> | Hk]; [right; left | now left].
Qed.


Lemma product_NoDup {A : Type} (ls : list (list A)) :
  Forall NoDup ls -> NoDup (product ls).
Proof.
  induction 1 as [| l ls Hl _ IH]; simpl; [apply NoDup_singleton |].
  induction l as [| a l IHl]; simpl; [constructor |].
  apply NoDup_cons in Hl. destruct Hl as [Ha Hl].
  apply NoDup_app. split; [| split].
  - apply (NoDup_fmap_2 (cons a));
      first [exact IH | intros x y Hxy; now injection Hxy].
  - intros x Hx Hx'.
    apply list_elem_of_In, in_map_iff in Hx. destruct Hx as (p & <- & _).
    apply list_elem_of_In, in_flat_map in Hx'.
    destruct Hx' as (a' & Ha' & Hin). apply in_map_iff in Hin.
    destruct Hin as (p' & Heq & _). injection Heq as -> _.
    apply Ha. now apply list_elem_of_In.
  - now apply IHl.
Qed.

Lemma build_features_NoDup (data : ndarray) (feats : list nat) :
  forall h h1 mfs,
    build_features h data feats = Ok (h1, mfs) -> Forall NoDup mfs.
Proof.
  induction feats as [| feat feats IH]; intros h h1 mfs Hb; simpl in Hb.
  - injection Hb as _ <-. constructor.
  - destruct (build_feature h data feat) as [[h2 splits] |] eqn:Hf;
      [| discriminate Hb].
    simpl in Hb.
    destruct (build_features h2 data feats) as [[h3 rest] |] eqn:Hrest;
      [| discriminate Hb].
    simpl in Hb. injection Hb as _ <-.
    constructor; [| now apply (IH h2 h3)].
    destruct (build_feature_Ok_inv _ _ _ _ _ Hf) as (lo & hi & Hmin & Hmax).
    rewrite (build_feature_layout h data feat lo hi Hmin Hmax) in Hf.
    injection Hf as _ <-.
    change (NoDup ((fun i => (length (mfs h) + i)%nat) <$> seq 0 5)).
    assert (Hinj : Inj (=) (=) (fun i : nat => (length (mfs h) + i)%nat))
      by (intros x y Hxy; simpl in Hxy; lia).
    apply (NoDup_fmap_2 _). apply NoDup_seq.
Qed.

Lemma keys_dict_set_new {K V : Type} `{EqDecision K} (d : dict K V) (k : K) (v : V) :
  k ∉ keys d -> keys (dict_set d k v) = keys d ++ [k].
Proof.
  unfold keys. induction d as [| [k0 v0] d IH]; simpl; intros Hk;
    [reflexivity |].
  apply not_elem_of_cons in Hk. destruct Hk as [Hne Hk].
  rewrite decide_False by congruence. simpl. now rewrite IH.
Qed.

Lemma consequents_in_order (h : heap) (data : ndarray) (target : list Z)
    (min_observations_per_rule : Z) (cells : list (list nat)) :
  NoDup cells ->
  forall rules0 rules,
    consequents h data target min_observations_per_rule rules0 cells = Ok rules ->
    (forall cell, cell ∈ keys rules0 -> cell ∉ cells) ->
    exists ks, keys rules = keys rules0 ++ ks /\ ks `sublist_of` cells.
Proof.
  induction 1 as [| cell0 cells Hnotin Hnd IH]; intros rules0 rules Hc Hfresh;
    simpl in Hc.
  - injection Hc as <-. exists []. split; [now rewrite app_nil_r | constructor].
  - destruct (consequent h data target min_observations_per_rule rules0 cell0)
      as [rules1 |] eqn:H1; [| discriminate Hc].
    simpl in Hc. apply consequent_cases in H1.
    destruct H1 as [-> | [c ->]].
    + destruct (IH rules0 rules Hc) as (ks & Hks & Hsub).
      { intros cell Hin Hin'. apply (Hfresh cell Hin). now right. }
      exists ks. split; [exact Hks | now apply sublist_cons].
    + assert (Hnew : cell0 ∉ keys rules0).
      { intros Hin. apply (Hfresh cell0 Hin). left. }
      destruct (IH _ rules Hc) as (ks & Hks & Hsub).
      { intros cell Hin Hin'. rewrite keys_dict_set_new in Hin by assumption.
        apply elem_of_app in Hin. destruct Hin as [Hin | Hin].
        - apply (Hfresh cell Hin). now right.
        - apply list_elem_of_singleton in Hin. subst cell.
          apply Hnotin. now apply list_elem_of_In. }
      rewrite keys_dict_set_new in Hks by assumption.
      exists (cell0 :: ks). split; [now rewrite Hks, <- app_assoc |].
      now apply sublist_skip.
Qed.

(** X7.  Whatever the data, the rules that [train] induces are cells of
    the grid, enumerated in the order of the grid: every rule has exactly
    one fuzzy set per feature, no tuple occurs twice, and there are at most
    [5 ^ n] rules for [n] features ([max_rules] puts no bound on them). *)
Theorem induced_rules_are_cells
    (shuffle : ndarray -> list Z -> result (ndarray * list Z))
    (min_observations_per_rule : Z) (data data1 : ndarray)
    (target target1 : list Z) (h1 : heap) (rules : ruleset) :
  induce shuffle min_observations_per_rule data target
  = Ok (data1, target1, h1, rules) ->
  NoDup (keys rules) /\
  Forall (fun rule => length rule = shape1 data1) (keys rules) /\
  (length rules <= 5 ^ shape1 data1)%nat /\
  exists h mfs,
    build_fuzzy_sets data1 = Ok (h, mfs) /\
    keys rules `sublist_of` product mfs.
Proof.
  intros Hi.
  destruct (induce_steps shuffle _ _ _ _ _ _ _ Hi)
    as (h & mfs & _ & Hb & Hc & _).
  assert (Hnd : NoDup (product mfs)).
  { apply product_NoDup. unfold build_fuzzy_sets in Hb.
    now apply build_features_NoDup in Hb. }
  destruct (consequents_in_order _ _ _ _ _ Hnd _ _ Hc) as (ks & Hks & Hsub).
  { intros cell Hin. inversion Hin. }
  simpl in Hks. rewrite <- Hks in Hsub.
  destruct (grid_size data1 h mfs Hb) as [Hsize Hlen].
  split; [now apply (sublist_NoDup (keys rules) (product mfs)) |]. split; [| split].
  - apply Forall_forall. intros cell Hin.
    apply (proj1 (Forall_forall _ _) Hlen).
    now apply (sublist_subseteq _ _ Hsub).
  - rewrite <- Hsize. unfold keys in *.
    rewrite <- (length_map fst rules). now apply sublist_length.
  - exists h, mfs. split; [exact Hb | exact Hsub].
Qed.

Lemma induced_rules_are_cells_witness :
  exists h1 rules,
    induce checked_shuffle 1 gap_data gap_target
    = Ok (gap_data, gap_target, h1, rules) /\
    NoDup (keys rules) /\
    Forall (fun rule => length rule = 1%nat) (keys rules) /\
    (length rules <= 5)%nat.
Proof.
  eexists _, _. split; [vm_compute; reflexivity |].
  edestruct (induced_rules_are_cells checked_shuffle 1 gap_data gap_data
               gap_target gap_target) as (Hnd & Hlen & Hcount & _);
    [vm_compute; reflexivity |].
  split; [exact Hnd |]. split; [exact Hlen | exact Hcount].
Defined.

Lemma consequents_get (h : heap) (data : ndarray) (target : list Z)
    (min_observations_per_rule : Z) (cells : list (list nat)) :
  (shape0 data <= length target)%nat ->
  Forall (fun cell => Forall (fun row => (length row <= length cell)%nat)
                             (rows data)) cells ->
  forall rules0 : ruleset,
  exists rules,
    consequents h data target min_observations_per_rule rules0 cells = Ok rules /\
    forall cell,
      dict_get rules cell
      = match (if decide (cell ∈ cells)
               then label h data target min_observations_per_rule cell
               else None) with
        | Some c => Some c
        | None => dict_get rules0 cell
        end.
Proof.
  intros Htarget Hcells.
  induction Hcells as [| cell0 cells Hcell0 _ IH]; intros rules0.
  - exists rules0. split; [reflexivity |]. intros cell.
    destruct (decide (cell ∈ [])) as [Hin | _]; [inversion Hin | reflexivity].
  - cbn [consequents].
    rewrite (consequent_label h data target min_observations_per_rule rules0
               cell0 Htarget Hcell0). simpl.
    destruct (IH (match label h data target min_observations_per_rule cell0 with
                  | Some c => dict_set rules0 cell0 c
                  | None => rules0
                  end)) as (rules & Hrules & Hget).
    exists rules. split; [exact Hrules |]. intros cell. rewrite Hget.
    destruct (decide (cell ∈ cells)) as [Hin | Hnotin].
    + rewrite decide_True by now right.
      destruct (label h data target min_observations_per_rule cell) as [c |]
        eqn:Hl; [reflexivity |].
      destruct (label h data target min_observations_per_rule cell0) as [c0 |]
        eqn:Hl0; [| reflexivity].
      rewrite dict_get_set. rewrite decide_False; [reflexivity | congruence].
    + destruct (decide (cell0 = cell)) as [-> | Hne].
      * rewrite decide_True by left.
        destruct (label h data target min_observations_per_rule cell) as [c |];
          [| reflexivity].
        rewrite dict_get_set. now rewrite decide_True.
      * rewrite decide_False.
        2:{ intros Hin. apply elem_of_cons in Hin.
            destruct Hin as [-> | Hin]; [congruence | contradiction]. }
        destruct (label h data target min_observations_per_rule cell0) as [c0 |];
          [| reflexivity].
        rewrite dict_get_set. now rewrite decide_False.
Qed.

Lemma label_mono (h : heap) (data : ndarray) (target : list Z)
    (min1 min2 : Z) (cell : list nat) (c : Z) :
  (min1 <= min2)%Z ->
  label h data target min2 cell = Some c ->
  label h data target min1 cell = Some c.
Proof.
  intros Hle. unfold label.
  destruct (tally h cell (zip (rows data) target) []) as [| kn classes];
    [discriminate |].
  destruct (py_max (zip (values (kn :: classes)) (keys (kn :: classes))))
    as [[nb c'] |]; [| discriminate].
  destruct (Z.leb_spec min2 nb); [| discriminate]. intros [= <-].
  destruct (Z.leb_spec min1 nb); [reflexivity | lia].
Qed.

(** X8.  Raising [min_observations_per_rule] can only remove rules: every
    rule induced with the greater threshold is induced, with the same
    class, with the smaller one. *)
Theorem threshold_monotone (h : heap) (data : ndarray) (target : list Z)
    (min1 min2 : Z) (cells : list (list nat)) :
  (shape0 data <= length target)%nat ->
  Forall (fun cell => Forall (fun row => (length row <= length cell)%nat)
                             (rows data)) cells ->
  (min1 <= min2)%Z ->
  exists rules1 rules2,
    consequents h data target min1 [] cells = Ok rules1 /\
    consequents h data target min2 [] cells = Ok rules2 /\
    (forall cell c, dict_get rules2 cell = Some c ->
                    dict_get rules1 cell = Some c) /\
    (length rules2 <= length rules1)%nat.
Proof.
  intros Htarget Hcells Hle.
  destruct (consequents_get h data target min1 cells Htarget Hcells [])
    as (rules1 & H1 & Hget1).
  destruct (consequents_get h data target min2 cells Htarget Hcells [])
    as (rules2 & H2 & Hget2).
  exists rules1, rules2. split; [exact H1 |]. split; [exact H2 |].
  assert (Hsub : forall cell c, dict_get rules2 cell = Some c ->
                                dict_get rules1 cell = Some c).
  { intros cell c Hc. rewrite Hget2 in Hc. rewrite Hget1.
    destruct (decide (cell ∈ cells)); [| discriminate Hc].
    destruct (label h data target min2 cell) as [c2 |] eqn:Hl2;
      [| discriminate Hc].
    injection Hc as ->.
    now rewrite (label_mono h data target min1 min2 cell c Hle Hl2). }
  split; [exact Hsub |].
  destruct (consequents_keys _ _ _ _ _ _ _ H2) as [Hnd2 _]; [constructor |].
  unfold keys in *.
  rewrite <- (length_map fst rules2), <- (length_map fst rules1).
  apply submseteq_length. apply NoDup_submseteq; [exact Hnd2 |].
  intros cell Hin.
  destruct (dict_get rules2 cell) as [c |] eqn:Hc.
  - apply Hsub in Hc. apply dict_get_elem in Hc.
    apply list_elem_of_fmap. now exists (cell, c).
  - apply dict_get_None_keys in Hc. contradiction.
Qed.

Lemma threshold_monotone_witness :
  exists rules1 rules2,
    consequents unit_heap gap_data gap_target 1 []
                [[0%nat]; [1%nat]; [2%nat]; [3%nat]; [4%nat]] = Ok rules1 /\
    consequents unit_heap gap_data gap_target 2 []
                [[0%nat]; [1%nat]; [2%nat]; [3%nat]; [4%nat]] = Ok rules2 /\
    (length rules2 <= length rules1)%nat.
Proof.
  destruct (threshold_monotone unit_heap gap_data gap_target 1 2
              [[0%nat]; [1%nat]; [2%nat]; [3%nat]; [4%nat]])
    as (rules1 & rules2 & H1 & H2 & _ & Hlen).
  - cbv. lia.
  - repeat constructor.
  - lia.
  - exists rules1, rules2. split; [exact H1 |]. split; [exact H2 | exact Hlen].
Defined.

(** ** Training and evaluation on the edges *)

Section Edges.

Variable fuzzyfy : heap -> nat -> Q -> Q.
Variable move : heap -> nat -> Q -> Q -> bool -> heap.
Variable metrics : Metrics.

Lemma train_passes_app (rules : ruleset) (data : ndarray) (target : list Z)
    (learning_rate : Q) (ps qs : list nat) :
  forall h,
    train_passes fuzzyfy move h rules data target learning_rate (ps ++ qs)
    = (h1 ← train_passes fuzzyfy move h rules data target learning_rate ps;
       train_passes fuzzyfy move h1 rules data target learning_rate qs).
Proof.
  induction ps as [| p ps IH]; intros h; simpl; [reflexivity |].
  destruct (train_pass fuzzyfy move h rules data target learning_rate
              (seq 0 (shape0 data))) as [h1 |]; simpl; [apply IH | reflexivity].
Qed.

Lemma train_passes_length (rules : ruleset) (data : ndarray) (target : list Z)
    (learning_rate : Q) (ps : list nat) :
  forall qs h,
    length ps = length qs ->
    train_passes fuzzyfy move h rules data target learning_rate ps
    = train_passes fuzzyfy move h rules data target learning_rate qs.
Proof.
  induction ps as [| p ps IH]; intros [| q qs] h Hlen; simpl in *;
    try discriminate Hlen; [reflexivity |].
  destruct (train_pass fuzzyfy move h rules data target learning_rate
              (seq 0 (shape0 data))) as [h1 |]; simpl; [| reflexivity].
  apply IH. lia.
Qed.

(** X9.  Passes compose: training for [a + b] passes is training for [a]
    passes and then for [b] passes on the store so obtained, an exception
    of the first part being the exception of the whole. *)
Theorem training_passes_compose (h : heap) (rules : ruleset) (data : ndarray)
    (target : list Z) (a b : Z) (learning_rate : Q) :
  (0 <= a)%Z -> (0 <= b)%Z ->
  training fuzzyfy move h rules data target (a + b) learning_rate
  = (h1 ← training fuzzyfy move h rules data target a learning_rate;
     training fuzzyfy move h1 rules data target b learning_rate).
Proof.
  intros Ha Hb. unfold training.
  rewrite Z2Nat.inj_add by assumption. rewrite seq_app.
  rewrite train_passes_app.
  destruct (train_passes fuzzyfy move h rules data target learning_rate
              (seq 0 (Z.to_nat a))) as [h1 |]; simpl; [| reflexivity].
  apply train_passes_length. now rewrite !length_seq.
Qed.

Lemma predictions_no_rule (h : heap) (data : ndarray) (n : nat) :
  forall start,
    (start + n <= shape0 data)%nat ->
    predictions fuzzyfy h [] data (seq start n) = Ok (replicate n (-1)%Z).
Proof.
  induction n as [| n IH]; intros start Hn; simpl; [reflexivity |].
  destruct (lookup_lt_is_Some_2 (rows data) start) as [row Hrow];
    [unfold shape0 in Hn; lia |].
  rewrite (getitem_Some _ _ _ Hrow). simpl.
  rewrite IH by lia. reflexivity.
Qed.

(** X10.  With an empty rule set (no candidate reached the threshold)
    training leaves the store as it is, whatever the number of passes, and
    [test] predicts -1 for every observation: these are the predictions
    that its loop builds and that it passes to the scores. *)
Theorem no_rule_model (h : heap) (data : ndarray) (target : list Z)
    (nb_iter : Z) (learning_rate : Q) (nb_of_features : nat)
    (max_rules min_observations_per_rule : Z) :
  training fuzzyfy move h [] data target nb_iter learning_rate = Ok h /\
  test_loop fuzzyfy h
       (mkNFS nb_of_features max_rules min_observations_per_rule (Some []))
       data
  = Ok (replicate (shape0 data) (-1)%Z) /\
  test fuzzyfy metrics h
       (mkNFS nb_of_features max_rules min_observations_per_rule (Some []))
       data target
  = (_ ← print_scores metrics target (replicate (shape0 data) (-1)%Z);
     mret (replicate (shape0 data) (-1)%Z)).
Proof.
  assert (Hloop : test_loop fuzzyfy h
                    (mkNFS nb_of_features max_rules min_observations_per_rule
                           (Some []))
                    data
                  = Ok (replicate (shape0 data) (-1)%Z)).
  { unfold test_loop. simpl. now apply predictions_no_rule. }
  split; [| split].
  - unfold training. now apply train_passes_no_feature.
  - exact Hloop.
  - now apply test_of_loop.
Qed.

Lemma predictions_total (h : heap) (rules : ruleset) (data : ndarray) (n : nat) :
  Forall (fun row => Forall (fun item : list nat * Z =>
                               (length item.1 <= length row)%nat) rules)
         (rows data) ->
  forall start,
    (start + n <= shape0 data)%nat ->
    exists l,
      predictions fuzzyfy h rules data (seq start n) = Ok l /\
      length l = n /\
      Forall (fun c => c = (-1)%Z \/ c ∈ values rules) l.
Proof.
  intros Hrows. induction n as [| n IH]; intros start Hn; simpl.
  - exists []. repeat split. constructor.
  - destruct (lookup_lt_is_Some_2 (rows data) start) as [row Hrow];
      [unfold shape0 in Hn; lia |].
    rewrite (getitem_Some _ _ _ Hrow). simpl.
    pose proof (proj1 (Forall_lookup _ _) Hrows start row Hrow) as Hlen.
    destruct (max_class_loop_member fuzzyfy h row rules Hlen 0 (-1)%Z)
      as (c & Hc & Hin).
    unfold predict. rewrite Hc. simpl.
    destruct (IH (S start)) as (l & Hl & Hlength & Hall); [lia |].
    rewrite Hl. simpl. exists (c :: l). split; [reflexivity |].
    split; [simpl; lia |]. constructor; assumption.
Qed.

(** X11.  On observations that have a value for every fuzzy set of every
    rule, the loop of [test] raises nothing and builds one prediction per
    observation, each of them the class of a rule or -1; [test] then
    computes the scores of these predictions against [target], so that it
    raises exactly when a score raises. *)
Theorem test_reaches_scores (h : heap) (self : NFS) (rules : ruleset)
    (data : ndarray) (target : list Z) :
  _rules self = Some rules ->
  Forall (fun row => Forall (fun item : list nat * Z =>
                               (length item.1 <= length row)%nat) rules)
         (rows data) ->
  exists l,
    test_loop fuzzyfy h self data = Ok l /\
    length l = shape0 data /\
    Forall (fun c => c = (-1)%Z \/ c ∈ values rules) l /\
    test fuzzyfy metrics h self data target
    = (_ ← print_scores metrics target l; mret l) /\
    (forall e, print_scores metrics target l = Raise e ->
               test fuzzyfy metrics h self data target = Raise e) /\
    (print_scores metrics target l = Ok tt ->
     test fuzzyfy metrics h self data target = Ok l).
Proof.
  intros Hrules Hrows.
  destruct (predictions_total h rules data (shape0 data) Hrows 0)
    as (l & Hl & Hlength & Hall); [lia |].
  assert (Hloop : test_loop fuzzyfy h self data = Ok l).
  { unfold test_loop. now rewrite Hrules. }
  pose proof (test_of_loop fuzzyfy metrics h self data target l Hloop) as Htest.
  exists l. split; [exact Hloop |]. split; [exact Hlength |].
  split; [exact Hall |]. split; [exact Htest |]. split.
  - intros e He. rewrite Htest, He. reflexivity.
  - intros Hs. rewrite Htest, Hs. reflexivity.
Qed.

Lemma activate_short_row (h : heap) (len_mfs : nat) (row : list Q)
    (rest : list nat) :
  forall feat act,
    (feat <= length row)%nat ->
    (length row < feat + length rest)%nat ->
    activate fuzzyfy h len_mfs row feat rest act = Raise IndexError.
Proof.
  induction rest as [| m rest IH]; intros feat act Hfeat Hshort; simpl in *;
    [lia |].
  unfold getitem. destruct (row !! feat) as [v |] eqn:Hv; simpl; [| reflexivity].
  apply lookup_lt_Some in Hv. apply IH; lia.
Qed.

(** X12.  Observations with fewer values than the rules have fuzzy sets
    make [test] raise [IndexError] (when there is a rule and an
    observation at all). *)
Theorem test_short_rows (h : heap) (self : NFS) (rules : ruleset)
    (data : ndarray) (target : list Z) (n : nat) :
  _rules self = Some rules ->
  rules <> [] ->
  rows data <> [] ->
  Forall (fun rule => length rule = n) (keys rules) ->
  Forall (fun row => (length row < n)%nat) (rows data) ->
  test fuzzyfy metrics h self data target = Raise IndexError.
Proof.
  intros Hrules Hne Hrows Hlen Hshort. apply test_loop_Raise.
  unfold test_loop. rewrite Hrules.
  unfold shape0.
  destruct (rows data) as [| row others] eqn:Hr; [congruence |].
  destruct rules as [| [mfs c] rest]; [congruence |].
  simpl. rewrite Hr. simpl.
  apply Forall_cons in Hlen, Hshort. simpl in Hlen.
  destruct Hlen as [Hmfs _], Hshort as [Hrow _].
  unfold predict. simpl. unfold activation.
  rewrite activate_short_row by (simpl; lia). reflexivity.
Qed.

End Edges.

Lemma training_passes_compose_witness :
  training tri_fuzzyfy shift_move unit_heap [([0%nat], 0%Z)]
           (mkArray 1 [[3 # 2]]) [0%Z] (1 + 2) (1 # 10)
  = (h1 ← training tri_fuzzyfy shift_move unit_heap [([0%nat], 0%Z)]
             (mkArray 1 [[3 # 2]]) [0%Z] 1 (1 # 10);
     training tri_fuzzyfy shift_move h1 [([0%nat], 0%Z)]
              (mkArray 1 [[3 # 2]]) [0%Z] 2 (1 # 10)).
Proof.
  apply (training_passes_compose tri_fuzzyfy shift_move); lia.
Defined.

Lemma test_reaches_scores_witness :
  exists l,
    test_loop tri_fuzzyfy unit_heap
         (mkNFS 1 10 5 (Some [([0%nat], 0%Z); ([1%nat], 1%Z)]))
         (mkArray 1 [[3 # 2]; [6]])
    = Ok l /\
    length l = 2%nat /\
    Forall (fun c => c = (-1)%Z \/ c ∈ values [([0%nat], 0%Z); ([1%nat], 1%Z)]) l /\
    test tri_fuzzyfy checked_metrics unit_heap
         (mkNFS 1 10 5 (Some [([0%nat], 0%Z); ([1%nat], 1%Z)]))
         (mkArray 1 [[3 # 2]; [6]]) [0%Z]
    = Raise ValueError.
Proof.
  destruct (test_reaches_scores tri_fuzzyfy checked_metrics unit_heap
              (mkNFS 1 10 5 (Some [([0%nat], 0%Z); ([1%nat], 1%Z)]))
              [([0%nat], 0%Z); ([1%nat], 1%Z)]
              (mkArray 1 [[3 # 2]; [6]]) [0%Z] eq_refl)
    as (l & Hloop & Hlength & Hall & _ & Hraise & _).
  { repeat constructor. }
  exists l. split; [exact Hloop |]. split; [exact Hlength |].
  split; [exact Hall |].
  apply Hraise. rewrite print_scores_checked, decide_False; [reflexivity |].
  rewrite Hlength. simpl. intros [Hlen _]. discriminate Hlen.
Defined.

Lemma test_short_rows_witness :
  test tri_fuzzyfy checked_metrics unit_heap
       (mkNFS 2 10 5 (Some [([0%nat; 1%nat], 0%Z)]))
       (mkArray 1 [[3 # 2]]) [0%Z]
  = Raise IndexError.
Proof.
  apply (test_short_rows tri_fuzzyfy checked_metrics unit_heap _
           [([0%nat; 1%nat], 0%Z)] _ _ 2).
  - reflexivity.
  - discriminate.
  - discriminate.
  - repeat constructor.
  - repeat constructor.
Defined.

(** ** Activations *)

Section Degrees.

Variable fuzzyfy : heap -> nat -> Q -> Q.

(** X14.  When one rule has a positive activation greater than the
    activation of every other rule, the training scan and the evaluation
    scan select the same rule: [test] predicts the class of the rule that
    a training step would adjust. *)
Theorem unique_winner_agrees (h : heap) (row : list Q)
    (before after : ruleset) (mfs : list nat) (c : Z) (a : Q) :
  activation fuzzyfy h mfs row = Ok a ->
  0 < a ->
  Forall (activation_is fuzzyfy h row Qlt a) before ->
  Forall (activation_is fuzzyfy h row Qlt a) after ->
  most_activated fuzzyfy h row (before ++ (mfs, c) :: after) None 0
  = Ok (Some (mfs, c)) /\
  predict fuzzyfy h (before ++ (mfs, c) :: after) row = Ok c.
Proof.
  intros Ha Hpos Hbefore Hafter.
  assert (Hweak : forall items,
             Forall (activation_is fuzzyfy h row Qlt a) items ->
             Forall (activation_is fuzzyfy h row Qle a) items).
  { intros items Hall. eapply Forall_impl; [exact Hall |].
    intros item (a' & Ha' & Hlt). exists a'. split; [exact Ha' | lra]. }
  split.
  - apply (most_activated_first_max fuzzyfy h row before after mfs c a);
      auto.
  - unfold predict.
    apply (max_class_loop_last_max fuzzyfy h row before after mfs c a);
      auto. lra.
Qed.

End Degrees.

Lemma unique_winner_agrees_witness :
  most_activated tri_fuzzyfy unit_heap [2]
    ([([4%nat], 2%Z)] ++ ([1%nat], 1%Z) :: [([0%nat], 0%Z)]) None 0
  = Ok (Some ([1%nat], 1%Z)) /\
  predict tri_fuzzyfy unit_heap
    ([([4%nat], 2%Z)] ++ ([1%nat], 1%Z) :: [([0%nat], 0%Z)]) [2]
  = Ok 1%Z.
Proof.
  eapply (unique_winner_agrees tri_fuzzyfy unit_heap [2]).
  - vm_compute. reflexivity.
  - reflexivity.
  - repeat constructor. eexists. split; [vm_compute; reflexivity | reflexivity].
  - repeat constructor. eexists. split; [vm_compute; reflexivity | reflexivity].
Defined.

(** ** [inspect] *)

Lemma add_fuzzy_sets_spec (mfs : list nat) (feats : list nat) :
  Forall (fun feat => (feat < length mfs)%nat) feats ->
  forall lvs : list (gset nat),
  exists lvs',
    add_fuzzy_sets lvs mfs feats = Ok lvs' /\
    length lvs' = length lvs /\
    forall feat s',
      lvs' !! feat = Some s' ->
      exists s, lvs !! feat = Some s /\
                forall m, m ∈ s' <-> m ∈ s \/ (feat ∈ feats /\ mfs !! feat = Some m).
Proof.
  induction 1 as [| feat0 feats Hfeat0 _ IH]; intros lvs; simpl.
  - exists lvs. repeat split; [].
    intros feat s' Hs'. exists s'. split; [exact Hs' |].
    intros m. split; [now left |]. intros [Hm | [Hin _]]; [exact Hm |].
    inversion Hin.
  - destruct (lookup_lt_is_Some_2 mfs feat0 Hfeat0) as [m0 Hm0].
    rewrite (getitem_Some _ _ _ Hm0). simpl.
    destruct (IH (alter (fun s => {[m0]} ∪ s) feat0 lvs))
      as (lvs' & Hadd & Hlen & Hsets).
    exists lvs'. split; [exact Hadd |].
    split; [now rewrite Hlen, length_alter |].
    intros feat s' Hs'. destruct (Hsets feat s' Hs') as (s1 & Hs1 & Hiff).
    destruct (decide (feat0 = feat)) as [<- | Hne].
    + rewrite list_lookup_alter_eq in Hs1.
      destruct (lvs !! feat0) as [s |] eqn:Hs; [| discriminate Hs1].
      simpl in Hs1. injection Hs1 as <-.
      exists s. split; [reflexivity |]. intros m. rewrite Hiff.
      rewrite elem_of_union, elem_of_singleton, elem_of_cons. split.
      * intros [[-> | Hm] | [Hin Hm]]; [right | now left | right]; split;
          auto.
      * intros [Hm | [_ Hm]]; [left; now right |].
        left. left. congruence.
    + rewrite list_lookup_alter_ne in Hs1 by assumption.
      exists s1. split; [exact Hs1 |]. intros m. rewrite Hiff.
      rewrite elem_of_cons. split.
      * intros [Hm | [Hin Hm]]; [now left | right; split; auto].
      * intros [Hm | [[-> | Hin] Hm]]; [now left | congruence | right; auto].
Qed.

Lemma collect_fuzzy_sets_spec (nb_of_features : nat) (todo : list (list nat)) :
  Forall (fun rule => (nb_of_features <= length rule)%nat) todo ->
  forall lvs : list (gset nat),
  exists lvs',
    collect_fuzzy_sets lvs nb_of_features todo = Ok lvs' /\
    length lvs' = length lvs /\
    forall feat s',
      lvs' !! feat = Some s' ->
      exists s, lvs !! feat = Some s /\
                forall m, m ∈ s' <->
                          m ∈ s \/ ((feat < nb_of_features)%nat /\
                                    exists rule, rule ∈ todo /\
                                                 rule !! feat = Some m).
Proof.
  induction 1 as [| rule0 todo Hlen0 _ IH]; intros lvs; simpl.
  - exists lvs. repeat split; [].
    intros feat s' Hs'. exists s'. split; [exact Hs' |].
    intros m. split; [now left |].
    intros [Hm | (_ & rule & Hin & _)]; [exact Hm | inversion Hin].
  - destruct (add_fuzzy_sets_spec rule0 (seq 0 nb_of_features)) with (lvs := lvs)
      as (lvs1 & Hadd & Hlen1 & Hsets1).
    { apply Forall_forall. intros feat Hfeat. apply elem_of_seq in Hfeat. lia. }
    rewrite Hadd. simpl.
    destruct (IH lvs1) as (lvs' & Hcol & Hlen & Hsets).
    exists lvs'. split; [exact Hcol |]. split; [congruence |].
    intros feat s' Hs'. destruct (Hsets feat s' Hs') as (s1 & Hs1 & Hiff).
    destruct (Hsets1 feat s1 Hs1) as (s & Hs & Hiff1).
    exists s. split; [exact Hs |]. intros m.
    rewrite Hiff, Hiff1, elem_of_seq. split.
    + intros [[Hm | [Hfeat Hm]] | (Hfeat & rule & Hin & Hm)].
      * now left.
      * right. split; [lia |]. exists rule0. split; [left | exact Hm].
      * right. split; [exact Hfeat |]. exists rule. split; [now right | exact Hm].
    + intros [Hm | (Hfeat & rule & Hin & Hm)]; [left; now left |].
      apply elem_of_cons in Hin. destruct Hin as [-> | Hin].
      * left. right. split; [lia | exact Hm].
      * right. split; [exact Hfeat |]. now exists rule.
Qed.

(** X17.  [inspect] raises [AttributeError] on a classifier that has not
    been trained; on rules that have a fuzzy set for each of the
    [_nb_of_features] features it raises nothing and builds one set per
    feature, holding exactly the fuzzy sets that the rules use on that
    feature. *)
Theorem inspect_sets (self : NFS) (rules : ruleset) :
  (forall max_rules min_observations_per_rule,
      inspect (init max_rules min_observations_per_rule) = Raise AttributeError) /\
  (_rules self = Some rules ->
   Forall (fun rule => (_nb_of_features self <= length rule)%nat) (keys rules) ->
   exists lvs,
     inspect self = Ok lvs /\
     length lvs = _nb_of_features self /\
     forall feat s,
       lvs !! feat = Some s ->
       forall m, m ∈ s <-> exists rule, rule ∈ keys rules /\ rule !! feat = Some m).
Proof.
  split; [reflexivity |]. intros Hrules Hlen. unfold inspect. rewrite Hrules.
  destruct (collect_fuzzy_sets_spec (_nb_of_features self) (keys rules) Hlen
              (replicate (_nb_of_features self) ∅))
    as (lvs & Hcol & Hlength & Hsets).
  exists lvs. split; [exact Hcol |].
  split; [now rewrite Hlength, length_replicate |].
  intros feat s Hs m. destruct (Hsets feat s Hs) as (s0 & Hs0 & Hiff).
  apply lookup_replicate in Hs0. destruct Hs0 as [-> Hfeat].
  rewrite Hiff. split.
  - intros [Hm | [_ Hm]]; [now apply not_elem_of_empty in Hm | exact Hm].
  - intros Hm. right. split; [exact Hfeat | exact Hm].
Qed.

Lemma inspect_sets_witness :
  exists lvs,
    inspect (mkNFS 1 10 5 (Some [([0%nat], 0%Z); ([2%nat], 1%Z); ([3%nat], 1%Z)]))
    = Ok lvs /\
    length lvs = 1%nat /\
    forall s, lvs !! 0%nat = Some s -> 2%nat ∈ s.
Proof.
  destruct (inspect_sets
              (mkNFS 1 10 5 (Some [([0%nat], 0%Z); ([2%nat], 1%Z); ([3%nat], 1%Z)]))
              [([0%nat], 0%Z); ([2%nat], 1%Z); ([3%nat], 1%Z)])
    as [_ Hsets].
  destruct (Hsets eq_refl) as (lvs & Hi & Hlen & Hmem).
  - repeat constructor.
  - exists lvs. split; [exact Hi |]. split; [exact Hlen |].
    intros s Hs. apply (Hmem 0%nat s Hs). exists [2%nat].
    split; [| reflexivity]. right. left.
Defined.

(** ** [train] on well-shaped inputs *)

Lemma shuffled_shape
    (shuffle : ndarray -> list Z -> result (ndarray * list Z))
    (data : ndarray) (target : list Z) :
  shuffle_contract shuffle ->
  rectangular data ->
  shape0 data = length target ->
  exists data1 target1,
    shuffle data target = Ok (data1, target1) /\
    shape1 data1 = shape1 data /\
    shape0 data1 = length target1 /\
    shape0 data1 = shape0 data /\
    rectangular data1.
Proof.
  intros Hshuffle Hrect Heq. specialize (Hshuffle data target).
  rewrite decide_True in Hshuffle by assumption.
  destruct Hshuffle as (data1 & target1 & Hsh & Hshape & Hlen & Hperm).
  exists data1, target1. split; [exact Hsh |]. split; [exact Hshape |].
  split; [exact Hlen |].
  assert (Hfst : Permutation (rows data1) (rows data)).
  { rewrite <- (fst_zip (rows data1) target1) by lia.
    rewrite <- (fst_zip (rows data) target) by (unfold shape0 in Heq; lia).
    now apply fmap_Permutation. }
  split.
  - unfold shape0. now apply Permutation_length.
  - unfold rectangular. rewrite Hshape, Hfst. exact Hrect.
Qed.

Lemma build_features_ok (data : ndarray) (feats : list nat) :
  rows data <> [] ->
  forall h, exists h1 mfs, build_features h data feats = Ok (h1, mfs).
Proof.
  intros Hrows. induction feats as [| feat feats IH]; intros h; simpl.
  - now exists h, [].
  - assert (Hcol : exists v col, column data feat = v :: col).
    { unfold column. destruct (rows data) as [| r rs]; [congruence |].
      simpl. eauto. }
    destruct Hcol as (v & col & Hcol).
    rewrite (build_feature_layout h data feat (fold_left Qmin col v)
               (fold_left Qmax col v)) by now rewrite Hcol.
    simpl.
    match goal with
    | |- context [build_features ?h2 data feats] =>
        destruct (IH h2) as (h1 & mfs & Hb); rewrite Hb
    end.
    simpl. eauto.
Qed.

Section Total.

Variable fuzzyfy : heap -> nat -> Q -> Q.
Variable move : heap -> nat -> Q -> Q -> bool -> heap.
Variable shuffle : ndarray -> list Z -> result (ndarray * list Z).
Variable metrics : Metrics.

Lemma most_activated_ok (h : heap) (row : list Q) (items : ruleset) :
  Forall (fun item : list nat * Z => (length item.1 <= length row)%nat) items ->
  forall max_rule max_act,
  exists r,
    most_activated fuzzyfy h row items max_rule max_act = Ok r /\
    (r = max_rule \/ exists item, item ∈ items /\ r = Some item).
Proof.
  induction 1 as [| [mfs c] items Hlen _ IH]; intros max_rule max_act; simpl.
  - exists max_rule. split; [reflexivity | now left].
  - destruct (activation_mean fuzzyfy h mfs row Hlen) as (a & Ha & _).
    rewrite Ha. simpl.
    destruct (Qltb max_act a).
    + destruct (IH (Some (mfs, c)) a) as (r & Hr & Hin).
      exists r. split; [exact Hr |]. right.
      destruct Hin as [-> | (item & Hitem & ->)].
      * exists (mfs, c). split; [left | reflexivity].
      * exists item. split; [now right | reflexivity].
    + destruct (IH max_rule max_act) as (r & Hr & Hin).
      exists r. split; [exact Hr |].
      destruct Hin as [-> | (item & Hitem & ->)]; [now left | right].
      exists item. split; [now right | reflexivity].
Qed.

Lemma adjust_ok (max_class : Z) (row : list Q) (target : list Z) (obs : nat)
    (learning_rate : Q) (rest : list nat) :
  (obs < length target)%nat ->
  forall h feat,
    (feat + length rest <= length row)%nat ->
    exists h1,
      adjust move h max_class row target obs learning_rate feat rest = Ok h1.
Proof.
  intros Hobs. induction rest as [| m rest IH]; intros h feat Hlen; simpl.
  - now exists h.
  - simpl in Hlen.
    destruct (lookup_lt_is_Some_2 row feat) as [v Hv]; [lia |].
    destruct (lookup_lt_is_Some_2 target obs) as [t Ht]; [exact Hobs |].
    rewrite (getitem_Some _ _ _ Hv), (getitem_Some _ _ _ Ht). simpl.
    apply IH. lia.
Qed.

Lemma train_pass_ok (rules : ruleset) (data : ndarray) (target : list Z)
    (learning_rate : Q) (n : nat) :
  (shape0 data <= length target)%nat ->
  Forall (fun row => Forall (fun item : list nat * Z =>
                               (length item.1 <= length row)%nat) rules)
         (rows data) ->
  forall h i,
    (i + n <= shape0 data)%nat ->
    exists h1,
      train_pass fuzzyfy move h rules data target learning_rate (seq i n)
      = Ok h1.
Proof.
  intros Htarget Hrows. induction n as [| n IH]; intros h i Hi; simpl.
  - now exists h.
  - unfold train_observation.
    destruct (lookup_lt_is_Some_2 (rows data) i) as [row Hrow];
      [unfold shape0 in Hi; lia |].
    rewrite (getitem_Some _ _ _ Hrow). simpl.
    pose proof (proj1 (Forall_lookup _ _) Hrows i row Hrow) as Hlen.
    destruct (most_activated_ok h row rules Hlen None 0) as (r & Hr & Hin).
    rewrite Hr. simpl.
    destruct Hin as [-> | ([mfs c] & Hitem & ->)].
    + simpl. apply IH. lia.
    + destruct (adjust_ok c row target i learning_rate mfs ltac:(lia) h 0)
        as (h1 & H1).
      { simpl. apply (proj1 (Forall_forall _ _) Hlen (mfs, c) Hitem). }
      rewrite H1. simpl. apply IH. lia.
Qed.

Lemma train_passes_ok (rules : ruleset) (data : ndarray) (target : list Z)
    (learning_rate : Q) (passes : list nat) :
  (shape0 data <= length target)%nat ->
  Forall (fun row => Forall (fun item : list nat * Z =>
                               (length item.1 <= length row)%nat) rules)
         (rows data) ->
  forall h,
  exists h1,
    train_passes fuzzyfy move h rules data target learning_rate passes = Ok h1.
Proof.
  intros Htarget Hrows. induction passes as [| p passes IH]; intros h; simpl.
  - now exists h.
  - destruct (train_pass_ok rules data target learning_rate (shape0 data)
                Htarget Hrows h 0) as (h1 & H1); [lia |].
    rewrite H1. simpl. apply IH.
Qed.

Lemma train_returns (self : NFS) (data : ndarray) (target : list Z)
    (nb_iter : Z) (learning_rate : Q) :
  shuffle_contract shuffle ->
  rectangular data ->
  shape0 data = length target ->
  rows data <> [] \/ shape1 data = 0%nat ->
  exists h rules,
    train fuzzyfy move shuffle self data target nb_iter learning_rate
    = Ok (h, trained self data rules) /\
    Forall (fun rule => length rule = shape1 data) (keys rules).
Proof.
  intros Hshuffle Hrect Heq Hsome.
  destruct (shuffled_shape shuffle data target Hshuffle Hrect Heq)
    as (data1 & target1 & Hsh & Hshape & Hlen & Hrows & Hrect1).
  assert (Hb : exists h mfs, build_fuzzy_sets data1 = Ok (h, mfs)).
  { unfold build_fuzzy_sets. destruct Hsome as [Hne | Hzero].
    - apply build_features_ok. unfold shape0 in Hrows.
      destruct (rows data1); [| discriminate].
      destruct (rows data); [congruence | discriminate Hrows].
    - rewrite Hshape, Hzero. simpl. eauto. }
  destruct Hb as (h & mfs & Hb).
  pose proof (candidates_well_shaped data1 h mfs Hrect1 Hb) as Hcells.
  destruct (consequents_rules h data1 target1 (_min_observations_per_rule self)
              (product mfs) ltac:(lia) Hcells []) as (rules & Hrules & Hkeys & _).
  assert (Hrule_len : Forall (fun rule => length rule = shape1 data1)
                             (keys rules)).
  { apply Forall_forall. intros cell Hin. apply Hkeys in Hin.
    destruct Hin as [Hin | [Hin _]]; [inversion Hin |].
    apply product_length in Hin.
    unfold build_fuzzy_sets in Hb. apply build_features_length in Hb.
    rewrite length_seq in Hb. lia. }
  assert (Hrepair : exists h1, repair h rules (shape1 data1) = Ok h1).
  { eexists. unfold repair. apply repair_features_run.
    apply long_rules_indexable.
    eapply Forall_impl; [exact Hrule_len |]. intros rule Hr. simpl in Hr. lia. }
  destruct Hrepair as (h1 & Hrepair).
  assert (Hfit : Forall (fun row => Forall (fun item : list nat * Z =>
                                      (length item.1 <= length row)%nat) rules)
                        (rows data1)).
  { eapply Forall_impl; [exact Hrect1 |]. intros row Hrow. simpl in Hrow.
    apply Forall_forall. intros [mfs' c] Hin. simpl.
    assert (Hk : mfs' ∈ keys rules).
    { unfold keys. apply list_elem_of_fmap. now exists (mfs', c). }
    apply (proj1 (Forall_forall _ _) Hrule_len) in Hk. lia. }
  destruct (train_passes_ok rules data1 target1 learning_rate
              (seq 0 (Z.to_nat nb_iter)) ltac:(lia) Hfit h1) as (h2 & H2).
  exists h2, rules. split; [| now rewrite <- Hshape].
  unfold train, induce.
  rewrite Hsh. simpl. rewrite Hb. simpl. rewrite Hrules. simpl.
  rewrite Hrepair. simpl. unfold training. rewrite H2. reflexivity.
Qed.

(** X15.  [train] raises nothing on well-shaped inputs: with as many
    classes as observations and at least one observation (or no feature),
    the shuffle, the construction of the fuzzy sets, the induction of the
    rules, the repair and every pass of the training loop return. *)
Theorem train_total (self : NFS) (data : ndarray) (target : list Z)
    (nb_iter : Z) (learning_rate : Q) :
  shuffle_contract shuffle ->
  rectangular data ->
  shape0 data = length target ->
  rows data <> [] \/ shape1 data = 0%nat ->
  exists h rules,
    train fuzzyfy move shuffle self data target nb_iter learning_rate
    = Ok (h, trained self data rules).
Proof.
  intros Hshuffle Hrect Heq Hsome.
  destruct (train_returns self data target nb_iter learning_rate
              Hshuffle Hrect Heq Hsome) as (h & rules & Htrain & _).
  now exists h, rules.
Qed.

(** X20.  The run at the end of the file on well-shaped data: after
    [train], [inspect] raises nothing and builds one set per feature, and
    the loop of [test] on the training observations raises nothing and
    builds one prediction per observation, so that [test] reaches the
    scores and raises exactly when a score raises. *)
Theorem train_then_inspect_and_test (self : NFS) (data : ndarray)
    (target : list Z) (nb_iter : Z) (learning_rate : Q) :
  shuffle_contract shuffle ->
  rectangular data ->
  shape0 data = length target ->
  rows data <> [] \/ shape1 data = 0%nat ->
  exists h self1 lvs predictions,
    train fuzzyfy move shuffle self data target nb_iter learning_rate
    = Ok (h, self1) /\
    inspect self1 = Ok lvs /\
    length lvs = shape1 data /\
    test_loop fuzzyfy h self1 data = Ok predictions /\
    length predictions = shape0 data /\
    test fuzzyfy metrics h self1 data target
    = (_ ← print_scores metrics target predictions; mret predictions) /\
    (forall e, print_scores metrics target predictions = Raise e ->
               test fuzzyfy metrics h self1 data target = Raise e) /\
    (print_scores metrics target predictions = Ok tt ->
     test fuzzyfy metrics h self1 data target = Ok predictions).
Proof.
  intros Hshuffle Hrect Heq Hsome.
  destruct (train_returns self data target nb_iter learning_rate
              Hshuffle Hrect Heq Hsome) as (h & rules & Htrain & Hlen).
  destruct (collect_fuzzy_sets_spec (shape1 data) (keys rules))
    with (lvs := replicate (shape1 data) (∅ : gset nat))
    as (lvs & Hcol & Hlength & _).
  { eapply Forall_impl; [exact Hlen |]. intros rule Hr. simpl in Hr. lia. }
  destruct (predictions_total fuzzyfy h rules data (shape0 data)) with (start := 0%nat)
    as (l & Hl & Hll & _).
  { eapply Forall_impl; [exact Hrect |]. intros row Hrow. simpl in Hrow.
    apply Forall_forall. intros [mfs' c] Hin. simpl.
    assert (Hk : mfs' ∈ keys rules).
    { unfold keys. apply list_elem_of_fmap. now exists (mfs', c). }
    apply (proj1 (Forall_forall _ _) Hlen) in Hk. lia. }
  { lia. }
  assert (Hloop : test_loop fuzzyfy h (trained self data rules) data = Ok l)
    by exact Hl.
  pose proof (test_of_loop fuzzyfy metrics h (trained self data rules) data
                target l Hloop) as Htest.
  exists h, (trained self data rules), lvs, l.
  split; [exact Htrain |]. split; [exact Hcol |].
  split; [now rewrite Hlength, length_replicate |].
  split; [exact Hloop |]. split; [exact Hll |]. split; [exact Htest |]. split.
  - intros e He. rewrite Htest, He. reflexivity.
  - intros Hs. rewrite Htest, Hs. reflexivity.
Qed.

(** X16.  Without observations [train] fails when the matrix has at least
    one feature: the minimum of an empty column raises [ValueError] before
    any fuzzy set is built. *)
Theorem train_no_observation (self : NFS) (data : ndarray)
    (nb_iter : Z) (learning_rate : Q) :
  shuffle_contract shuffle ->
  rows data = [] ->
  (0 < shape1 data)%nat ->
  train fuzzyfy move shuffle self data [] nb_iter learning_rate
  = Raise ValueError.
Proof.
  intros Hshuffle Hrows Hfeat.
  destruct (shuffled_shape shuffle data [] Hshuffle)
    as (data1 & target1 & Hsh & Hshape & Hlen & Hrows1 & _).
  { unfold rectangular. rewrite Hrows. constructor. }
  { unfold shape0. now rewrite Hrows. }
  unfold train, induce. rewrite Hsh. simpl.
  unfold build_fuzzy_sets. rewrite Hshape.
  destruct (shape1 data) as [| n]; [lia |]. simpl.
  unfold build_feature, column.
  unfold shape0 in Hrows1. rewrite Hrows in Hrows1.
  destruct (rows data1); [reflexivity | discriminate Hrows1].
Qed.

End Total.

Lemma train_total_witness :
  exists h rules,
    train tri_fuzzyfy shift_move checked_shuffle (init 10 1)
          gap_data gap_target 2 (1 # 10)
    = Ok (h, trained (init 10 1) gap_data rules).
Proof.
  apply (train_total tri_fuzzyfy shift_move checked_shuffle (init 10 1)
           gap_data gap_target 2 (1 # 10) checked_shuffle_contract).
  - repeat constructor.
  - reflexivity.
  - left. discriminate.
Defined.

Lemma train_no_observation_witness :
  train tri_fuzzyfy shift_move checked_shuffle (init 10 1)
        (mkArray 2 []) [] 2 (1 # 10)
  = Raise ValueError.
Proof.
  apply (train_no_observation tri_fuzzyfy shift_move checked_shuffle
           (init 10 1) (mkArray 2 []) 2 (1 # 10) checked_shuffle_contract).
  - reflexivity.
  - simpl. lia.
Defined.

Lemma train_then_inspect_and_test_witness :
  exists h self1 lvs predictions,
    train tri_fuzzyfy shift_move checked_shuffle (init 10 1)
          gap_data gap_target 2 (1 # 10)
    = Ok (h, self1) /\
    inspect self1 = Ok lvs /\
    length lvs = 1%nat /\
    test_loop tri_fuzzyfy h self1 gap_data = Ok predictions /\
    length predictions = 3%nat /\
    test tri_fuzzyfy checked_metrics h self1 gap_data gap_target
    = Ok predictions.
Proof.
  destruct (train_then_inspect_and_test tri_fuzzyfy shift_move checked_shuffle
              checked_metrics (init 10 1) gap_data gap_target 2 (1 # 10)
              checked_shuffle_contract)
    as (h & self1 & lvs & l & Htrain & Hins & Hlvs & Hloop & Hlength & _ & _
        & Hok).
  { repeat constructor. }
  { reflexivity. }
  { left. discriminate. }
  exists h, self1, lvs, l.
  split; [exact Htrain |]. split; [exact Hins |]. split; [exact Hlvs |].
  split; [exact Hloop |]. split; [exact Hlength |].
  apply Hok. rewrite print_scores_checked, decide_True; [reflexivity |].
  rewrite Hlength. split; [reflexivity | discriminate].
Defined.


(** ** The class counts of a cell *)

(** X19.  After the loop over the observations, [classes] holds, for
    every class with at least one observation inside the cell, the number
    of those observations, and no other key. *)
Theorem class_counts (h : heap) (data : ndarray) (target : list Z)
    (cell : list nat) :
  (shape0 data <= length target)%nat ->
  Forall (fun row => (length row <= length cell)%nat) (rows data) ->
  exists classes,
    count_loop h data target cell (seq 0 (shape0 data)) [] = Ok classes /\
    NoDup (keys classes) /\
    forall k,
      dict_get classes k
      = if (cell_count h data target cell k =? 0)%Z then None
        else Some (cell_count h data target cell k).
Proof.
  intros Htarget Hrows. eexists. split.
  { apply (count_loop_tally h data target cell (shape0 data) Htarget Hrows 0 []).
    lia. }
  rewrite drop_0, take_ge by (rewrite length_zip_with; unfold shape0; lia).
  split; [apply tally_NoDup; constructor |].
  intros k. now rewrite tally_get.
Qed.

Lemma class_counts_witness :
  exists classes,
    count_loop unit_heap tie_data tie_target [0%nat] (seq 0 3) [] = Ok classes /\
    dict_get classes 1%Z = Some 1%Z /\ dict_get classes 5%Z = None.
Proof.
  destruct (class_counts unit_heap tie_data tie_target [0%nat])
    as (classes & Hc & _ & Hget).
  - cbv. lia.
  - repeat constructor.
  - exists classes. split; [exact Hc |]. split; rewrite Hget; reflexivity.
Defined.

(** ** The order of the observations *)

Lemma count_in_Permutation (h : heap) (cell : list nat) (k : Z)
    (obs obs' : list (list Q * Z)) :
  Permutation obs obs' -> count_in h cell k obs = count_in h cell k obs'.
Proof.
  induction 1 as [| [row t] obs obs' _ IH | [row t] [row' t'] obs | ? ? ? _ IH1 _ IH2];
    simpl; [reflexivity | now rewrite IH | lia | congruence].
Qed.

Lemma label_Permutation (h : heap) (data1 data2 : ndarray)
    (target1 target2 : list Z) (min_observations_per_rule : Z)
    (cell : list nat) :
  Permutation (zip (rows data1) target1) (zip (rows data2) target2) ->
  label h data1 target1 min_observations_per_rule cell
  = label h data2 target2 min_observations_per_rule cell.
Proof.
  intros Hperm.
  assert (Hcnt : forall k, cell_count h data1 target1 cell k
                           = cell_count h data2 target2 cell k).
  { intros k. unfold cell_count. now apply count_in_Permutation. }
  destruct (label_cases h data1 target1 min_observations_per_rule cell)
    as [(_ & Hl1 & Hnone1) | (c1 & _ & _ & Hone1 & Hmax1 & Hl1)];
    destruct (label_cases h data2 target2 min_observations_per_rule cell)
      as [(_ & Hl2 & Hnone2) | (c2 & _ & _ & Hone2 & Hmax2 & Hl2)].
  - congruence.
  - exfalso. rewrite <- Hcnt in Hone2. apply count_in_positive in Hone2.
    destruct Hone2 as (row & Hin & Hinside).
    apply (proj1 (Forall_forall _ _) Hnone1) in Hin. simpl in Hin. congruence.
  - exfalso. rewrite Hcnt in Hone1. apply count_in_positive in Hone1.
    destruct Hone1 as (row & Hin & Hinside).
    apply (proj1 (Forall_forall _ _) Hnone2) in Hin. simpl in Hin. congruence.
  - assert (c1 = c2) as ->.
    { specialize (Hmax1 c2). specialize (Hmax2 c1).
      rewrite <- !Hcnt in Hmax2. lia. }
    rewrite Hl1, Hl2, Hcnt. reflexivity.
Qed.

Lemma consequents_fold (h : heap) (data : ndarray) (target : list Z)
    (min_observations_per_rule : Z) (cells : list (list nat)) :
  (shape0 data <= length target)%nat ->
  Forall (fun cell => Forall (fun row => (length row <= length cell)%nat)
                             (rows data)) cells ->
  forall rules0 : ruleset,
    consequents h data target min_observations_per_rule rules0 cells
    = Ok (fold_left
            (fun rules cell =>
               match label h data target min_observations_per_rule cell with
               | Some c => dict_set rules cell c
               | None => rules
               end) cells rules0).
Proof.
  intros Htarget Hcells.
  induction Hcells as [| cell0 cells Hcell0 _ IH]; intros rules0;
    [reflexivity |].
  cbn [consequents fold_left].
  rewrite (consequent_label h data target min_observations_per_rule rules0
             cell0 Htarget Hcell0). simpl. apply IH.
Qed.

(** X21.  The induction of the rules does not depend on the order of the
    observations: two data sets that hold the same observations with the
    same classes, in any order, give the same rules with the same classes
    (the shuffle only matters for the training loop). *)
Theorem induction_order_independent (h : heap) (data1 data2 : ndarray)
    (target1 target2 : list Z) (min_observations_per_rule : Z)
    (cells : list (list nat)) :
  shape0 data1 = length target1 ->
  shape0 data2 = length target2 ->
  Permutation (zip (rows data1) target1) (zip (rows data2) target2) ->
  Forall (fun cell => Forall (fun row => (length row <= length cell)%nat)
                             (rows data1)) cells ->
  exists rules,
    consequents h data1 target1 min_observations_per_rule [] cells = Ok rules /\
    consequents h data2 target2 min_observations_per_rule [] cells = Ok rules.
Proof.
  intros Hlen1 Hlen2 Hperm Hcells1.
  assert (Hrows : Permutation (rows data1) (rows data2)).
  { rewrite <- (fst_zip (rows data1) target1) by (unfold shape0 in Hlen1; lia).
    rewrite <- (fst_zip (rows data2) target2) by (unfold shape0 in Hlen2; lia).
    now apply fmap_Permutation. }
  assert (Hcells2 : Forall (fun cell => Forall (fun row =>
                              (length row <= length cell)%nat) (rows data2))
                           cells).
  { eapply Forall_impl; [exact Hcells1 |]. intros cell Hcell. simpl in Hcell.
    now rewrite <- Hrows. }
  eexists. split.
  - apply consequents_fold; [lia | exact Hcells1].
  - rewrite consequents_fold by (lia || assumption). f_equal.
    generalize (@nil (list nat * Z)).
    induction cells as [| cell cells IH]; intros rules0; [reflexivity |].
    simpl.
    rewrite (label_Permutation h data1 data2 target1 target2
               min_observations_per_rule cell Hperm).
    apply IH.
    + now apply Forall_cons in Hcells1.
    + now apply Forall_cons in Hcells2.
Qed.

Lemma induction_order_independent_witness :
  exists rules,
    consequents unit_heap gap_data gap_target 1 []
                [[0%nat]; [1%nat]; [2%nat]; [3%nat]; [4%nat]] = Ok rules /\
    consequents unit_heap (mkArray 1 [[7]; [0]; [7 # 2]]) [1; 0; 1]%Z 1 []
                [[0%nat]; [1%nat]; [2%nat]; [3%nat]; [4%nat]] = Ok rules.
Proof.
  apply (induction_order_independent unit_heap gap_data
           (mkArray 1 [[7]; [0]; [7 # 2]]) gap_target [1; 0; 1]%Z 1).
  - reflexivity.
  - reflexivity.
  - simpl. etransitivity; [apply Permutation_cons_append |]. simpl.
    etransitivity; [apply Permutation_cons_append |]. reflexivity.
  - repeat constructor.
Defined.
